(** * Tometabolome: the exploration core of [frontend/src/App.tsx]

    A shallow embedding of the React component [App]: its state variables,
    its pure helpers ([getStickData], the closest-scan [reduce], the
    trapezoidal integration) and its event handlers, the asynchronous ones
    as tasks that suspend at every [await fetch(...)].

    Numbers.  The component only receives numbers decoded from JSON, hence
    finite ones; they are modelled as exact rationals ([Qc], rationals in
    lowest terms, so that equal numbers are equal terms).  Rounding is not
    modelled.  [NaN], [null] and [undefined] appear only where the code can
    produce them: in the cells of the arrays handed to the plots and in the
    integrated area.

    Revisions.  The source holds the component twice.  The handlers below
    are those of the revision with file upload, demo load and manual path;
    module [Browser] has the handlers of the revision with the server-side
    file browser where they differ. *)

From Stdlib Require Import ZArith QArith Qcanon Qcabs List String Bool Lia.
Import ListNotations.
Open Scope string_scope.
Open Scope list_scope.
Open Scope Z_scope.
Open Scope Qc_scope.

Set Implicit Arguments.

(** ** Numbers *)

Definition num (z : Z) : Qc := Q2Qc (inject_Z z).

(** [a < b] and [a <= b] on numbers, as booleans. *)
Definition ltb (a b : Qc) : bool :=
  match a ?= b with Lt => true | _ => false end.

Definition leb (a b : Qc) : bool :=
  match a ?= b with Gt => false | _ => true end.

(** What a cell of a JS [number[]] can hold at run time: a number, [NaN],
    the [null] pushed as a path break, or the [undefined] read past the end
    of an array. *)
Inductive jsval : Type :=
| Num (q : Qc)
| NaN
| Null
| Undefined.

(** [ToNumber]: [null] is 0, [undefined] is [NaN]. *)
Definition toNumber (v : jsval) : option Qc :=
  match v with
  | Num q => Some q
  | Null => Some 0
  | NaN | Undefined => None
  end.

Definition arith (op : Qc -> Qc -> Qc) (a b : jsval) : jsval :=
  match toNumber a, toNumber b with
  | Some p, Some q => Num (op p q)
  | _, _ => NaN
  end.

Definition jsadd := arith Qcplus.
Definition jssub := arith Qcminus.
Definition jsmul := arith Qcmult.
Definition jsdiv_const (a : jsval) (d : Qc) : jsval := arith Qcdiv a (Num d).

(** [arr[i]] for a JS number index: [undefined] (here [None]) out of range. *)
Definition index {A : Type} (arr : list A) (i : Z) : option A :=
  if (i <? 0)%Z then None else nth_error arr (Z.to_nat i).

Definition length_Z {A : Type} (arr : list A) : Z := Z.of_nat (List.length arr).

(** [!s] for a string. *)
Definition falsy (s : string) : bool :=
  match s with EmptyString => true | _ => false end.

(** [s || d] for strings. *)
Definition or_default (s : option string) (d : string) : string :=
  match s with
  | Some v => if falsy v then d else v
  | None => d
  end.

(** ** API responses and state variables *)

Module ChromatogramResponse.
Record t : Type := mk { rts : list Qc; ints : list Qc }.
End ChromatogramResponse.

Module SpectrumResponse.
Record t : Type := mk {
    mzs : list Qc; ints : list Qc; rt : Qc; has_ms2 : option (list Qc) }.
End SpectrumResponse.

Module MS2Response.
Record t : Type := mk {
    mzs : list Qc; ints : list Qc; rt : Qc; precursor_mz : Qc }.
End MS2Response.

Module Scan.
Record t : Type := mk {
    id : Z; rt : Qc; tic : Qc; base_peak_mz : Qc; base_peak_int : Qc }.
End Scan.

(** [{ x: number[], y: number[] }], the shape of [ticData] and [chromData]. *)
Module XY.
Record t : Type := mk { x : list Qc; y : list Qc }.
End XY.

(** The same shape for [integratedPoints], whose [y] is copied cell by cell
    from [activeChromData.y] and so may hold [undefined]. *)
Module Points.
Record t : Type := mk { x : list Qc; y : list jsval }.
End Points.


(** The [useState] variables of [App]. *)
Record State : Type := mkState {
  manualPath : string;
  selectedFile : string;
  targetMz : Qc;
  ppmTol : Qc;
  ticData : option XY.t;
  chromData : option XY.t;
  spectrumData : option SpectrumResponse.t;
  loading : bool;
  error : option string;
  plotRevision : Z;
  scanList : list Scan.t;
  currentScanIdx : Z;
  chromXRange : option (Qc * Qc);
  ctrlPressed : bool;
  normalizeSpectrum : bool;
  msXRange : option (Qc * Qc);
  ms2Data : option MS2Response.t;
  ms2XRange : option (Qc * Qc);
  ms2Loading : bool;
  showHelp : bool;
  integrationMode : bool;
  integratedArea : option jsval;
  integratedPoints : option Points.t
}.

Definition with_manualPath (v : string) (s : State) : State :=
  mkState v (selectedFile s) (targetMz s) (ppmTol s) (ticData s) (chromData s) (spectrumData s) (loading s) (error s) (plotRevision s) (scanList s) (currentScanIdx s) (chromXRange s) (ctrlPressed s) (normalizeSpectrum s) (msXRange s) (ms2Data s) (ms2XRange s) (ms2Loading s) (showHelp s) (integrationMode s) (integratedArea s) (integratedPoints s).

Definition with_selectedFile (v : string) (s : State) : State :=
  mkState (manualPath s) v (targetMz s) (ppmTol s) (ticData s) (chromData s) (spectrumData s) (loading s) (error s) (plotRevision s) (scanList s) (currentScanIdx s) (chromXRange s) (ctrlPressed s) (normalizeSpectrum s) (msXRange s) (ms2Data s) (ms2XRange s) (ms2Loading s) (showHelp s) (integrationMode s) (integratedArea s) (integratedPoints s).

Definition with_ticData (v : option XY.t) (s : State) : State :=
  mkState (manualPath s) (selectedFile s) (targetMz s) (ppmTol s) v (chromData s) (spectrumData s) (loading s) (error s) (plotRevision s) (scanList s) (currentScanIdx s) (chromXRange s) (ctrlPressed s) (normalizeSpectrum s) (msXRange s) (ms2Data s) (ms2XRange s) (ms2Loading s) (showHelp s) (integrationMode s) (integratedArea s) (integratedPoints s).

Definition with_chromData (v : option XY.t) (s : State) : State :=
  mkState (manualPath s) (selectedFile s) (targetMz s) (ppmTol s) (ticData s) v (spectrumData s) (loading s) (error s) (plotRevision s) (scanList s) (currentScanIdx s) (chromXRange s) (ctrlPressed s) (normalizeSpectrum s) (msXRange s) (ms2Data s) (ms2XRange s) (ms2Loading s) (showHelp s) (integrationMode s) (integratedArea s) (integratedPoints s).

Definition with_spectrumData (v : option SpectrumResponse.t) (s : State) : State :=
  mkState (manualPath s) (selectedFile s) (targetMz s) (ppmTol s) (ticData s) (chromData s) v (loading s) (error s) (plotRevision s) (scanList s) (currentScanIdx s) (chromXRange s) (ctrlPressed s) (normalizeSpectrum s) (msXRange s) (ms2Data s) (ms2XRange s) (ms2Loading s) (showHelp s) (integrationMode s) (integratedArea s) (integratedPoints s).

Definition with_loading (v : bool) (s : State) : State :=
  mkState (manualPath s) (selectedFile s) (targetMz s) (ppmTol s) (ticData s) (chromData s) (spectrumData s) v (error s) (plotRevision s) (scanList s) (currentScanIdx s) (chromXRange s) (ctrlPressed s) (normalizeSpectrum s) (msXRange s) (ms2Data s) (ms2XRange s) (ms2Loading s) (showHelp s) (integrationMode s) (integratedArea s) (integratedPoints s).

Definition with_error (v : option string) (s : State) : State :=
  mkState (manualPath s) (selectedFile s) (targetMz s) (ppmTol s) (ticData s) (chromData s) (spectrumData s) (loading s) v (plotRevision s) (scanList s) (currentScanIdx s) (chromXRange s) (ctrlPressed s) (normalizeSpectrum s) (msXRange s) (ms2Data s) (ms2XRange s) (ms2Loading s) (showHelp s) (integrationMode s) (integratedArea s) (integratedPoints s).

Definition with_plotRevision (v : Z) (s : State) : State :=
  mkState (manualPath s) (selectedFile s) (targetMz s) (ppmTol s) (ticData s) (chromData s) (spectrumData s) (loading s) (error s) v (scanList s) (currentScanIdx s) (chromXRange s) (ctrlPressed s) (normalizeSpectrum s) (msXRange s) (ms2Data s) (ms2XRange s) (ms2Loading s) (showHelp s) (integrationMode s) (integratedArea s) (integratedPoints s).

Definition with_scanList (v : list Scan.t) (s : State) : State :=
  mkState (manualPath s) (selectedFile s) (targetMz s) (ppmTol s) (ticData s) (chromData s) (spectrumData s) (loading s) (error s) (plotRevision s) v (currentScanIdx s) (chromXRange s) (ctrlPressed s) (normalizeSpectrum s) (msXRange s) (ms2Data s) (ms2XRange s) (ms2Loading s) (showHelp s) (integrationMode s) (integratedArea s) (integratedPoints s).

Definition with_currentScanIdx (v : Z) (s : State) : State :=
  mkState (manualPath s) (selectedFile s) (targetMz s) (ppmTol s) (ticData s) (chromData s) (spectrumData s) (loading s) (error s) (plotRevision s) (scanList s) v (chromXRange s) (ctrlPressed s) (normalizeSpectrum s) (msXRange s) (ms2Data s) (ms2XRange s) (ms2Loading s) (showHelp s) (integrationMode s) (integratedArea s) (integratedPoints s).

Definition with_chromXRange (v : option (Qc * Qc)) (s : State) : State :=
  mkState (manualPath s) (selectedFile s) (targetMz s) (ppmTol s) (ticData s) (chromData s) (spectrumData s) (loading s) (error s) (plotRevision s) (scanList s) (currentScanIdx s) v (ctrlPressed s) (normalizeSpectrum s) (msXRange s) (ms2Data s) (ms2XRange s) (ms2Loading s) (showHelp s) (integrationMode s) (integratedArea s) (integratedPoints s).

Definition with_ctrlPressed (v : bool) (s : State) : State :=
  mkState (manualPath s) (selectedFile s) (targetMz s) (ppmTol s) (ticData s) (chromData s) (spectrumData s) (loading s) (error s) (plotRevision s) (scanList s) (currentScanIdx s) (chromXRange s) v (normalizeSpectrum s) (msXRange s) (ms2Data s) (ms2XRange s) (ms2Loading s) (showHelp s) (integrationMode s) (integratedArea s) (integratedPoints s).

Definition with_msXRange (v : option (Qc * Qc)) (s : State) : State :=
  mkState (manualPath s) (selectedFile s) (targetMz s) (ppmTol s) (ticData s) (chromData s) (spectrumData s) (loading s) (error s) (plotRevision s) (scanList s) (currentScanIdx s) (chromXRange s) (ctrlPressed s) (normalizeSpectrum s) v (ms2Data s) (ms2XRange s) (ms2Loading s) (showHelp s) (integrationMode s) (integratedArea s) (integratedPoints s).

Definition with_ms2Data (v : option MS2Response.t) (s : State) : State :=
  mkState (manualPath s) (selectedFile s) (targetMz s) (ppmTol s) (ticData s) (chromData s) (spectrumData s) (loading s) (error s) (plotRevision s) (scanList s) (currentScanIdx s) (chromXRange s) (ctrlPressed s) (normalizeSpectrum s) (msXRange s) v (ms2XRange s) (ms2Loading s) (showHelp s) (integrationMode s) (integratedArea s) (integratedPoints s).

Definition with_ms2XRange (v : option (Qc * Qc)) (s : State) : State :=
  mkState (manualPath s) (selectedFile s) (targetMz s) (ppmTol s) (ticData s) (chromData s) (spectrumData s) (loading s) (error s) (plotRevision s) (scanList s) (currentScanIdx s) (chromXRange s) (ctrlPressed s) (normalizeSpectrum s) (msXRange s) (ms2Data s) v (ms2Loading s) (showHelp s) (integrationMode s) (integratedArea s) (integratedPoints s).

Definition with_ms2Loading (v : bool) (s : State) : State :=
  mkState (manualPath s) (selectedFile s) (targetMz s) (ppmTol s) (ticData s) (chromData s) (spectrumData s) (loading s) (error s) (plotRevision s) (scanList s) (currentScanIdx s) (chromXRange s) (ctrlPressed s) (normalizeSpectrum s) (msXRange s) (ms2Data s) (ms2XRange s) v (showHelp s) (integrationMode s) (integratedArea s) (integratedPoints s).

Definition with_integrationMode (v : bool) (s : State) : State :=
  mkState (manualPath s) (selectedFile s) (targetMz s) (ppmTol s) (ticData s) (chromData s) (spectrumData s) (loading s) (error s) (plotRevision s) (scanList s) (currentScanIdx s) (chromXRange s) (ctrlPressed s) (normalizeSpectrum s) (msXRange s) (ms2Data s) (ms2XRange s) (ms2Loading s) (showHelp s) v (integratedArea s) (integratedPoints s).

Definition with_integratedArea (v : option jsval) (s : State) : State :=
  mkState (manualPath s) (selectedFile s) (targetMz s) (ppmTol s) (ticData s) (chromData s) (spectrumData s) (loading s) (error s) (plotRevision s) (scanList s) (currentScanIdx s) (chromXRange s) (ctrlPressed s) (normalizeSpectrum s) (msXRange s) (ms2Data s) (ms2XRange s) (ms2Loading s) (showHelp s) (integrationMode s) v (integratedPoints s).

Definition with_integratedPoints (v : option Points.t) (s : State) : State :=
  mkState (manualPath s) (selectedFile s) (targetMz s) (ppmTol s) (ticData s) (chromData s) (spectrumData s) (loading s) (error s) (plotRevision s) (scanList s) (currentScanIdx s) (chromXRange s) (ctrlPressed s) (normalizeSpectrum s) (msXRange s) (ms2Data s) (ms2XRange s) (ms2Loading s) (showHelp s) (integrationMode s) (integratedArea s) v.

(** [useState] initial values. *)
Definition initialState : State :=
  mkState "" "" (num 150) (num 200) None None None false None 0%Z [] (-1)%Z
          None false false None None None false false false None None.

(** ** Pure helpers *)

(** [for (let i = 0; i < n; i++) body], threading the variables the body
    assigns. *)
Definition for_loop {S : Type} (n : Z) (body : Z -> S -> S) (init : S) : S :=
  fold_left (fun s i => body (Z.of_nat i) s) (seq 0 (Z.to_nat n)) init.

(** [arr.reduce((prev, curr, idx) => f, init)] for a callback that may
    throw ([None]). *)
Fixpoint reduce_from {A B : Type} (f : B -> A -> Z -> option B)
         (idx : Z) (prev : B) (arr : list A) : option B :=
  match arr with
  | [] => Some prev
  | curr :: rest =>
      match f prev curr idx with
      | Some next => reduce_from f (idx + 1) next rest
      | None => None
      end
  end.

Definition reduce {A B : Type} (f : B -> A -> Z -> option B)
           (init : B) (arr : list A) : option B :=
  reduce_from f 0 init arr.

(** The closest-scan resolution of [fetchSpectrum]:
[[
  scanList.reduce((prev, curr, idx) =>
    (Math.abs(curr.rt - data.rt) < Math.abs(scanList[prev].rt - data.rt)
       ? idx : prev), 0)
]]
    [scanList[prev].rt] throws a [TypeError] when [scanList[prev]] is
    [undefined]; that is the [None] of the callback. *)
Definition closestIdx (scanList : list Scan.t) (data_rt : Qc) : option Z :=
  reduce
    (fun prev curr idx =>
       match index scanList prev with
       | Some best =>
           Some (if ltb (Qcabs (Scan.rt curr - data_rt))
                        (Qcabs (Scan.rt best - data_rt))
                 then idx else prev)
       | None => None
       end)
    0%Z scanList.

(** [highlightMzs.some(m => Math.abs(m - mz) < 0.1)] *)
Definition isHighlighted (highlightMzs : list Qc) (mz : Qc) : bool :=
  existsb (fun m => ltb (Qcabs (m - mz)) (Q2Qc (1 # 10))) highlightMzs.

Module Sticks.
Record t : Type := mk {
  x : list jsval; y : list jsval; hx : list jsval; hy : list jsval }.
End Sticks.

Definition cell (arr : list Qc) (i : Z) : jsval :=
  match index arr i with
  | Some v => Num v
  | None => Undefined
  end.

Definition getStickData (mzs ints highlightMzs : list Qc) : Sticks.t :=
  for_loop (length_Z mzs)
    (fun i acc =>
       match index mzs i with
       | Some mz =>
           let intensity := cell ints i in
           if isHighlighted highlightMzs mz
           then Sticks.mk (Sticks.x acc) (Sticks.y acc)
                  (Sticks.hx acc ++ [Num mz; Num mz; Null])
                  (Sticks.hy acc ++ [Num 0; intensity; Null])
           else Sticks.mk
                  (Sticks.x acc ++ [Num mz; Num mz; Null])
                  (Sticks.y acc ++ [Num 0; intensity; Null])
                  (Sticks.hx acc) (Sticks.hy acc)
       | None => acc (* not reached: i < mzs.length *)
       end)
    (Sticks.mk [] [] [] []).

(** [Math.min(...xs)] and [Math.max(...xs)] for a non-empty [xs]. *)
Definition Math_min (a b : Qc) : Qc := if ltb b a then b else a.
Definition Math_max (a b : Qc) : Qc := if ltb a b then b else a.
Definition min_of (p : Qc) (ps : list Qc) : Qc := fold_left Math_min ps p.
Definition max_of (p : Qc) (ps : list Qc) : Qc := fold_left Math_max ps p.

(** The selection event plotly hands to [onSelected]: [points] with the [x]
    of each point, and [range] with its [x] pair, each possibly missing. *)
Module SelectEvent.
Record t : Type := mk {
  points : option (list Qc);
  range : option (option (Qc * Qc)) }.
End SelectEvent.

(** [event.range?.x || (event.points && event.points.length > 0
      ? [Math.min(...), Math.max(...)] : null)] *)
Definition rangeX (event : SelectEvent.t) : option (Qc * Qc) :=
  match SelectEvent.range event with
  | Some (Some r) => Some r
  | _ =>
      match SelectEvent.points event with
      | Some (p :: ps) => Some (min_of p ps, max_of p ps)
      | _ => None
      end
  end.

(** The [forEach] of [calculateIntegration] over [activeChromData.x]. *)
Definition select (minX maxX : Qc) (chrom : XY.t) : list Qc * list jsval :=
  for_loop (length_Z (XY.x chrom))
    (fun i sel =>
       match index (XY.x chrom) i with
       | Some rtSec =>
           let rtMin := rtSec / num 60 in
           if leb minX rtMin && leb rtMin maxX
           then (fst sel ++ [rtMin], snd sel ++ [cell (XY.y chrom) i])
           else sel
       | None => sel (* not reached: forEach visits existing elements *)
       end)
    ([], []).

Definition at_ (arr : list jsval) (i : Z) : jsval :=
  match index arr i with
  | Some v => v
  | None => Undefined
  end.

(** The body of the area loop of [calculateIntegration]. *)
Definition area_step (selectedX : list Qc) (selectedY : list jsval)
           (i : Z) (area : jsval) : jsval :=
  let x1 := jsmul (cell selectedX i) (Num (num 60)) in
  let x2 := jsmul (cell selectedX (i + 1)) (Num (num 60)) in
  let y1 := at_ selectedY i in
  let y2 := at_ selectedY (i + 1) in
  jsadd area (jsmul (jsdiv_const (jsadd y1 y2) (num 2)) (jssub x2 x1)).

(** [let area = 0; for (let i = 0; i < selectedX.length - 1; i++) ...] *)
Definition area_loop (selectedX : list Qc) (selectedY : list jsval) : jsval :=
  for_loop (length_Z selectedX - 1) (area_step selectedX selectedY) (Num 0).

(** [chromData || ticData] *)
Definition activeChromData (s : State) : option XY.t :=
  match chromData s with
  | Some c => Some c
  | None => ticData s
  end.

(** ** The backend and asynchronous tasks *)

Module UploadResponse.
Record t : Type := mk { filepath : string }.
End UploadResponse.

Module DemoResponse.
Record t : Type := mk { path : string }.
End DemoResponse.

(** The requests [App] sends with [fetch], indexed by the type of the JSON
    body a successful answer carries. *)
Inductive Request : Type -> Type :=
| Upload (file : string) : Request UploadResponse.t
| GetDemoPath : Request DemoResponse.t
| GetTic (filepath : string) : Request ChromatogramResponse.t
| GetScanList (filepath : string) : Request (list Scan.t)
| ExtractChromatogram (filepath : string) (min_mz max_mz : Qc)
  : Request ChromatogramResponse.t
| GetSpectrum (filepath : string) (rt : Qc) : Request SpectrumResponse.t
| GetMs2Spectrum (filepath : string) (precursor_mz rt : Qc)
  : Request MS2Response.t.

(** The body of a non-2xx answer, as [response.json()] sees it. *)
Inductive ErrorBody : Type :=
| Unparsable (message : string)
| Detail (detail : option string).

(** How [await fetch(...)] followed by [await response.json()] can end: the
    request is rejected, the answer is not [ok], or it is [ok] with a body
    that parses or does not.  No state is written between the two awaits, so
    they are one suspension point here. *)
Inductive FetchResult (A : Type) : Type :=
| Rejected (message : string)
| NotOk (body : ErrorBody)
| Ok (data : A)
| OkUnparsable (message : string).

Arguments Rejected {A} message.
Arguments NotOk {A} body.
Arguments Ok {A} data.
Arguments OkUnparsable {A} message.

(** What a handler does besides awaiting: a state setter, the console, the
    scan table's scrolling. *)
Inductive Effect : Type :=
| SetState (f : State -> State)
| ConsoleError (message : string)
| ConsoleLog (message : string)
| ScrollIntoView (row : Z)
| SetTimeoutScroll (row : Z)
| PreventDefault.

(** A handler body.  [Call t k] is [t(); k]: an [async] function called and
    not awaited.  [Throw] is a thrown [Error] with its message. *)
Inductive Task : Type :=
| Done
| Throw (message : string)
| Do (e : Effect) (k : Task)
| Await {A : Type} (r : Request A) (k : FetchResult A -> Task)
| Call (t : Task) (k : Task).

Notation "e ;; k" := (Do e k) (at level 61, right associativity).

(** [await t; k] for an [async] function body [t]: [k] runs when [t] has run
    to its end, and an error thrown by [t] is thrown on.  The same serves
    for [t; k] when [t] is a statement of the handler itself. *)
Fixpoint await (t k : Task) : Task :=
  match t with
  | Done => k
  | Throw m => Throw m
  | Do e t' => Do e (await t' k)
  | Await r c => Await r (fun res => await (c res) k)
  | Call t' t'' => Call t' (await t'' k)
  end.

(** [try { t } catch (err) { handler err.message }] *)
Fixpoint try_catch (t : Task) (handler : string -> Task) : Task :=
  match t with
  | Done => Done
  | Throw m => handler m
  | Do e t' => Do e (try_catch t' handler)
  | Await r c => Await r (fun res => try_catch (c res) handler)
  | Call t' t'' => Call t' (try_catch t'' handler)
  end.

(** [try { t } finally { fin }] *)
Fixpoint finally (t fin : Task) : Task :=
  match t with
  | Done => fin
  | Throw m => await fin (Throw m)
  | Do e t' => Do e (finally t' fin)
  | Await r c => Await r (fun res => finally (c res) fin)
  | Call t' t'' => Call t' (finally t'' fin)
  end.

Definition try_catch_finally (t : Task) (handler : string -> Task)
           (fin : Task) : Task :=
  finally (try_catch t handler) fin.

(** *** The event loop *)

Inductive AnyRequest : Type :=
| Any {A : Type} (r : Request A).

(** A request in flight with the rest of the task that awaits it. *)
Inductive Pending : Type :=
| Pend {A : Type} (r : Request A) (k : FetchResult A -> Task).

Definition request_of (p : Pending) : AnyRequest :=
  match p with Pend r _ => Any r end.

(** What the outside sees, in order.  [Issued] keeps the state variables as
    they stand when the request leaves. *)
Inductive Obs : Type :=
| Issued (r : AnyRequest) (at_state : State)
| Completed (r : AnyRequest)
| Console_error (message : string)
| Console_log (message : string)
| Scrolled (row : Z)
| ScrollScheduled (row : Z)
| DefaultPrevented
| Unhandled (message : string).

Record Config : Type := mkConfig {
  state : State;
  inflight : list Pending;
  log : list Obs
}.

Definition idle (s : State) : Config := mkConfig s [] [].

Definition emit (o : Obs) (c : Config) : Config :=
  mkConfig (state c) (inflight c) (log c ++ [o]).

Definition perform (e : Effect) (c : Config) : Config :=
  match e with
  | SetState f => mkConfig (f (state c)) (inflight c) (log c)
  | ConsoleError m => emit (Console_error m) c
  | ConsoleLog m => emit (Console_log m) c
  | ScrollIntoView row => emit (Scrolled row) c
  | SetTimeoutScroll row => emit (ScrollScheduled row) c
  | PreventDefault => emit DefaultPrevented c
  end.

(** Run a task until it finishes or suspends on a request.  A call that is
    not awaited runs up to its own first suspension, then the caller goes
    on. *)
Fixpoint start (t : Task) (c : Config) : Config :=
  match t with
  | Done => c
  | Throw m => emit (Unhandled m) c
  | Do e k => start k (perform e c)
  | Await r k =>
      mkConfig (state c) (inflight c ++ [Pend r k])
               (log c ++ [Issued (Any r) (state c)])
  | Call t' k => start k (start t' c)
  end.

(** The backend: an answer for every request. *)
Definition Server : Type := forall A : Type, Request A -> FetchResult A.

Fixpoint remove_nth {A : Type} (n : nat) (l : list A) : list A :=
  match n, l with
  | _, [] => []
  | O, _ :: tl => tl
  | S n', hd :: tl => hd :: remove_nth n' tl
  end.

(** The [n]-th request in flight is answered and the task awaiting it
    resumes. *)
Definition deliver (n : nat) (srv : Server) (c : Config) : option Config :=
  match nth_error (inflight c) n with
  | Some (Pend r k) =>
      Some (start (k (srv _ r))
                  (mkConfig (state c) (remove_nth n (inflight c))
                            (log c ++ [Completed (Any r)])))
  | None => None
  end.

(** ** The handlers of [App]

    A handler is a closure of the render it was created in: it reads the
    state variables of that render ([env]) for as long as it runs, also
    after an [await], while its setters write the live state. *)

Definition setSelectedFile v := SetState (with_selectedFile v).
Definition setTicData v := SetState (with_ticData v).
Definition setChromData v := SetState (with_chromData v).
Definition setSpectrumData v := SetState (with_spectrumData v).
Definition setLoading v := SetState (with_loading v).
Definition setError v := SetState (with_error v).
Definition setScanList v := SetState (with_scanList v).
Definition setCurrentScanIdx v := SetState (with_currentScanIdx v).
Definition setChromXRange v := SetState (with_chromXRange v).
Definition setCtrlPressed v := SetState (with_ctrlPressed v).
Definition setMsXRange v := SetState (with_msXRange v).
Definition setMs2Data v := SetState (with_ms2Data v).
Definition setMs2XRange v := SetState (with_ms2XRange v).
Definition setMs2Loading v := SetState (with_ms2Loading v).
Definition setIntegratedArea v := SetState (with_integratedArea v).
Definition setIntegratedPoints v := SetState (with_integratedPoints v).

(** [setPlotRevision(prev => prev + 1)] *)
Definition bumpPlotRevision : Effect :=
  SetState (fun s => with_plotRevision (plotRevision s + 1)%Z s).

Definition fetchScanList (filepath : string) : Task :=
  setLoading true ;;
  try_catch_finally
    (Await (GetScanList filepath) (fun response =>
       match response with
       | Rejected m => Throw m
       | NotOk _ => Throw "Failed to get scan list"
       | OkUnparsable m => Throw m
       | Ok data => setScanList data ;; Done
       end))
    (fun err => ConsoleError err ;; Done)
    (setLoading false ;; Done).

Definition fetchTic (filepath : string) : Task :=
  setLoading true ;;
  setChromXRange None ;;
  try_catch_finally
    (Await (GetTic filepath) (fun response =>
       match response with
       | Rejected m => Throw m
       | NotOk (Unparsable _) => Throw "Failed to get TIC"
       | NotOk (Detail d) => Throw (or_default d "Failed to get TIC")
       | OkUnparsable m => Throw m
       | Ok data =>
           setTicData (Some (XY.mk (ChromatogramResponse.rts data)
                                   (ChromatogramResponse.ints data))) ;;
           bumpPlotRevision ;;
           Done
       end))
    (fun err => setError (Some err) ;; Done)
    (setLoading false ;; Done).

(** [file] is [event.target.files?.[0]]. *)
Definition handleFileUpload (file : option string) : Task :=
  match file with
  | None => Done
  | Some file =>
      setSelectedFile "" ;;
      setTicData None ;; setChromData None ;; setSpectrumData None ;;
      setScanList [] ;; setCurrentScanIdx (-1)%Z ;;
      setLoading true ;; setError None ;;
      try_catch_finally
        (Await (Upload file) (fun response =>
           match response with
           | Rejected m => Throw m
           | NotOk (Unparsable m) => Throw m
           | NotOk (Detail d) => Throw (or_default d "Upload failed.")
           | OkUnparsable m => Throw m
           | Ok data =>
               setSelectedFile (UploadResponse.filepath data) ;;
               await (fetchTic (UploadResponse.filepath data))
                 (await (fetchScanList (UploadResponse.filepath data)) Done)
           end))
        (fun err => setError (Some ("Upload Error: " ++ err)%string) ;; Done)
        (setLoading false ;; Done)
  end.

Definition loadDemoData : Task :=
  setLoading true ;; setError None ;;
  try_catch_finally
    (Await GetDemoPath (fun response =>
       match response with
       | Rejected m => Throw m
       | NotOk _ => Throw "Demo file not available."
       | OkUnparsable m => Throw m
       | Ok data =>
           setSelectedFile (DemoResponse.path data) ;;
           setTicData None ;; setChromData None ;; setSpectrumData None ;;
           setScanList [] ;; setCurrentScanIdx (-1)%Z ;;
           Call (fetchTic (DemoResponse.path data))
             (Call (fetchScanList (DemoResponse.path data)) Done)
       end))
    (fun err => setError (Some err) ;; Done)
    (setLoading false ;; Done).

Definition handleManualPathSubmit (env : State) : Task :=
  PreventDefault ;;
  if falsy (manualPath env) then Done
  else
    setSelectedFile (manualPath env) ;;
    Call (fetchTic (manualPath env))
      (Call (fetchScanList (manualPath env)) Done).

Definition fetchSpectrum (env : State) (rt_sec : Qc) : Task :=
  if falsy (selectedFile env) then Done
  else
    setLoading true ;;
    try_catch_finally
      (Await (GetSpectrum (selectedFile env) rt_sec) (fun response =>
         match response with
         | Rejected m => Throw m
         | NotOk _ => Throw "Failed to fetch spectrum"
         | OkUnparsable m => Throw m
         | Ok data =>
             setSpectrumData (Some data) ;;
             setMs2Data None ;;
             setMsXRange None ;;
             if (length_Z (scanList env) >? 0)%Z
             then
               match closestIdx (scanList env) (SpectrumResponse.rt data) with
               | Some closest =>
                   setCurrentScanIdx closest ;;
                   SetTimeoutScroll closest ;;
                   Done
               | None => Throw "TypeError: scanList[prev] is undefined"
               end
             else Done
         end))
      (fun err => setError (Some err) ;; Done)
      (setLoading false ;; Done).

Definition updateSpectrumByIndex (env : State) (idx : Z) : Task :=
  if (idx <? 0)%Z || (idx >=? length_Z (scanList env))%Z then Done
  else
    setCurrentScanIdx idx ;;
    match index (scanList env) idx with
    | Some scan =>
        Call (fetchSpectrum env (Scan.rt scan))
          (ScrollIntoView idx ;; Done)
    | None => Throw "TypeError: scanList[idx] is undefined"
    end.

(** [e.key] *)
Definition handleKeyDown (env : State) (key : string) : Task :=
  await
    (if (key =? "Control")%string || (key =? "Meta")%string
     then setCtrlPressed true ;; Done else Done)
    (if (length_Z (scanList env) =? 0)%Z then Done
     else if (key =? "ArrowRight")%string then
       let nextIdx :=
         Z.min (length_Z (scanList env) - 1) (currentScanIdx env + 1) in
       if negb (nextIdx =? currentScanIdx env)%Z
       then updateSpectrumByIndex env nextIdx else Done
     else if (key =? "ArrowLeft")%string then
       let prevIdx := Z.max 0 (currentScanIdx env - 1) in
       if negb (prevIdx =? currentScanIdx env)%Z
       then updateSpectrumByIndex env prevIdx else Done
     else Done).

(** The click plotly reports on the chromatogram: the [x] of each point hit
    ([None] when [undefined] or [null]), and the value the pixel-to-data
    fallback [xaxis.p2c(xPixel)] gives when the plot's layout is reachable
    from [event.event.target]. *)
Module PlotClick.
Record t : Type := mk {
  points : option (list (option Qc));
  p2c : option Qc }.
End PlotClick.

(** The [for (const p of event.points)] that stops at the first [p.x]. *)
Fixpoint first_x (points : list (option Qc)) : option Qc :=
  match points with
  | [] => None
  | Some x :: _ => Some x
  | None :: rest => first_x rest
  end.

Definition handlePlotClick (env : State) (event : PlotClick.t) : Task :=
  if falsy (selectedFile env) then Done
  else
    let rt_min :=
      match PlotClick.points event with
      | Some points => first_x points
      | None => None
      end in
    let rt_min :=
      match rt_min with
      | Some x => Some x
      | None => PlotClick.p2c event
      end in
    match rt_min with
    | None => Done
    | Some rt_min =>
        if ltb rt_min 0 then Done
        else Call (fetchSpectrum env (rt_min * num 60)) Done
    end.

Definition fetchMs2Spectrum (env : State) (precursor rt_sec : Qc) : Task :=
  if falsy (selectedFile env) then Done
  else
    setMs2Loading true ;;
    try_catch_finally
      (Await (GetMs2Spectrum (selectedFile env) precursor rt_sec)
         (fun response =>
            match response with
            | Rejected m => Throw m
            | NotOk _ => Done
            | OkUnparsable m => Throw m
            | Ok data => setMs2Data (Some data) ;; setMs2XRange None ;; Done
            end))
      (fun err => ConsoleError err ;; Done)
      (setMs2Loading false ;; Done).

Definition calculateIntegration (env : State) (event : option SelectEvent.t)
  : Task :=
  match event with
  | None => Done
  | Some event =>
      match SelectEvent.points event, SelectEvent.range event with
      | None, None => Done
      | _, _ =>
          let (selectedX, selectedY) :=
            match rangeX event, activeChromData env with
            | Some (minX, maxX), Some chrom => select minX maxX chrom
            | _, _ => ([], [])
            end in
          if (length_Z selectedX <? 2)%Z then Done
          else
            let area := area_loop selectedX selectedY in
            setIntegratedArea (Some area) ;;
            setIntegratedPoints (Some (Points.mk selectedX selectedY)) ;;
            Done
      end
  end.

(** The earlier revision of [App], with the server-side file browser.  Its
    [fetchScanList] does not touch [loading] and its [fetchTic] does not
    read the error body; the other handlers are those above. *)
Module Browser.

Definition fetchScanList (filepath : string) : Task :=
  try_catch
    (Await (GetScanList filepath) (fun response =>
       match response with
       | Rejected m => Throw m
       | NotOk _ => Throw "Failed to get scan list"
       | OkUnparsable m => Throw m
       | Ok data => setScanList data ;; Done
       end))
    (fun err => ConsoleError err ;; Done).

Definition fetchTic (filepath : string) : Task :=
  setLoading true ;;
  setChromXRange None ;;
  try_catch_finally
    (Await (GetTic filepath) (fun response =>
       match response with
       | Rejected m => Throw m
       | NotOk _ => Throw "Failed to get TIC"
       | OkUnparsable m => Throw m
       | Ok data =>
           setTicData (Some (XY.mk (ChromatogramResponse.rts data)
                                   (ChromatogramResponse.ints data))) ;;
           bumpPlotRevision ;;
           Done
       end))
    (fun err => setError (Some err) ;; Done)
    (setLoading false ;; Done).

(** [currentPath] is the directory the browser shows. *)
Definition handleFileSelect (currentPath fileName : string) : Task :=
  let fullPath :=
    (if currentPath =? "/" then "/" ++ fileName
     else currentPath ++ "/" ++ fileName)%string in
  setSelectedFile fullPath ;;
  setChromData None ;; setSpectrumData None ;;
  setScanList [] ;; setCurrentScanIdx (-1)%Z ;;
  Call (fetchTic fullPath) (Call (fetchScanList fullPath) Done).

End Browser.

(** ** Vocabulary of the properties *)

(** [Math.abs(scan.rt - target)] *)
Definition distance (target : Qc) (scan : Scan.t) : Qc :=
  Qcabs (Scan.rt scan - target).

(** [prev] is the first scan at minimal distance from [target] among the
    scans before [idx]. *)
Definition first_closest_before (scanList : list Scan.t) (target : Qc)
           (idx prev : Z) : Prop :=
  exists best,
    index scanList prev = Some best /\
    (forall j s, (j < idx)%Z -> index scanList j = Some s ->
                 distance target best <= distance target s) /\
    (forall j s, (j < prev)%Z -> index scanList j = Some s ->
                 distance target best < distance target s).

(** A scan summary with the given index and retention time, for examples. *)
Definition scan_at (id : Z) (rt : Z) : Scan.t :=
  Scan.mk id (num rt) (num 1000) (num 100) (num 50).

(** A loop over the elements of an array with their indices, from index
    [i] on. *)
Fixpoint foldi {A S : Type} (g : Z -> A -> S -> S) (i : Z) (arr : list A)
         (s : S) : S :=
  match arr with
  | [] => s
  | v :: rest => foldi g (i + 1) rest (g i v s)
  end.

(** The three samples a peak contributes to the x and to the y sequence of
    its channel. *)
Definition stick_x (peak : Qc * Qc) : list jsval :=
  [Num (fst peak); Num (fst peak); Null].

Definition stick_y (peak : Qc * Qc) : list jsval :=
  [Num 0; Num (snd peak); Null].

(** The peaks of a spectrum, and those of one channel, in input order. *)
Definition peaks (mzs ints : list Qc) : list (Qc * Qc) := combine mzs ints.

Definition highlighted_peaks (highlightMzs : list Qc)
           (ps : list (Qc * Qc)) : list (Qc * Qc) :=
  filter (fun p => isHighlighted highlightMzs (fst p)) ps.

Definition normal_peaks (highlightMzs : list Qc)
           (ps : list (Qc * Qc)) : list (Qc * Qc) :=
  filter (fun p => negb (isHighlighted highlightMzs (fst p))) ps.

(** A sample at [rtSec] seconds lies in the window, given in minutes. *)
Definition in_window (minX maxX rtSec : Qc) : bool :=
  leb minX (rtSec / num 60) && leb (rtSec / num 60) maxX.

(** The samples of a chromatogram inside the window, as (minutes,
    intensity) pairs in their original order. *)
Definition qualifying (minX maxX : Qc) (chrom : XY.t) : list (Qc * Qc) :=
  map (fun p => (fst p / num 60, snd p))
      (filter (fun p => in_window minX maxX (fst p))
              (combine (XY.x chrom) (XY.y chrom))).

(** The composite trapezoidal sum over consecutive samples given as
    (minutes, intensity), with x converted back to seconds. *)
Fixpoint trapezoid (samples : list (Qc * Qc)) : Qc :=
  match samples with
  | p1 :: (p2 :: _) as rest =>
      (snd p1 + snd p2) / num 2 * (fst p2 * num 60 - fst p1 * num 60)
      + trapezoid rest
  | _ => 0
  end.

(** The linear ramp (0 s, 0), (60 s, 10), (120 s, 0). *)
Definition ramp : XY.t := XY.mk [num 0; num 60; num 120] [num 0; num 10; num 0].

(** A box selection over the window [minX, maxX], in minutes. *)
Definition box (minX maxX : Z) : SelectEvent.t :=
  SelectEvent.mk None (Some (Some (num minX, num maxX))).

(** Run a handler from a configuration up to its first suspension, then
    answer the request it has just issued. *)
Definition answered (t : Task) (srv : Server) (c : Config) : option Config :=
  deliver (List.length (inflight c)) srv (start t c).

(** The requests in flight. *)
Definition requests (c : Config) : list AnyRequest :=
  map request_of (inflight c).

(** The kind of a request. *)
Definition is_GetTic (r : AnyRequest) : bool :=
  match r with Any (GetTic _) => true | _ => false end.

Definition is_GetScanList (r : AnyRequest) : bool :=
  match r with Any (GetScanList _) => true | _ => false end.

(** A backend that answers every request the same way. *)
Definition always_rejected (message : string) : Server :=
  fun _ _ => Rejected message.

Definition always_not_ok : Server :=
  fun _ _ => NotOk (Detail None).

(** A state with a file selected, two scans, and the MS1 spectrum of the
    first scan on display together with an MS2 spectrum and zoomed panes. *)
Definition spectrum_at (rt : Z) : SpectrumResponse.t :=
  SpectrumResponse.mk [num 100; num 200] [num 5; num 8] (num rt)
                      (Some [num 200]%list).

Definition fragment_at (rt : Z) : MS2Response.t :=
  MS2Response.mk [num 50; num 120] [num 3; num 4] (num rt) (num 200).

Definition exploring : State :=
  mkState "" "run.mzML" (num 150) (num 200)
          (Some ramp) (Some ramp) (Some (spectrum_at 10))
          false None 1%Z [scan_at 0 10; scan_at 1 20] 0%Z
          (Some (num 0, num 1)) false false (Some (num 90, num 210))
          (Some (fragment_at 10)) (Some (num 40, num 130)) false
          false false None None.

(** The state a successful spectrum fetch leaves, given what its closest-scan
    resolution returned ([None] when the scan list of the handler is
    empty and the index is not touched). *)
Definition spectrum_shown (data : SpectrumResponse.t) (closest : option Z)
           (s : State) : State :=
  let s := with_msXRange None
             (with_ms2Data None (with_spectrumData (Some data) s)) in
  with_loading false
    (match closest with
     | Some i => with_currentScanIdx i s
     | None => s
     end).

(** The state a failed spectrum fetch leaves. *)
Definition spectrum_failed (message : string) (s : State) : State :=
  with_loading false (with_error (Some message) s).

(** [currentScanIdx] is -1 or an index of [scanList]. *)
Definition index_in_range (s : State) : Prop :=
  (-1 <= currentScanIdx s <= length_Z (scanList s) - 1)%Z.

(** When a scan is current, it is the first scan closest to the retention
    time of the spectrum on display. *)
Definition index_tracks_spectrum (s : State) : Prop :=
  (0 <= currentScanIdx s)%Z ->
  exists spectrum,
    spectrumData s = Some spectrum /\
    closestIdx (scanList s) (SpectrumResponse.rt spectrum)
    = Some (currentScanIdx s).

(** The ways a spectrum is requested. *)
Inductive Path : Type :=
| ChromatogramClick (event : PlotClick.t)
| KeyboardStep (key : string)
| TableRowClick (idx : Z).

Definition spectrum_path (env : State) (p : Path) : Task :=
  match p with
  | ChromatogramClick event => handlePlotClick env event
  | KeyboardStep key => handleKeyDown env key
  | TableRowClick idx => updateSpectrumByIndex env idx
  end.

(** A backend that answers every request with success: a run of two scans
    at 10 s and 20 s, whose spectrum request returns the spectrum at the
    requested time. *)
Definition healthy : Server :=
  fun A r =>
    match r in Request T return FetchResult T with
    | Upload file => Ok (UploadResponse.mk file)
    | GetDemoPath => Ok (DemoResponse.mk "demo.mzML")
    | GetTic _ => Ok (ChromatogramResponse.mk (XY.x ramp) (XY.y ramp))
    | GetScanList _ => Ok [scan_at 0 10; scan_at 1 20]
    | ExtractChromatogram _ _ _ =>
        Ok (ChromatogramResponse.mk (XY.x ramp) (XY.y ramp))
    | GetSpectrum _ rt =>
        Ok (SpectrumResponse.mk [num 100; num 200] [num 5; num 8] rt
                                (Some [num 200]%list))
    | GetMs2Spectrum _ precursor rt =>
        Ok (MS2Response.mk [num 50; num 120] [num 3; num 4] rt precursor)
    end.

(** The configuration in which the task awaiting a spectrum resumes and
    ends, by the answer it receives. *)
Definition spectrum_answer (env : State) (res : FetchResult SpectrumResponse.t)
           (c : Config) : Config :=
  match res with
  | Rejected m | OkUnparsable m =>
      mkConfig (spectrum_failed m (state c)) (inflight c) (log c)
  | NotOk _ =>
      mkConfig (spectrum_failed "Failed to fetch spectrum" (state c))
               (inflight c) (log c)
  | Ok data =>
      if (length_Z (scanList env) >? 0)%Z
      then
        match closestIdx (scanList env) (SpectrumResponse.rt data) with
        | Some i =>
            mkConfig (spectrum_shown data (Some i) (state c))
                     (inflight c) (log c ++ [ScrollScheduled i])
        | None =>
            mkConfig
              (spectrum_failed "TypeError: scanList[prev] is undefined"
                 (spectrum_shown data None (state c)))
              (inflight c) (log c)
        end
      else
        mkConfig (spectrum_shown data None (state c)) (inflight c) (log c)
  end.

(** The shapes a spectrum-requesting handler takes once its guards are
    decided: nothing, or a call of [fetchSpectrum], after
    [setCurrentScanIdx] when it comes from a row of the scan table. *)
Inductive requests_spectrum (env : State) : Task -> Prop :=
| rs_nothing : requests_spectrum env Done
| rs_ctrl (t : Task) :
    requests_spectrum env t ->
    requests_spectrum env (setCtrlPressed true ;; t)
| rs_time (rt_sec : Qc) :
    requests_spectrum env (Call (fetchSpectrum env rt_sec) Done)
| rs_row (idx : Z) (scan : Scan.t) :
    index (scanList env) idx = Some scan ->
    requests_spectrum env
      (setCurrentScanIdx idx ;;
       Call (fetchSpectrum env (Scan.rt scan)) (ScrollIntoView idx ;; Done)).

(** What holds of the scan index along one spectrum request: it stays in
    range before and after the answer; a successful answer leaves the index
    tracking the spectrum it brought; a failed one leaves the spectrum on
    display and the index as the handler set it before the request. *)
Definition path_sound (env : State) (t : Task) (srv : Server) (c : Config)
  : Prop :=
  let c1 := start t c in
  scanList (state c1) = scanList (state c) /\
  spectrumData (state c1) = spectrumData (state c) /\
  index_in_range (state c1) /\
  (inflight c1 = inflight c \/
   exists rt_sec after,
     requests c1
     = requests c ++ [Any (GetSpectrum (selectedFile env) rt_sec)] /\
     deliver (List.length (inflight c)) srv c1 = Some after /\
     scanList (state after) = scanList (state c) /\
     index_in_range (state after) /\
     match srv _ (GetSpectrum (selectedFile env) rt_sec) with
     | Ok data =>
         spectrumData (state after) = Some data /\
         index_tracks_spectrum (state after)
     | _ =>
         spectrumData (state after) = spectrumData (state c) /\
         currentScanIdx (state after) = currentScanIdx (state c1)
     end).

(** The state in which the path field holds a typed path and nothing is
    loaded yet. *)
Definition path_typed (path : string) : State :=
  with_manualPath path initialState.

(** A first file is submitted by path; while its scan list is on its way a
    second file is picked for upload; then the scan list of the first file
    arrives. *)
Definition upload_overtaken : option Config :=
  deliver 1 healthy
    (start (handleFileUpload (Some "b.mzML"))
       (start (handleManualPathSubmit (path_typed "a.mzML"))
              (idle (path_typed "a.mzML")))).

(** What selecting a new file has done to the state by the time a request
    for its chromatogram or its scan list leaves: the extracted
    chromatogram, the MS1 spectrum and the scan list are cleared, no scan is
    current, and the chromatogram pane is unzoomed; the MS2 spectrum and the
    zoom windows of the MS1 and MS2 panes are as before. *)
Definition reset_for_new_file (before s : State) : Prop :=
  chromData s = None /\
  spectrumData s = None /\
  scanList s = [] /\
  currentScanIdx s = (-1)%Z /\
  chromXRange s = None /\
  ms2Data s = ms2Data before /\
  msXRange s = msXRange before /\
  ms2XRange s = ms2XRange before.


(** Every chromatogram or scan-list request among the observations left
    from a state that satisfies [P]. *)
Definition file_fetches_from (P : State -> Prop) (l : list Obs) : Prop :=
  forall r s,
    In (Issued r s) l ->
    is_GetTic r || is_GetScanList r = true ->
    P s.

(** ** The other handlers and helpers of [App] *)

Definition with_targetMz (v : Qc) (s : State) : State :=
  mkState (manualPath s) (selectedFile s) v (ppmTol s) (ticData s) (chromData s) (spectrumData s) (loading s) (error s) (plotRevision s) (scanList s) (currentScanIdx s) (chromXRange s) (ctrlPressed s) (normalizeSpectrum s) (msXRange s) (ms2Data s) (ms2XRange s) (ms2Loading s) (showHelp s) (integrationMode s) (integratedArea s) (integratedPoints s).

Definition with_ppmTol (v : Qc) (s : State) : State :=
  mkState (manualPath s) (selectedFile s) (targetMz s) v (ticData s) (chromData s) (spectrumData s) (loading s) (error s) (plotRevision s) (scanList s) (currentScanIdx s) (chromXRange s) (ctrlPressed s) (normalizeSpectrum s) (msXRange s) (ms2Data s) (ms2XRange s) (ms2Loading s) (showHelp s) (integrationMode s) (integratedArea s) (integratedPoints s).

Definition with_normalizeSpectrum (v : bool) (s : State) : State :=
  mkState (manualPath s) (selectedFile s) (targetMz s) (ppmTol s) (ticData s) (chromData s) (spectrumData s) (loading s) (error s) (plotRevision s) (scanList s) (currentScanIdx s) (chromXRange s) (ctrlPressed s) v (msXRange s) (ms2Data s) (ms2XRange s) (ms2Loading s) (showHelp s) (integrationMode s) (integratedArea s) (integratedPoints s).

Definition with_showHelp (v : bool) (s : State) : State :=
  mkState (manualPath s) (selectedFile s) (targetMz s) (ppmTol s) (ticData s) (chromData s) (spectrumData s) (loading s) (error s) (plotRevision s) (scanList s) (currentScanIdx s) (chromXRange s) (ctrlPressed s) (normalizeSpectrum s) (msXRange s) (ms2Data s) (ms2XRange s) (ms2Loading s) v (integrationMode s) (integratedArea s) (integratedPoints s).

Definition setManualPath v := SetState (with_manualPath v).
Definition setTargetMz v := SetState (with_targetMz v).
Definition setPpmTol v := SetState (with_ppmTol v).
Definition setNormalizeSpectrum v := SetState (with_normalizeSpectrum v).
Definition setShowHelp v := SetState (with_showHelp v).
Definition setIntegrationMode v := SetState (with_integrationMode v).

(** [x || 1] for a number [x]: 0 is falsy. *)
Definition or_one (x : Qc) : Qc :=
  match x ?= 0 with Eq => 1 | _ => x end.

(** The y-axis bound of the MS1 and MS2 panes before the 1.1 margin:
[[
  if (!ints || ints.length === 0) return 1;
  if (!range) return Math.max(...ints) || 1;
  let max = 0;
  for (let i = 0; i < mzs.length; i++)
    if (mzs[i] >= range[0] && mzs[i] <= range[1])
      if (ints[i] > max) max = ints[i];
  return (max > 0) ? max : 1;
]]
    A comparison with the [undefined] read past the end of [ints] is
    false. *)
Definition calculateMaxVisibleY (mzs ints : list Qc) (range : option (Qc * Qc))
  : Qc :=
  match ints with
  | [] => 1
  | v :: vs =>
      match range with
      | None => or_one (max_of v vs)
      | Some (lo, hi) =>
          let max :=
            for_loop (length_Z mzs)
              (fun i max =>
                 match index mzs i with
                 | Some mz =>
                     if leb lo mz && leb mz hi
                     then
                       match index ints i with
                       | Some intensity =>
                           if ltb max intensity then intensity else max
                       | None => max
                       end
                     else max
                 | None => max (* not reached: i < mzs.length *)
                 end)
              0 in
          if ltb 0 max then max else 1
      end
  end.

(** The mass window shown next to the tolerance input:
[[
  const dMz = targetMz * (ppmTol / 1e6);
  const minMzVal = targetMz - dMz;
  const maxMzVal = targetMz + dMz;
]] *)
Definition dMz (s : State) : Qc := targetMz s * (ppmTol s / num 1000000).
Definition minMzVal (s : State) : Qc := targetMz s - dMz s.
Definition maxMzVal (s : State) : Qc := targetMz s + dMz s.

Definition fetchChromatogram (env : State) : Task :=
  if falsy (selectedFile env) then Done
  else
    setLoading true ;; setError None ;; setSpectrumData None ;;
    let delta := targetMz env * (ppmTol env / num 1000000) in
    let minMzVal := targetMz env - delta in
    let maxMzVal := targetMz env + delta in
    try_catch_finally
      (Await (ExtractChromatogram (selectedFile env) minMzVal maxMzVal)
         (fun response =>
            match response with
            | Rejected m => Throw m
            | NotOk _ => Throw "Failed to extract chromatogram"
            | OkUnparsable m => Throw m
            | Ok data =>
                setChromData (Some (XY.mk (ChromatogramResponse.rts data)
                                          (ChromatogramResponse.ints data))) ;;
                bumpPlotRevision ;;
                Done
            end))
      (fun err => setError (Some err) ;; Done)
      (setLoading false ;; Done).

(** [has_ms2.find(m => Math.abs(m - mz) < 0.1)] *)
Definition find_precursor (has_ms2 : list Qc) (mz : Qc) : option Qc :=
  find (fun m => ltb (Qcabs (m - mz)) (Q2Qc (1 # 10))) has_ms2.

(** The [for (const p of event.points)] of [handleMs1Click], which breaks at
    the first point that matches a precursor.  The console lines keep their
    text; the values printed after it are left out. *)
Fixpoint check_points (env : State) (spectrum : SpectrumResponse.t)
         (has_ms2 points : list Qc) : Task :=
  match points with
  | [] => Done
  | mz :: rest =>
      ConsoleLog "Checking point MZ:" ;;
      match find_precursor has_ms2 mz with
      | Some m =>
          ConsoleLog "Found MS2 match!" ;;
          Call (fetchMs2Spectrum env m (SpectrumResponse.rt spectrum)) Done
      | None => check_points env spectrum has_ms2 rest
      end
  end.

(** [points] holds the [x] of each point of the click on the MS1 plot. *)
Definition handleMs1Click (env : State) (points : option (list Qc)) : Task :=
  ConsoleLog "MS1 Plot Clicked:" ;;
  match points, spectrumData env with
  | Some (p :: ps), Some spectrum =>
      match SpectrumResponse.has_ms2 spectrum with
      | Some has_ms2 => check_points env spectrum has_ms2 (p :: ps)
      | None => ConsoleLog "No points or no MS2 data available." ;; Done
      end
  | _, _ => ConsoleLog "No points or no MS2 data available." ;; Done
  end.

Definition handleKeyUp (key : string) : Task :=
  if (key =? "Control")%string || (key =? "Meta")%string
  then setCtrlPressed false ;; Done else Done.

(** The button of the integration mode:
    [setIntegrationMode(!integrationMode);
     if (integrationMode) { setIntegratedArea(null);
                            setIntegratedPoints(null); }] *)
Definition toggleIntegration (env : State) : Task :=
  setIntegrationMode (negb (integrationMode env)) ;;
  if integrationMode env
  then setIntegratedArea None ;; setIntegratedPoints None ;; Done
  else Done.

(** [onSelected={integrationMode ? calculateIntegration : undefined}] *)
Definition onSelected (env : State) (event : option SelectEvent.t) : Task :=
  if integrationMode env then calculateIntegration env event else Done.

(** The relayout event of a plot, by the keys the handlers read:
    ['xaxis.range[0]'] with ['xaxis.range[1]'] (plotly reports the two ends
    of an axis together, and the zoom window is typed as a pair of
    numbers), ['xaxis.autorange'] and ['autosize']. *)
Module Relayout.
Record t : Type := mk {
  range : option (Qc * Qc);
  autorange : bool;
  autosize : bool }.
End Relayout.

(** [if (e['xaxis.range[0]'] !== undefined) setRange([...]);
     else if (e['xaxis.autorange'] || e['autosize']) setRange(null);] *)
Definition onRelayout (setRange : option (Qc * Qc) -> Effect)
           (e : Relayout.t) : Task :=
  match Relayout.range e with
  | Some r => setRange (Some r) ;; Done
  | None =>
      if Relayout.autorange e || Relayout.autosize e
      then setRange None ;; Done else Done
  end.

Definition chromRelayout := onRelayout setChromXRange.
Definition msRelayout := onRelayout setMsXRange.
Definition ms2Relayout := onRelayout setMs2XRange.

(** *** The file browser of the earlier revision: paths *)

Definition is_separator (c : Ascii.ascii) : bool :=
  (String c EmptyString =? "/")%string || (String c EmptyString =? "\")%string.

(** [s.split(/[/\\]/)] *)
Fixpoint split_path (s : string) : list string :=
  match s with
  | EmptyString => [EmptyString]
  | String c rest =>
      if is_separator c then EmptyString :: split_path rest
      else
        match split_path rest with
        | hd :: tl => String c hd :: tl
        | [] => [String c EmptyString]
        end
  end.

(** [parts.join('/')] *)
Fixpoint join_path (parts : list string) : string :=
  match parts with
  | [] => EmptyString
  | p :: nil => p
  | p :: rest => (p ++ "/" ++ join_path rest)%string
  end.

(** The path [traverseUp] hands to [fetchDirectory], [None] when it returns
    at once:
[[
  if (!currentPath) return;
  const parent = currentPath.split(/[/\\]/).slice(0, -1).join('/');
  fetchDirectory(parent || '/');
]] *)
Definition traverseUp_path (currentPath : string) : option string :=
  if falsy currentPath then None
  else
    let parent := join_path (removelast (split_path currentPath)) in
    Some (if falsy parent then "/" else parent).

(** The path [handleFolderClick] hands to [fetchDirectory], which is also
    the [fullPath] of [handleFileSelect]. *)
Definition handleFolderClick_path (currentPath folderName : string) : string :=
  (if currentPath =? "/" then "/" ++ folderName
   else currentPath ++ "/" ++ folderName)%string.

(** ** The component as a transition system *)

(** What the user can do. *)
Inductive Event : Type :=
| FileChosen (file : option string)
| DemoClicked
| PathTyped (path : string)
| PathSubmitted
| TargetTyped (mz : Qc)
| PpmTyped (ppm : Qc)
| NormalizeToggled (checked : bool)
| HelpShown (shown : bool)
| IntegrationToggled
| BackToTicClicked
| ExtractClicked
| ClearMs2Clicked
| RowClicked (idx : Z)
| KeyPressed (key : string)
| KeyReleased (key : string)
| ChromClicked (event : PlotClick.t)
| ChromSelected (event : option SelectEvent.t)
| ChromRelayout (e : Relayout.t)
| Ms1Clicked (points : option (list Qc))
| Ms1Relayout (e : Relayout.t)
| Ms2Relayout (e : Relayout.t).

(** The handler the render [env] attaches to each of them.  The inputs of
    the target m/z and of the tolerance are taken with a value that
    [parseFloat] reads as a finite number. *)
Definition handler (env : State) (e : Event) : Task :=
  match e with
  | FileChosen file => handleFileUpload file
  | DemoClicked => loadDemoData
  | PathTyped path => setManualPath path ;; Done
  | PathSubmitted => handleManualPathSubmit env
  | TargetTyped mz => setTargetMz mz ;; Done
  | PpmTyped ppm => setPpmTol ppm ;; Done
  | NormalizeToggled checked => setNormalizeSpectrum checked ;; Done
  | HelpShown shown => setShowHelp shown ;; Done
  | IntegrationToggled => toggleIntegration env
  | BackToTicClicked => setChromData None ;; Done
  | ExtractClicked => fetchChromatogram env
  | ClearMs2Clicked => setMs2Data None ;; Done
  | RowClicked idx => updateSpectrumByIndex env idx
  | KeyPressed key => handleKeyDown env key
  | KeyReleased key => handleKeyUp key
  | ChromClicked event => handlePlotClick env event
  | ChromSelected event => onSelected env event
  | ChromRelayout e => chromRelayout e
  | Ms1Clicked points => handleMs1Click env points
  | Ms1Relayout e => msRelayout e
  | Ms2Relayout e => ms2Relayout e
  end.

(** One turn of the event loop: a user event handled by the handler of some
    render [env] that [rendered] allows for the live state, or the answer
    to a request in flight. *)
Inductive Step (rendered : State -> State -> Prop) : Config -> Config -> Prop :=
| step_event (env : State) (e : Event) (c : Config) :
    rendered env (state c) ->
    Step rendered c (start (handler env e) c)
| step_answer (n : nat) (srv : Server) (c c' : Config) :
    deliver n srv c = Some c' ->
    Step rendered c c'.

Inductive Reachable (rendered : State -> State -> Prop) : Config -> Prop :=
| reach_initial : Reachable rendered (idle initialState)
| reach_step (c c' : Config) :
    Reachable rendered c -> Step rendered c c' -> Reachable rendered c'.

(** A handler may belong to any earlier render. *)
Definition any_render (env s : State) : Prop := True.

(** The handler belongs to a render that shows the live integration mode. *)
Definition mode_rendered (env s : State) : Prop :=
  integrationMode env = integrationMode s.

(** The state a task leaves, and the requests it issues, when it runs up to
    its first suspension. *)
Fixpoint written (t : Task) (s : State) : State :=
  match t with
  | Done | Throw _ | Await _ _ => s
  | Do (SetState f) k => written k (f s)
  | Do _ k => written k s
  | Call t' k => written k (written t' s)
  end.

Fixpoint issued (t : Task) : list AnyRequest :=
  match t with
  | Done | Throw _ => []
  | Do _ k => issued k
  | Await r _ => [Any r]
  | Call t' k => issued t' ++ issued k
  end.

(** [P] holds of every resumption of [t], at every depth and for every
    answer, together with the request it answers. *)
Fixpoint resumptions (P : AnyRequest -> Task -> Prop) (t : Task) : Prop :=
  match t with
  | Done | Throw _ => True
  | Do _ k => resumptions P k
  | Await r k => forall res, P (Any r) (k res) /\ resumptions P (k res)
  | Call t' k => resumptions P t' /\ resumptions P k
  end.

Definition pending_ok (P : AnyRequest -> Task -> Prop) (p : Pending) : Prop :=
  match p with
  | Pend r k => forall res, P (Any r) (k res) /\ resumptions P (k res)
  end.

Definition is_ms2 (r : AnyRequest) : bool :=
  match r with Any (GetMs2Spectrum _ _ _) => true | _ => false end.

(** The requests whose answer can write the file name or the scan list. *)
Definition selects_file (r : AnyRequest) : bool :=
  match r with
  | Any (Upload _) | Any GetDemoPath | Any (GetScanList _) => true
  | _ => false
  end.

(** A task ends with the flag off unless it leaves a request of the kind
    the flag stands for. *)
Definition settles (flag : State -> bool) (kind : AnyRequest -> bool)
           (t : Task) : Prop :=
  existsb kind (issued t) = true \/ forall s, flag (written t s) = false.

Definition keeps {A : Type} (field : State -> A) (t : Task) : Prop :=
  forall s, field (written t s) = field s.

(** The integration mode with its stored result. *)
Definition integration (s : State)
  : bool * option jsval * option Points.t :=
  (integrationMode s, integratedArea s, integratedPoints s).

(** What holds of every resumption of every handler. *)
Definition resumption_ok (r : AnyRequest) (t : Task) : Prop :=
  (if is_ms2 r
   then keeps loading t /\ settles ms2Loading is_ms2 t
   else settles loading (fun r => negb (is_ms2 r)) t /\ keeps ms2Loading t) /\
  keeps integration t /\
  (forall s, (plotRevision s <= plotRevision (written t s))%Z) /\
  (selects_file r = false -> keeps selectedFile t /\ keeps scanList t).

(** The stored integration result is whole: area and points are there
    together, the points are at least two, as many in x as in y, and the
    area is the one the area loop gives for them. *)
Definition integration_whole (s : State) : Prop :=
  match integratedArea s, integratedPoints s with
  | None, None => True
  | Some area, Some pts =>
      (2 <= List.length (Points.x pts))%nat /\
      List.length (Points.y pts) = List.length (Points.x pts) /\
      area = area_loop (Points.x pts) (Points.y pts)
  | _, _ => False
  end.

(** The events that write the integration mode or its result. *)
Definition integrates (e : Event) : bool :=
  match e with
  | IntegrationToggled | ChromSelected _ => true
  | _ => false
  end.

(** The events that select a file. *)
Definition chooses_file (e : Event) : bool :=
  match e with
  | FileChosen _ | DemoClicked | PathSubmitted => true
  | _ => false
  end.

(** What holds of a handler up to its first suspension: each loading flag
    is left as it was unless the handler ends with it off or leaves a
    request of its kind, and the plot revision does not go down. *)
Definition handler_ok (t : Task) : Prop :=
  (settles loading (fun r => negb (is_ms2 r)) t \/ keeps loading t) /\
  (settles ms2Loading is_ms2 t \/ keeps ms2Loading t) /\
  (forall s, (plotRevision s <= plotRevision (written t s))%Z).

(** A handler that writes neither the integration mode and result, nor the
    file name, nor the scan list. *)
Definition quiet (t : Task) : Prop :=
  keeps integration t /\ keeps selectedFile t /\ keeps scanList t.

(** ** Vocabulary of the further properties *)

(** The intensities of the peaks whose m/z lies in the window, bounds
    included, in input order; a peak past the end of either array is not
    one. *)
Definition visible_intensities (lo hi : Qc) (mzs ints : list Qc) : list Qc :=
  map snd (filter (fun p => leb lo (fst p) && leb (fst p) hi)
                  (combine mzs ints)).

(** A loading flag is off when no request of its kind is in flight. *)
Definition flags_settled (c : Config) : Prop :=
  ((forall r, In r (requests c) -> is_ms2 r = true) ->
   loading (state c) = false) /\
  ((forall r, In r (requests c) -> is_ms2 r = false) ->
   ms2Loading (state c) = false).

(** No integration result is stored outside the integration mode. *)
Definition result_only_in_mode (s : State) : Prop :=
  integrationMode s = false ->
  integratedArea s = None /\ integratedPoints s = None.


(** What the error banner shows after a failed upload. *)
Definition upload_error (res : FetchResult UploadResponse.t) : option string :=
  match res with
  | Rejected m | OkUnparsable m | NotOk (Unparsable m) =>
      Some ("Upload Error: " ++ m)%string
  | NotOk (Detail d) =>
      Some ("Upload Error: " ++ or_default d "Upload failed.")%string
  | Ok _ => None
  end.


(** No file is on display: none selected, no scan listed, no spectrum
    shown. *)
Definition no_file (s : State) : Prop :=
  selectedFile s = EmptyString /\ scanList s = [] /\ spectrumData s = None.

(** What the user sets by typing, ticking and holding a modifier key. *)
Definition inputs (s : State) : string * Qc * Qc * bool * bool * bool :=
  (manualPath s, targetMz s, ppmTol s, normalizeSpectrum s, showHelp s,
   ctrlPressed s).

(** The requests for an MS1 spectrum. *)
Definition is_spectrum (r : AnyRequest) : bool :=
  match r with Any (GetSpectrum _ _) => true | _ => false end.

(** The requests whose answer starts the chromatogram request. *)
Definition starts_tic (r : AnyRequest) : bool :=
  match r with Any (Upload _) | Any GetDemoPath => true | _ => false end.

(** What holds of every resumption of every handler: it writes none of the
    user's inputs, and a zoom window only when it brings the data of that
    pane. *)
Definition frame_ok (r : AnyRequest) (t : Task) : Prop :=
  keeps inputs t /\
  (starts_tic r = false -> keeps chromXRange t) /\
  (is_spectrum r = false -> keeps msXRange t) /\
  (is_ms2 r = false -> keeps ms2XRange t).

(** The events that write one of the user's inputs. *)
Definition sets_input (e : Event) : bool :=
  match e with
  | PathTyped _ | TargetTyped _ | PpmTyped _ | NormalizeToggled _
  | HelpShown _ | KeyPressed _ | KeyReleased _ => true
  | _ => false
  end.

(** The events that write the zoom window of the chromatogram pane, of
    the MS1 pane and of the MS2 pane. *)
Definition zooms_chrom (e : Event) : bool :=
  match e with ChromRelayout _ | PathSubmitted => true | _ => false end.

Definition zooms_ms1 (e : Event) : bool :=
  match e with Ms1Relayout _ => true | _ => false end.

Definition zooms_ms2 (e : Event) : bool :=
  match e with Ms2Relayout _ => true | _ => false end.

(** What a handler keeps up to its first suspension. *)
Definition event_frame (e : Event) (t : Task) : Prop :=
  (sets_input e = false -> keeps inputs t) /\
  (zooms_chrom e = false -> keeps chromXRange t) /\
  (zooms_ms1 e = false -> keeps msXRange t) /\
  (zooms_ms2 e = false -> keeps ms2XRange t).

(** Every character of [s] passes [ok]. *)
Fixpoint all_chars (ok : Ascii.ascii -> bool) (s : string) : bool :=
  match s with
  | EmptyString => true
  | String c rest => ok c && all_chars ok rest
  end.

Definition is_backslash (c : Ascii.ascii) : bool :=
  (String c EmptyString =? "\")%string.

(** ** Answers that arrive later *)

(** The [n]-th request in flight is [r], and the task that issued it
    resumes as [k] on the answer. *)
Definition awaited {A : Type} (c : Config) (n : nat) (r : Request A)
           (k : FetchResult A -> Task) : Prop :=
  nth_error (inflight c) n = Some (Pend r k).

(** The handler belongs to the render of the live state. *)
Definition live_render (env s : State) : Prop := env = s.

(** One turn of a run: a user event, handled by the handler of the render
    of the live state, or the answer to the [n]-th request in flight. *)
Inductive Turn : Type :=
| User (e : Event)
| Answer (n : nat) (srv : Server).

Fixpoint run (turns : list Turn) (c : Config) : option Config :=
  match turns with
  | [] => Some c
  | User e :: rest => run rest (start (handler (state c) e) c)
  | Answer n srv :: rest =>
      match deliver n srv c with
      | Some c' => run rest c'
      | None => None
      end
  end.




(** What the answer to a spectrum request does to the state [live] it
    finds, for the handler of the render [env]: a failure leaves the
    spectrum and the index alone; a success stores the spectrum and, when
    the scan list of [env] is not empty, sets the index to the first scan
    of that list closest to the retention time of the spectrum. *)
Definition spectrum_resumed (env : State)
           (res : FetchResult SpectrumResponse.t) (live after : State)
  : Prop :=
  scanList after = scanList live /\
  match res with
  | Ok data =>
      spectrumData after = Some data /\
      match scanList env with
      | [] => currentScanIdx after = currentScanIdx live
      | _ :: _ =>
          closestIdx (scanList env) (SpectrumResponse.rt data)
          = Some (currentScanIdx after) /\
          (0 <= currentScanIdx after < length_Z (scanList env))%Z
      end
  | _ =>
      spectrumData after = spectrumData live /\
      currentScanIdx after = currentScanIdx live
  end.

(** A file is loaded by path; the second row of the scan table is clicked;
    a file is picked for upload while the spectrum is on its way; then the
    spectrum arrives. *)
Definition selection_overtakes_spectrum : list Turn :=
  [User (PathTyped "a.mzML"); User PathSubmitted;
   Answer 1 healthy; Answer 0 healthy;
   User (RowClicked 1);
   User (FileChosen (Some "b.mzML"));
   Answer 0 healthy].

(** The sticks of the MS1 pane, as the render builds them:
    [getStickData(spectrumData.mzs, spectrumData.ints,
                  spectrumData.has_ms2 || [])] *)
Definition ms1Sticks (spectrum : SpectrumResponse.t) : Sticks.t :=
  getStickData (SpectrumResponse.mzs spectrum)
               (SpectrumResponse.ints spectrum)
               (match SpectrumResponse.has_ms2 spectrum with
                | Some has_ms2 => has_ms2
                | None => []
                end).
(** * Properties *)

(** ** Comparisons *)

Lemma ltb_lt (a b : Qc) : ltb a b = true <-> a < b.
Proof.
  unfold ltb. rewrite Qclt_alt. destruct (a ?= b); split; congruence.
Qed.

Lemma ltb_ge (a b : Qc) : ltb a b = false <-> b <= a.
Proof.
  split; intro H.
  - apply Qcnot_lt_le. rewrite <- ltb_lt. congruence.
  - destruct (ltb a b) eqn:E; [|reflexivity].
    apply ltb_lt in E. exfalso. exact (Qcle_not_lt _ _ H E).
Qed.

(** ** Array indexing *)

Lemma index_Some_range {A : Type} (arr : list A) (i : Z) (v : A) :
  index arr i = Some v -> (0 <= i < length_Z arr)%Z.
Proof.
  unfold index, length_Z. destruct (i <? 0)%Z eqn:E; [discriminate|].
  intro H. apply Z.ltb_ge in E.
  assert (Z.to_nat i < List.length arr)%nat
    by (apply nth_error_Some; congruence).
  lia.
Qed.

Lemma index_within {A : Type} (arr : list A) (i : Z) :
  (0 <= i < length_Z arr)%Z -> exists v, index arr i = Some v.
Proof.
  unfold index, length_Z. intros [H0 H1].
  destruct (i <? 0)%Z eqn:E; [apply Z.ltb_lt in E; lia|].
  destruct (nth_error arr (Z.to_nat i)) eqn:N; [eauto|].
  apply nth_error_None in N. lia.
Qed.

Lemma index_middle {A : Type} (pre : list A) (v : A) (post : list A) :
  index (pre ++ v :: post) (length_Z pre) = Some v.
Proof.
  unfold index, length_Z.
  destruct (Z.of_nat (List.length pre) <? 0)%Z eqn:E;
    [apply Z.ltb_lt in E; lia|].
  rewrite Nat2Z.id, nth_error_app2, Nat.sub_diag by lia. reflexivity.
Qed.

Lemma length_Z_app {A : Type} (l1 l2 : list A) :
  length_Z (l1 ++ l2) = (length_Z l1 + length_Z l2)%Z.
Proof. unfold length_Z. rewrite length_app. lia. Qed.

(** ** The closest-scan resolution *)

Section ClosestScan.

Variable scanList : list Scan.t.
Variable target : Qc.

Let callback (prev : Z) (curr : Scan.t) (idx : Z) : option Z :=
  match index scanList prev with
  | Some best =>
      Some (if ltb (Qcabs (Scan.rt curr - target))
                   (Qcabs (Scan.rt best - target))
            then idx else prev)
  | None => None
  end.

Lemma reduce_from_first_closest (rest pre : list Scan.t) (prev : Z) :
  scanList = pre ++ rest ->
  first_closest_before scanList target (length_Z pre) prev ->
  exists i, reduce_from callback (length_Z pre) prev rest = Some i /\
            first_closest_before scanList target (length_Z scanList) i.
Proof.
  revert pre prev. induction rest as [|curr rest IH]; intros pre prev E Inv.
  - rewrite app_nil_r in E. subst pre. exists prev. split; [reflexivity|exact Inv].
  - destruct Inv as (best & Hb & Hle & Hlt).
    assert (Hc : index scanList (length_Z pre) = Some curr)
      by (rewrite E; apply index_middle).
    cbn [reduce_from]. unfold callback at 1. rewrite Hb.
    replace (length_Z pre + 1)%Z with (length_Z (pre ++ [curr]))
      by (rewrite length_Z_app; reflexivity).
    apply IH; [rewrite <- app_assoc; exact E|].
    rewrite length_Z_app. change (length_Z [curr]) with 1%Z.
    fold (distance target curr). fold (distance target best).
    destruct (ltb (distance target curr) (distance target best)) eqn:L.
    + apply ltb_lt in L. exists curr. split; [exact Hc|]. split.
      * intros j s Hj Hs.
        destruct (Z.eq_dec j (length_Z pre)) as [->|Hne].
        -- rewrite Hc in Hs. injection Hs as <-. apply Qcle_refl.
        -- apply Qclt_le_weak. eapply Qclt_le_trans; [exact L|].
           apply (Hle j); [lia|exact Hs].
      * intros j s Hj Hs. eapply Qclt_le_trans; [exact L|].
        apply (Hle j); assumption.
    + apply ltb_ge in L. exists best. split; [exact Hb|]. split.
      * intros j s Hj Hs.
        destruct (Z.eq_dec j (length_Z pre)) as [->|Hne].
        -- rewrite Hc in Hs. injection Hs as <-. exact L.
        -- apply (Hle j); [lia|exact Hs].
      * exact Hlt.
Qed.

Lemma closestIdx_first_closest :
  scanList <> [] ->
  exists i, closestIdx scanList target = Some i /\
            first_closest_before scanList target (length_Z scanList) i.
Proof.
  intro NE. unfold closestIdx, reduce.
  apply (@reduce_from_first_closest scanList [] 0%Z); [reflexivity|].
  destruct scanList as [|s0 tl]; [congruence|].
  exists s0. split; [reflexivity|]. split.
  - intros j s Hj Hs. apply index_Some_range in Hs.
    change (length_Z []) with 0%Z in Hj. lia.
  - intros j s Hj Hs. apply index_Some_range in Hs. lia.
Qed.

End ClosestScan.

(** C5. For a non-empty scan list and any target retention time, the
    closest-scan resolution returns an index [i] of the list such that no
    scan is strictly closer to the target than scan [i], and every scan
    before [i] is strictly farther: among the scans at minimal distance the
    first one is returned. *)
Theorem closest_scan_is_first_minimum
  (scanList : list Scan.t) (target : Qc) :
  scanList <> [] ->
  exists i best,
    closestIdx scanList target = Some i /\
    index scanList i = Some best /\
    (forall j s, index scanList j = Some s ->
                 ~ distance target s < distance target best) /\
    (forall j s, (j < i)%Z -> index scanList j = Some s ->
                 distance target best < distance target s).
Proof.
  intro NE.
  destruct (closestIdx_first_closest target NE) as (i & Hi & best & Hb & Hle & Hlt).
  exists i, best. repeat split; try assumption.
  intros j s Hs. apply Qcle_not_lt. apply (Hle j); [|exact Hs].
  apply index_Some_range in Hs. lia.
Qed.

(** Scans at 10 s and 20 s are equally far from 15 s: the earlier wins. *)
Example closestIdx_tie :
  closestIdx [scan_at 0 10; scan_at 1 20; scan_at 2 30] (num 15) = Some 0%Z.
Proof. reflexivity. Qed.

Example closestIdx_strict :
  closestIdx [scan_at 0 10; scan_at 1 20; scan_at 2 30] (num 26) = Some 2%Z.
Proof. reflexivity. Qed.

Lemma closest_scan_is_first_minimum_witness :
  exists i best,
    closestIdx [scan_at 0 10; scan_at 1 20; scan_at 2 30] (num 15) = Some i /\
    index [scan_at 0 10; scan_at 1 20; scan_at 2 30] i = Some best /\
    (forall j s, index [scan_at 0 10; scan_at 1 20; scan_at 2 30] j = Some s ->
                 ~ distance (num 15) s < distance (num 15) best) /\
    (forall j s, (j < i)%Z ->
                 index [scan_at 0 10; scan_at 1 20; scan_at 2 30] j = Some s ->
                 distance (num 15) best < distance (num 15) s).
Proof.
  apply (@closest_scan_is_first_minimum
           [scan_at 0 10; scan_at 1 20; scan_at 2 30] (num 15)).
  discriminate.
Defined.

(** ** Loops over array indices *)

Lemma for_loop_foldi {A St : Type} (arr : list A)
      (g : Z -> A -> St -> St) (init : St) :
  for_loop (length_Z arr)
    (fun i s => match index arr i with Some v => g i v s | None => s end)
    init
  = foldi g 0 arr init.
Proof.
  unfold for_loop, length_Z. rewrite Nat2Z.id.
  enough (G : forall rest pre s, arr = pre ++ rest ->
            fold_left
              (fun s i => match index arr (Z.of_nat i) with
                          | Some v => g (Z.of_nat i) v s
                          | None => s
                          end)
              (seq (List.length pre) (List.length rest)) s
            = foldi g (length_Z pre) rest s)
    by (apply (G arr [] init); reflexivity).
  induction rest as [|v rest IH]; intros pre s E; [reflexivity|].
  cbn [List.length seq fold_left foldi].
  fold (length_Z pre). rewrite E at 1. rewrite index_middle.
  specialize (IH (pre ++ [v]) (g (length_Z pre) v s)).
  rewrite length_Z_app, length_app in IH. cbn [List.length] in IH.
  change (length_Z [v]) with 1%Z in IH.
  replace (List.length pre + 1)%nat with (S (List.length pre)) in IH by lia.
  apply IH. rewrite <- app_assoc. exact E.
Qed.

Lemma cell_middle (pre : list Qc) (v : Qc) (post : list Qc) :
  cell (pre ++ v :: post) (length_Z pre) = Num v.
Proof. unfold cell. now rewrite index_middle. Qed.

(** ** The stick-spectrum builder *)

Lemma isHighlighted_iff (highlightMzs : list Qc) (mz : Qc) :
  isHighlighted highlightMzs mz = true <->
  exists m, In m highlightMzs /\ Qcabs (m - mz) < Q2Qc (1 # 10).
Proof.
  unfold isHighlighted. rewrite existsb_exists.
  split; intros (m & Hin & H); exists m; (split; [exact Hin|]);
    apply ltb_lt; exact H.
Qed.

Lemma stick_loop_channels (highlightMzs mzs ints_pre ints : list Qc)
      (acc : Sticks.t) :
  List.length mzs = List.length ints ->
  foldi
    (fun i mz acc =>
       let intensity := cell (ints_pre ++ ints) i in
       if isHighlighted highlightMzs mz
       then Sticks.mk (Sticks.x acc) (Sticks.y acc)
              (Sticks.hx acc ++ [Num mz; Num mz; Null])
              (Sticks.hy acc ++ [Num 0; intensity; Null])
       else Sticks.mk
              (Sticks.x acc ++ [Num mz; Num mz; Null])
              (Sticks.y acc ++ [Num 0; intensity; Null])
              (Sticks.hx acc) (Sticks.hy acc))
    (length_Z ints_pre) mzs acc
  = Sticks.mk
      (Sticks.x acc
         ++ flat_map stick_x (normal_peaks highlightMzs (peaks mzs ints)))
      (Sticks.y acc
         ++ flat_map stick_y (normal_peaks highlightMzs (peaks mzs ints)))
      (Sticks.hx acc
         ++ flat_map stick_x (highlighted_peaks highlightMzs (peaks mzs ints)))
      (Sticks.hy acc
         ++ flat_map stick_y (highlighted_peaks highlightMzs (peaks mzs ints))).
Proof.
  revert ints_pre ints acc.
  induction mzs as [|mz mzs IH]; intros ints_pre ints acc L.
  - destruct acc. cbn. now rewrite !app_nil_r.
  - destruct ints as [|int ints]; [discriminate|]. injection L as L.
    cbn [foldi]. cbv zeta. rewrite cell_middle.
    specialize (IH (ints_pre ++ [int]) ints).
    rewrite length_Z_app in IH. change (length_Z [int]) with 1%Z in IH.
    rewrite <- app_assoc in IH. cbn [app] in IH.
    rewrite IH by exact L. clear IH.
    unfold normal_peaks, highlighted_peaks, peaks.
    cbn [combine filter fst].
    destruct (isHighlighted highlightMzs mz); cbn [negb flat_map Sticks.x
      Sticks.y Sticks.hx Sticks.hy stick_x stick_y fst snd];
      rewrite <- ?app_assoc; reflexivity.
Qed.

(** C8. For index-aligned [mzs] and [ints] and any highlight values, a peak
    is highlighted exactly when some highlight value is less than 0.1 away
    from its m/z; the normal channel is made of the peaks that are not
    highlighted and the highlighted channel of those that are, each peak
    contributing, in input order, the three samples (mz, 0),
    (mz, intensity) and the [null] break.  On mzs = [100, 200],
    ints = [5, 8], highlight = {200} the normal channel is
    x = [100, 100, null], y = [0, 5, null] and the highlighted one
    hx = [200, 200, null], hy = [0, 8, null]. *)
Theorem stick_builder_channels :
  (forall highlightMzs mzs ints,
      List.length mzs = List.length ints ->
      (forall mz, isHighlighted highlightMzs mz = true <->
                  exists m, In m highlightMzs /\
                            Qcabs (m - mz) < Q2Qc (1 # 10)) /\
      getStickData mzs ints highlightMzs
      = Sticks.mk
          (flat_map stick_x (normal_peaks highlightMzs (peaks mzs ints)))
          (flat_map stick_y (normal_peaks highlightMzs (peaks mzs ints)))
          (flat_map stick_x (highlighted_peaks highlightMzs (peaks mzs ints)))
          (flat_map stick_y (highlighted_peaks highlightMzs (peaks mzs ints))))
  /\
  getStickData [num 100; num 200] [num 5; num 8] [num 200]
  = Sticks.mk [Num (num 100); Num (num 100); Null]
              [Num 0; Num (num 5); Null]
              [Num (num 200); Num (num 200); Null]
              [Num 0; Num (num 8); Null].
Proof.
  split; [|reflexivity].
  intros highlightMzs mzs ints L. split; [apply isHighlighted_iff|].
  unfold getStickData.
  rewrite (for_loop_foldi mzs
    (fun i mz acc =>
       let intensity := cell ints i in
       if isHighlighted highlightMzs mz
       then Sticks.mk (Sticks.x acc) (Sticks.y acc)
              (Sticks.hx acc ++ [Num mz; Num mz; Null])
              (Sticks.hy acc ++ [Num 0; intensity; Null])
       else Sticks.mk
              (Sticks.x acc ++ [Num mz; Num mz; Null])
              (Sticks.y acc ++ [Num 0; intensity; Null])
              (Sticks.hx acc) (Sticks.hy acc))).
  exact (@stick_loop_channels highlightMzs mzs [] ints
           (Sticks.mk [] [] [] []) L).
Qed.

Lemma stick_builder_channels_witness :
  getStickData [num 100; num 200] [num 5; num 8] [num 200]
  = Sticks.mk
      (flat_map stick_x
         (normal_peaks [num 200] (peaks [num 100; num 200] [num 5; num 8])))
      (flat_map stick_y
         (normal_peaks [num 200] (peaks [num 100; num 200] [num 5; num 8])))
      (flat_map stick_x
         (highlighted_peaks [num 200]
            (peaks [num 100; num 200] [num 5; num 8])))
      (flat_map stick_y
         (highlighted_peaks [num 200]
            (peaks [num 100; num 200] [num 5; num 8]))).
Proof.
  apply (proj1 stick_builder_channels [num 200]%list [num 100; num 200]
           [num 5; num 8]).
  reflexivity.
Defined.

(** ** Peak integration *)

Lemma select_foldi (minX maxX : Qc) (chrom : XY.t) :
  select minX maxX chrom
  = foldi (fun i rtSec (sel : list Qc * list jsval) =>
             if in_window minX maxX rtSec
             then (fst sel ++ [rtSec / num 60],
                   snd sel ++ [cell (XY.y chrom) i])
             else sel)
          0 (XY.x chrom) ([], []).
Proof.
  unfold select.
  exact (for_loop_foldi (XY.x chrom)
           (fun i rtSec (sel : list Qc * list jsval) =>
              if in_window minX maxX rtSec
              then (fst sel ++ [rtSec / num 60],
                    snd sel ++ [cell (XY.y chrom) i])
              else sel)
           ([], [])).
Qed.

(** The selected x are the qualifying times, whatever [y] holds. *)
Lemma foldi_select_fst (minX maxX : Qc) (ys xs : list Qc) (i : Z)
      (sel : list Qc * list jsval) :
  fst (foldi (fun i rtSec (sel : list Qc * list jsval) =>
                if in_window minX maxX rtSec
                then (fst sel ++ [rtSec / num 60], snd sel ++ [cell ys i])
                else sel)
             i xs sel)
  = fst sel ++ map (fun rtSec => rtSec / num 60)
                   (filter (in_window minX maxX) xs).
Proof.
  revert i sel. induction xs as [|rtSec xs IH]; intros i sel.
  - cbn. now rewrite app_nil_r.
  - cbn [foldi filter]. rewrite IH.
    destruct (in_window minX maxX rtSec); cbn [fst map];
      rewrite <- ?app_assoc; reflexivity.
Qed.

Lemma select_fst (minX maxX : Qc) (chrom : XY.t) :
  fst (select minX maxX chrom)
  = map (fun rtSec => rtSec / num 60)
        (filter (in_window minX maxX) (XY.x chrom)).
Proof. rewrite select_foldi. apply foldi_select_fst. Qed.

Lemma foldi_select_aligned (minX maxX : Qc) (ys_pre ys xs : list Qc)
      (sel : list Qc * list jsval) :
  List.length xs = List.length ys ->
  foldi (fun i rtSec (sel : list Qc * list jsval) =>
           if in_window minX maxX rtSec
           then (fst sel ++ [rtSec / num 60],
                 snd sel ++ [cell (ys_pre ++ ys) i])
           else sel)
        (length_Z ys_pre) xs sel
  = (fst sel ++ map fst (qualifying minX maxX (XY.mk xs ys)),
     snd sel ++ map (fun p => Num (snd p))
                    (qualifying minX maxX (XY.mk xs ys))).
Proof.
  revert ys_pre ys sel.
  induction xs as [|rtSec xs IH]; intros ys_pre ys sel L.
  - destruct sel. cbn. now rewrite !app_nil_r.
  - destruct ys as [|v ys]; [discriminate|]. injection L as L.
    cbn [foldi]. rewrite cell_middle.
    specialize (IH (ys_pre ++ [v]) ys).
    rewrite length_Z_app in IH. change (length_Z [v]) with 1%Z in IH.
    rewrite <- app_assoc in IH. cbn [app] in IH.
    rewrite IH by exact L. clear IH.
    unfold qualifying. cbn [XY.x XY.y combine filter fst].
    destruct (in_window minX maxX rtSec); cbn [map fst snd];
      rewrite <- ?app_assoc; reflexivity.
Qed.

Lemma select_aligned (minX maxX : Qc) (chrom : XY.t) :
  List.length (XY.x chrom) = List.length (XY.y chrom) ->
  select minX maxX chrom
  = (map fst (qualifying minX maxX chrom),
     map (fun p => Num (snd p)) (qualifying minX maxX chrom)).
Proof.
  intro L. rewrite select_foldi. destruct chrom as [xs ys].
  exact (@foldi_select_aligned minX maxX [] ys xs ([], []) L).
Qed.

Lemma cell_map_fst (pre : list (Qc * Qc)) (p : Qc * Qc)
      (post : list (Qc * Qc)) :
  cell (map fst (pre ++ p :: post)) (length_Z pre) = Num (fst p).
Proof.
  rewrite map_app. cbn [map].
  replace (length_Z pre) with (length_Z (map fst pre))
    by (unfold length_Z; now rewrite length_map).
  apply cell_middle.
Qed.

Lemma at_map_snd (pre : list (Qc * Qc)) (p : Qc * Qc)
      (post : list (Qc * Qc)) :
  at_ (map (fun p => Num (snd p)) (pre ++ p :: post)) (length_Z pre)
  = Num (snd p).
Proof.
  rewrite map_app. cbn [map]. unfold at_.
  replace (length_Z pre)
    with (length_Z (map (fun p : Qc * Qc => Num (snd p)) pre))
    by (unfold length_Z; now rewrite length_map).
  now rewrite index_middle.
Qed.

Lemma area_step_middle (pre : list (Qc * Qc)) (p1 p2 : Qc * Qc)
      (rest : list (Qc * Qc)) (area : Qc) :
  area_step (map fst (pre ++ p1 :: p2 :: rest))
            (map (fun p => Num (snd p)) (pre ++ p1 :: p2 :: rest))
            (length_Z pre) (Num area)
  = Num (area + (snd p1 + snd p2) / num 2
                * (fst p2 * num 60 - fst p1 * num 60)).
Proof.
  unfold area_step. rewrite cell_map_fst, at_map_snd.
  replace (length_Z pre + 1)%Z with (length_Z (pre ++ [p1]))
    by (rewrite length_Z_app; reflexivity).
  replace (pre ++ p1 :: p2 :: rest) with ((pre ++ [p1]) ++ p2 :: rest)
    by (rewrite <- app_assoc; reflexivity).
  rewrite cell_map_fst, at_map_snd. reflexivity.
Qed.

(** The accumulating loop adds up the trapezoids of the samples left. *)
Lemma area_steps (samples rest pre : list (Qc * Qc)) (area : Qc) :
  samples = pre ++ rest ->
  fold_left
    (fun area i =>
       area_step (map fst samples) (map (fun p => Num (snd p)) samples)
                 (Z.of_nat i) area)
    (seq (List.length pre) (List.length rest - 1)) (Num area)
  = Num (area + trapezoid rest).
Proof.
  revert pre area. induction rest as [|p1 rest IH]; intros pre area E.
  - cbn. now rewrite Qcplus_0_r.
  - destruct rest as [|p2 rest].
    + cbn. now rewrite Qcplus_0_r.
    + cbn [List.length Nat.sub seq fold_left]. fold (length_Z pre).
      rewrite E at 1 2. rewrite area_step_middle.
      assert (E' : samples = (pre ++ [p1]) ++ p2 :: rest)
        by (rewrite <- app_assoc; exact E).
      specialize (IH (pre ++ [p1])
        (area + (snd p1 + snd p2) / num 2
                * (fst p2 * num 60 - fst p1 * num 60)) E').
      rewrite length_app in IH. cbn [List.length] in IH.
      replace (List.length pre + 1)%nat with (S (List.length pre)) in IH
        by lia.
      cbn [List.length Nat.sub] in IH. rewrite ?Nat.sub_0_r in IH.
      rewrite IH. cbn [trapezoid]. now rewrite Qcplus_assoc.
Qed.

Lemma area_loop_trapezoid (samples : list (Qc * Qc)) :
  area_loop (map fst samples) (map (fun p => Num (snd p)) samples)
  = Num (trapezoid samples).
Proof.
  unfold area_loop, for_loop, length_Z. rewrite length_map.
  replace (Z.to_nat (Z.of_nat (List.length samples) - 1))
    with (List.length samples - 1)%nat by lia.
  rewrite <- (Qcplus_0_l (trapezoid samples)).
  exact (@area_steps samples samples [] 0 eq_refl).
Qed.

Lemma rangeX_Some_has_field (event : SelectEvent.t) (r : Qc * Qc) :
  rangeX event = Some r ->
  SelectEvent.points event <> None \/ SelectEvent.range event <> None.
Proof.
  unfold rangeX. destruct (SelectEvent.range event); [right; discriminate|].
  destruct (SelectEvent.points event); [left|]; discriminate.
Qed.

(** What [calculateIntegration] does once its event has [points] or
    [range]. *)
Lemma calculateIntegration_selected (env : State) (event : SelectEvent.t) :
  SelectEvent.points event <> None \/ SelectEvent.range event <> None ->
  calculateIntegration env (Some event)
  = let (selectedX, selectedY) :=
      match rangeX event, activeChromData env with
      | Some (minX, maxX), Some chrom => select minX maxX chrom
      | _, _ => ([], [])
      end in
    if (length_Z selectedX <? 2)%Z then Done
    else
      setIntegratedArea (Some (area_loop selectedX selectedY)) ;;
      setIntegratedPoints (Some (Points.mk selectedX selectedY)) ;;
      Done.
Proof.
  unfold calculateIntegration.
  destruct (SelectEvent.points event), (SelectEvent.range event);
    intros [H|H]; try reflexivity; congruence.
Qed.

(** C6. When at least two samples of the active chromatogram have their
    time in minutes inside the selected window (bounds included), the
    integration stores as area the composite trapezoidal sum over the
    consecutive qualifying samples, with x converted back to seconds, and
    stores those samples; for the ramp (0 s, 0), (60 s, 10), (120 s, 0)
    fully selected the stored area is 600. *)
Theorem integration_stores_trapezoid :
  (forall env event minX maxX chrom c,
      rangeX event = Some (minX, maxX) ->
      activeChromData env = Some chrom ->
      List.length (XY.x chrom) = List.length (XY.y chrom) ->
      (2 <= List.length (qualifying minX maxX chrom))%nat ->
      let after := state (start (calculateIntegration env (Some event)) c) in
      integratedArea after
      = Some (Num (trapezoid (qualifying minX maxX chrom))) /\
      integratedPoints after
      = Some (Points.mk
                (map fst (qualifying minX maxX chrom))
                (map (fun p => Num (snd p)) (qualifying minX maxX chrom))))
  /\
  integratedArea
    (state (start (calculateIntegration (with_ticData (Some ramp) initialState)
                                        (Some (box 0 2)))
                  (idle (with_ticData (Some ramp) initialState))))
  = Some (Num (num 600)).
Proof.
  assert (G : forall env event minX maxX chrom c,
      rangeX event = Some (minX, maxX) ->
      activeChromData env = Some chrom ->
      List.length (XY.x chrom) = List.length (XY.y chrom) ->
      (2 <= List.length (qualifying minX maxX chrom))%nat ->
      let after := state (start (calculateIntegration env (Some event)) c) in
      integratedArea after
      = Some (Num (trapezoid (qualifying minX maxX chrom))) /\
      integratedPoints after
      = Some (Points.mk
                (map fst (qualifying minX maxX chrom))
                (map (fun p => Num (snd p)) (qualifying minX maxX chrom)))).
  { intros env event minX maxX chrom c HR HA HL H2.
    rewrite calculateIntegration_selected
      by (eapply rangeX_Some_has_field; exact HR).
    rewrite HR, HA, (select_aligned minX maxX chrom HL).
    assert (L : (length_Z (map fst (qualifying minX maxX chrom)) <? 2)%Z
                = false)
      by (apply Z.ltb_ge; unfold length_Z; rewrite length_map; lia).
    rewrite L, area_loop_trapezoid. cbn. split; reflexivity. }
  split; [exact G|].
  assert (H2 : (2 <= List.length (qualifying (num 0) (num 2) ramp))%nat)
    by (vm_compute; lia).
  destruct (G (with_ticData (Some ramp) initialState) (box 0 2)
              (num 0) (num 2) ramp
              (idle (with_ticData (Some ramp) initialState))
              eq_refl eq_refl eq_refl H2)
    as [HA _].
  rewrite HA. apply (f_equal (fun q => Some (Num q))).
  apply Qc_is_canon. reflexivity.
Qed.

Lemma integration_stores_trapezoid_witness :
  integratedArea
    (state (start (calculateIntegration (with_ticData (Some ramp) initialState)
                                        (Some (box 0 2)))
                  (idle (with_ticData (Some ramp) initialState))))
  = Some (Num (trapezoid (qualifying (num 0) (num 2) ramp))).
Proof.
  apply (proj1 integration_stores_trapezoid
           (with_ticData (Some ramp) initialState) (box 0 2)
           (num 0) (num 2) ramp
           (idle (with_ticData (Some ramp) initialState))).
  - reflexivity.
  - reflexivity.
  - reflexivity.
  - vm_compute. lia.
Defined.

(** C7. An integration call for which fewer than two chromatogram samples
    qualify for the derived window changes nothing: no state variable is
    written, so the stored area and points stay as they were.  This covers
    a missing event, an event with neither points nor range, and a call
    with no active chromatogram. *)
Theorem integration_noop_below_two_samples :
  (forall env event c,
      (forall ev minX maxX chrom,
          event = Some ev ->
          rangeX ev = Some (minX, maxX) ->
          activeChromData env = Some chrom ->
          (List.length (filter (in_window minX maxX) (XY.x chrom)) < 2)%nat) ->
      start (calculateIntegration env event) c = c)
  /\
  (forall env c,
      start (calculateIntegration env (Some (SelectEvent.mk None None))) c
      = c).
Proof.
  split; [|reflexivity].
  intros env [event|] c H; [|reflexivity].
  destruct (SelectEvent.points event) as [pts|] eqn:EP.
  2: destruct (SelectEvent.range event) as [rg|] eqn:ER.
  3: { unfold calculateIntegration. now rewrite EP, ER. }
  all: rewrite calculateIntegration_selected
    by (rewrite ?EP, ?ER; first [left; discriminate | right; discriminate]).
  all: destruct (rangeX event) as [[minX maxX]|] eqn:HR; [|reflexivity].
  all: destruct (activeChromData env) as [chrom|] eqn:HA; [|reflexivity].
  all: specialize (H event minX maxX chrom eq_refl HR eq_refl).
  all: pose proof (select_fst minX maxX chrom) as HF.
  all: destruct (select minX maxX chrom) as [selectedX selectedY].
  all: cbn [fst] in HF; subst selectedX.
  all: unfold length_Z; rewrite length_map.
  all: destruct (Z.ltb_spec
         (Z.of_nat (List.length (filter (in_window minX maxX) (XY.x chrom))))
         2); [reflexivity|lia].
Qed.

Lemma integration_noop_below_two_samples_witness :
  start (calculateIntegration (with_ticData (Some ramp) initialState)
                              (Some (box 1 1)))
        (idle (with_ticData (Some ramp) initialState))
  = idle (with_ticData (Some ramp) initialState).
Proof.
  apply (proj1 integration_noop_below_two_samples
           (with_ticData (Some ramp) initialState) (Some (box 1 1))
           (idle (with_ticData (Some ramp) initialState))).
  intros ev minX maxX chrom Hev HR HA.
  injection Hev as <-. injection HR as <- <-. injection HA as <-.
  vm_compute. lia.
Defined.

(** ** The event loop *)

Lemma nth_error_last {A : Type} (l : list A) (v : A) :
  nth_error (l ++ [v]) (List.length l) = Some v.
Proof. rewrite nth_error_app2, Nat.sub_diag by lia. reflexivity. Qed.

Lemma remove_nth_last {A : Type} (l : list A) (v : A) :
  remove_nth (List.length l) (l ++ [v]) = l.
Proof. induction l as [|hd tl IH]; cbn; [|rewrite IH]; reflexivity. Qed.

(** Answering the request issued last resumes the task that awaits it. *)
Lemma deliver_last {A : Type} (srv : Server) (s : State)
      (waiting : list Pending) (r : Request A) (k : FetchResult A -> Task)
      (l : list Obs) :
  deliver (List.length waiting) srv (mkConfig s (waiting ++ [Pend r k]) l)
  = Some (start (k (srv A r))
                (mkConfig s waiting (l ++ [Completed (Any r)]))).
Proof.
  unfold deliver. cbn [inflight state log].
  now rewrite nth_error_last, remove_nth_last.
Qed.

(** Compares two lists of requests in flight. *)
Ltac requests_eq :=
  unfold requests; cbn [inflight emit]; rewrite ?map_app;
  cbn [map request_of];
  rewrite <- ?app_assoc; reflexivity.

(** ** The MS2 fragment-spectrum fetch *)

Lemma fetchMs2Spectrum_start (env : State) (precursor rt_sec : Qc)
      (c : Config) :
  falsy (selectedFile env) = false ->
  exists k,
    start (fetchMs2Spectrum env precursor rt_sec) c
    = mkConfig (with_ms2Loading true (state c))
               (inflight c
                  ++ [Pend (GetMs2Spectrum (selectedFile env) precursor rt_sec)
                           k])
               (log c
                  ++ [Issued (Any (GetMs2Spectrum (selectedFile env)
                                                  precursor rt_sec))
                             (with_ms2Loading true (state c))]) /\
    forall res c',
      start (k res) c'
      = match res with
        | Rejected m | OkUnparsable m =>
            mkConfig (with_ms2Loading false (state c')) (inflight c')
                     (log c' ++ [Console_error m])
        | NotOk _ =>
            mkConfig (with_ms2Loading false (state c')) (inflight c') (log c')
        | Ok data =>
            mkConfig (with_ms2Loading false
                        (with_ms2XRange None
                           (with_ms2Data (Some data) (state c'))))
                     (inflight c') (log c')
        end.
Proof.
  intro F. unfold fetchMs2Spectrum. rewrite F.
  eexists. split; [reflexivity|].
  intros [m|b|data|m] c'; reflexivity.
Qed.

(** C9, as amended. An MS2 fetch that fails leaves every state variable as
    it was except [ms2Loading], which is cleared: the stored MS2 spectrum,
    the MS2 zoom window and the error banner are unchanged.  A rejected
    request (or a body that does not parse) is written to the console; a
    non-2xx answer is dropped without being logged.  On success the fetched
    spectrum replaces the MS2 spectrum and the MS2 zoom window becomes
    null. *)
Theorem ms2_fetch_outcomes
  (env : State) (precursor rt_sec : Qc) (srv : Server) (c : Config) :
  falsy (selectedFile env) = false ->
  let request := GetMs2Spectrum (selectedFile env) precursor rt_sec in
  let issued := Issued (Any request) (with_ms2Loading true (state c)) in
  exists after,
    answered (fetchMs2Spectrum env precursor rt_sec) srv c = Some after /\
    inflight after = inflight c /\
    match srv _ request with
    | Rejected m | OkUnparsable m =>
        state after = with_ms2Loading false (state c) /\
        log after = log c ++ [issued; Completed (Any request); Console_error m]
    | NotOk _ =>
        state after = with_ms2Loading false (state c) /\
        log after = log c ++ [issued; Completed (Any request)]
    | Ok data =>
        state after
        = with_ms2Loading false
            (with_ms2XRange None (with_ms2Data (Some data) (state c))) /\
        log after = log c ++ [issued; Completed (Any request)]
    end.
Proof.
  intros F request issued.
  destruct (fetchMs2Spectrum_start env precursor rt_sec c F) as (k & Hs & Hk).
  unfold answered. rewrite Hs, deliver_last, Hk.
  eexists. split; [reflexivity|].
  subst request issued.
  destruct (srv MS2Response.t
                (GetMs2Spectrum (selectedFile env) precursor rt_sec));
    cbn [state inflight log]; rewrite <- ?app_assoc; repeat split.
Qed.

Lemma ms2_fetch_outcomes_witness :
  exists after,
    answered (fetchMs2Spectrum exploring (num 200) (num 10))
             (always_rejected "Failed to fetch") (idle exploring)
    = Some after /\
    ms2Data (state after) = Some (fragment_at 10) /\
    ms2XRange (state after) = Some (num 40, num 130) /\
    error (state after) = None /\
    ms2Loading (state after) = false.
Proof.
  destruct (@ms2_fetch_outcomes exploring (num 200) (num 10)
              (always_rejected "Failed to fetch") (idle exploring) eq_refl)
    as (after & Ha & _ & Hst & _).
  exists after. split; [exact Ha|].
  rewrite Hst. repeat split.
Defined.

(** C9 as stated fails: a non-2xx answer to the MS2 request is not logged.
    Nothing is written to the console. *)
Lemma ms2_not_ok_is_not_logged :
  exists after,
    answered (fetchMs2Spectrum exploring (num 200) (num 10))
             always_not_ok (idle exploring)
    = Some after /\
    forall m, ~ In (Console_error m) (log after).
Proof.
  eexists. split; [reflexivity|].
  intros m [H|[H|[]]]; discriminate H.
Qed.

(** ** Answers that arrive later *)

(** Answering a request in flight, wherever it stands. *)
Lemma deliver_awaited {A : Type} (srv : Server) (c : Config) (n : nat)
      (r : Request A) (k : FetchResult A -> Task) :
  awaited c n r k ->
  deliver n srv c
  = Some (start (k (srv A r))
                (mkConfig (state c) (remove_nth n (inflight c))
                          (log c ++ [Completed (Any r)]))).
Proof. unfold awaited, deliver. intros ->. reflexivity. Qed.


(** A run of turns is a run of the component. *)
Lemma run_reachable (turns : list Turn) (c c' : Config) :
  Reachable live_render c ->
  run turns c = Some c' ->
  Reachable live_render c'.
Proof.
  revert c. induction turns as [|[e|n srv] rest IH]; intros c R H;
    cbn [run] in H.
  - injection H as <-. exact R.
  - apply (IH _ (reach_step R (step_event live_render (state c) e c eq_refl))).
    exact H.
  - destruct (deliver n srv c) as [c1|] eqn:D; [|discriminate H].
    apply (IH _ (reach_step R (step_answer live_render n srv c D))).
    exact H.
Qed.
(** ** The MS1 spectrum fetch *)

Lemma fetchSpectrum_no_file (env : State) (rt_sec : Qc) :
  falsy (selectedFile env) = true -> fetchSpectrum env rt_sec = Done.
Proof. intro F. unfold fetchSpectrum. now rewrite F. Qed.

Lemma fetchSpectrum_start (env : State) (rt_sec : Qc) (c : Config) :
  falsy (selectedFile env) = false ->
  exists k,
    start (fetchSpectrum env rt_sec) c
    = mkConfig (with_loading true (state c))
               (inflight c ++ [Pend (GetSpectrum (selectedFile env) rt_sec) k])
               (log c ++ [Issued (Any (GetSpectrum (selectedFile env) rt_sec))
                                 (with_loading true (state c))]) /\
    forall res c', start (k res) c' = spectrum_answer env res c'.
Proof.
  intro F. unfold fetchSpectrum. rewrite F.
  eexists. split; [reflexivity|].
  intros [m|b|data|m] c'; try reflexivity.
  cbn [try_catch_finally try_catch finally start spectrum_answer].
  destruct (length_Z (scanList env) >? 0)%Z; [|reflexivity].
  destruct (closestIdx (scanList env) (SpectrumResponse.rt data));
    reflexivity.
Qed.

Lemma length_Z_pos_nonempty {A : Type} (l : list A) :
  (length_Z l >? 0)%Z = true <-> l <> [].
Proof.
  destruct l as [|v l].
  - split; [discriminate|congruence].
  - split; [discriminate|reflexivity].
Qed.

(** C2, as amended. After a successful MS1 spectrum fetch the new spectrum
    is stored, the MS2 spectrum is cleared and the zoom window of the MS1
    pane is reset to null, the zoom window of the MS2 pane being left as it
    was; and when the scan list of the handler is not empty the
    closest-scan resolution is run on the retention time of the fetched
    spectrum and its result becomes the current scan index. *)
Theorem spectrum_fetch_success
  (env : State) (rt_sec : Qc) (srv : Server) (c : Config)
  (data : SpectrumResponse.t) :
  falsy (selectedFile env) = false ->
  srv _ (GetSpectrum (selectedFile env) rt_sec) = Ok data ->
  exists after,
    answered (fetchSpectrum env rt_sec) srv c = Some after /\
    spectrumData (state after) = Some data /\
    ms2Data (state after) = None /\
    msXRange (state after) = None /\
    ms2XRange (state after) = ms2XRange (state c) /\
    (scanList env <> [] ->
     closestIdx (scanList env) (SpectrumResponse.rt data)
     = Some (currentScanIdx (state after))) /\
    (scanList env = [] ->
     currentScanIdx (state after) = currentScanIdx (state c)).
Proof.
  intros F R.
  destruct (fetchSpectrum_start env rt_sec c F) as (k & Hs & Hk).
  unfold answered. rewrite Hs, deliver_last, Hk, R.
  unfold spectrum_answer.
  destruct (length_Z (scanList env) >? 0)%Z eqn:L.
  - apply length_Z_pos_nonempty in L.
    destruct (closestIdx_first_closest (SpectrumResponse.rt data) L)
      as (i & Hi & _).
    rewrite Hi. eexists. split; [reflexivity|].
    cbn. repeat split; congruence.
  - eexists. split; [reflexivity|]. cbn. repeat split.
    intro NE. apply length_Z_pos_nonempty in NE. congruence.
Qed.

Lemma spectrum_fetch_success_witness :
  exists after,
    answered (fetchSpectrum exploring (num 20)) healthy (idle exploring)
    = Some after /\
    spectrumData (state after) = Some (spectrum_at 20) /\
    ms2Data (state after) = None /\
    msXRange (state after) = None /\
    ms2XRange (state after) = Some (num 40, num 130) /\
    currentScanIdx (state after) = 1%Z.
Proof.
  destruct (@spectrum_fetch_success exploring (num 20) healthy
              (idle exploring) (spectrum_at 20) eq_refl eq_refl)
    as (after & Ha & Hs & Hm & Hz & Hz2 & Hi & _).
  exists after. repeat split; try assumption.
  assert (NE : scanList exploring <> []) by discriminate.
  specialize (Hi NE).
  assert (E : closestIdx (scanList exploring)
                         (SpectrumResponse.rt (spectrum_at 20)) = Some 1%Z)
    by reflexivity.
  rewrite E in Hi. injection Hi as Hi. symmetry. exact Hi.
Defined.

(** C2 as stated fails: the zoom window of the MS2 pane survives a
    successful MS1 spectrum fetch. *)
Lemma spectrum_fetch_keeps_ms2_zoom :
  exists after,
    answered (fetchSpectrum exploring (num 20)) healthy (idle exploring)
    = Some after /\
    spectrumData (state after) = Some (spectrum_at 20) /\
    ms2XRange (state after) <> None.
Proof.
  eexists. split; [reflexivity|]. split; [reflexivity|]. discriminate.
Qed.
(** ** The scan index along the spectrum-requesting paths *)

Lemma updateSpectrumByIndex_in_range (env : State) (idx : Z) :
  (0 <= idx < length_Z (scanList env))%Z ->
  exists scan,
    index (scanList env) idx = Some scan /\
    updateSpectrumByIndex env idx
    = setCurrentScanIdx idx ;;
      Call (fetchSpectrum env (Scan.rt scan)) (ScrollIntoView idx ;; Done).
Proof.
  intros [H0 H1]. destruct (index_within (scanList env) (conj H0 H1))
    as (scan & Hs).
  exists scan. split; [exact Hs|].
  unfold updateSpectrumByIndex. rewrite Hs.
  destruct (Z.ltb_spec idx 0); [lia|].
  destruct (Z.geb_spec idx (length_Z (scanList env))); [lia|].
  reflexivity.
Qed.

Lemma updateSpectrumByIndex_out_of_range (env : State) (idx : Z) :
  ~ (0 <= idx < length_Z (scanList env))%Z ->
  updateSpectrumByIndex env idx = Done.
Proof.
  intro H. unfold updateSpectrumByIndex.
  destruct (Z.ltb_spec idx 0); [reflexivity|].
  destruct (Z.geb_spec idx (length_Z (scanList env))); [reflexivity|lia].
Qed.

Lemma updateSpectrumByIndex_shape (env : State) (idx : Z) :
  requests_spectrum env (updateSpectrumByIndex env idx).
Proof.
  destruct (Z.le_gt_cases 0 idx) as [H0|H0];
    [destruct (Z.lt_ge_cases idx (length_Z (scanList env))) as [H1|H1]|].
  - destruct (@updateSpectrumByIndex_in_range env idx (conj H0 H1))
      as (scan & Hs & ->).
    now apply rs_row.
  - rewrite updateSpectrumByIndex_out_of_range by lia. constructor.
  - rewrite updateSpectrumByIndex_out_of_range by lia. constructor.
Qed.

Lemma handleKeyDown_shape (env : State) (key : string) :
  requests_spectrum env (handleKeyDown env key).
Proof.
  unfold handleKeyDown.
  assert (B : requests_spectrum env
    (if (length_Z (scanList env) =? 0)%Z then Done
     else if (key =? "ArrowRight")%string then
       let nextIdx :=
         Z.min (length_Z (scanList env) - 1) (currentScanIdx env + 1) in
       if negb (nextIdx =? currentScanIdx env)%Z
       then updateSpectrumByIndex env nextIdx else Done
     else if (key =? "ArrowLeft")%string then
       let prevIdx := Z.max 0 (currentScanIdx env - 1) in
       if negb (prevIdx =? currentScanIdx env)%Z
       then updateSpectrumByIndex env prevIdx else Done
     else Done)).
  { destruct (length_Z (scanList env) =? 0)%Z; [constructor|].
    destruct (key =? "ArrowRight")%string.
    - cbv zeta.
      destruct (negb _); [apply updateSpectrumByIndex_shape|constructor].
    - destruct (key =? "ArrowLeft")%string; [|constructor].
      cbv zeta.
      destruct (negb _); [apply updateSpectrumByIndex_shape|constructor]. }
  destruct ((key =? "Control")%string || (key =? "Meta")%string);
    cbn [await]; [apply rs_ctrl|]; exact B.
Qed.

Lemma handlePlotClick_shape (env : State) (event : PlotClick.t) :
  requests_spectrum env (handlePlotClick env event).
Proof.
  unfold handlePlotClick.
  destruct (falsy (selectedFile env)); [constructor|]. cbv zeta.
  destruct (match match PlotClick.points event with
                  | Some points => first_x points
                  | None => None
                  end with
            | Some x => Some x
            | None => PlotClick.p2c event
            end) as [rt_min|]; [|constructor].
  destruct (ltb rt_min 0); constructor.
Qed.

Lemma spectrum_path_shape (env : State) (p : Path) :
  requests_spectrum env (spectrum_path env p).
Proof.
  destruct p; cbn [spectrum_path];
    [apply handlePlotClick_shape | apply handleKeyDown_shape
     | apply updateSpectrumByIndex_shape].
Qed.

(** The state in which the task awaiting a spectrum ends. *)
Lemma spectrum_answer_sound (env : State)
      (res : FetchResult SpectrumResponse.t) (s : State)
      (waiting : list Pending) (l : list Obs) :
  scanList env = scanList s ->
  index_in_range s ->
  let after := spectrum_answer env res (mkConfig s waiting l) in
  inflight after = waiting /\
  scanList (state after) = scanList s /\
  index_in_range (state after) /\
  match res with
  | Ok data =>
      spectrumData (state after) = Some data /\
      index_tracks_spectrum (state after)
  | _ =>
      spectrumData (state after) = spectrumData s /\
      currentScanIdx (state after) = currentScanIdx s
  end.
Proof.
  intros E R. destruct res as [m|b|data|m]; cbn;
    try (repeat split; solve [reflexivity | exact R | apply R]).
  destruct (length_Z (scanList env) >? 0)%Z eqn:L.
  - apply length_Z_pos_nonempty in L.
    destruct (closestIdx_first_closest (SpectrumResponse.rt data) L)
      as (i & Hi & best & Hb & _).
    rewrite Hi. cbn. apply index_Some_range in Hb. rewrite E in Hb, Hi.
    repeat split; try (cbn; lia).
    intros _. exists data. cbn. split; [reflexivity|exact Hi].
  - cbn. repeat split; try solve [reflexivity | exact R | apply R].
    intro H0. exfalso. unfold index_in_range in R. cbn in H0.
    rewrite <- E in R.
    destruct (scanList env); [cbn in R; lia|discriminate L].
Qed.

(** Answering a spectrum request issued from a state with the index in
    range. *)
Lemma issued_sound (env : State) (rt_sec : Qc) (srv : Server) (s : State)
      (waiting : list Pending) (l : list Obs)
      (k : FetchResult SpectrumResponse.t -> Task) :
  (forall res c', start (k res) c' = spectrum_answer env res c') ->
  scanList env = scanList s ->
  index_in_range s ->
  exists after,
    deliver (List.length waiting) srv
      (mkConfig s (waiting ++ [Pend (GetSpectrum (selectedFile env) rt_sec) k])
                l)
    = Some after /\
    scanList (state after) = scanList s /\
    index_in_range (state after) /\
    match srv _ (GetSpectrum (selectedFile env) rt_sec) with
    | Ok data =>
        spectrumData (state after) = Some data /\
        index_tracks_spectrum (state after)
    | _ =>
        spectrumData (state after) = spectrumData s /\
        currentScanIdx (state after) = currentScanIdx s
    end.
Proof.
  intros Hk E R. rewrite deliver_last, Hk.
  eexists. split; [reflexivity|].
  apply (@spectrum_answer_sound env
           (srv _ (GetSpectrum (selectedFile env) rt_sec)) s waiting
           (l ++ [Completed (Any (GetSpectrum (selectedFile env) rt_sec))])
           E R).
Qed.

Lemma shape_sound (env : State) (t : Task) :
  requests_spectrum env t ->
  forall srv c,
    scanList env = scanList (state c) ->
    index_in_range (state c) ->
    path_sound env t srv c.
Proof.
  induction 1 as [|t _ IH|rt_sec|idx scan Hscan]; intros srv c E R.
  - unfold path_sound. cbn. repeat split; try apply R. now left.
  - exact (IH srv (mkConfig (with_ctrlPressed true (state c)) (inflight c)
                            (log c)) E R).
  - unfold path_sound. cbn [start].
    destruct (falsy (selectedFile env)) eqn:F.
    + rewrite fetchSpectrum_no_file by exact F. cbn.
      repeat split; try apply R. now left.
    + destruct (fetchSpectrum_start env rt_sec c F) as (k & Hs & Hk).
      rewrite Hs. cbn [state inflight log].
      repeat split; try apply R. right.
      destruct (@issued_sound env rt_sec srv (with_loading true (state c))
                  (inflight c)
                  (log c ++ [Issued (Any (GetSpectrum (selectedFile env) rt_sec))
                                    (with_loading true (state c))])
                  k Hk E R)
        as (after & Hd & Hrest).
      exists rt_sec, after. split; [requests_eq|].
      split; [exact Hd|exact Hrest].
  - assert (R' : index_in_range (with_currentScanIdx idx (state c))).
    { apply index_Some_range in Hscan. rewrite E in Hscan.
      unfold index_in_range. cbn. lia. }
    unfold path_sound. cbn [start perform setCurrentScanIdx].
    destruct (falsy (selectedFile env)) eqn:F.
    + rewrite fetchSpectrum_no_file by exact F. cbn.
      repeat split; try apply R'. now left.
    + destruct (fetchSpectrum_start env (Scan.rt scan)
                  (mkConfig (with_currentScanIdx idx (state c)) (inflight c)
                            (log c)) F)
        as (k & Hs & Hk).
      rewrite Hs. cbn [state inflight log emit].
      repeat split; try apply R'. right.
      destruct (@issued_sound env (Scan.rt scan) srv
                  (with_loading true (with_currentScanIdx idx (state c)))
                  (inflight c)
                  ((log c
                    ++ [Issued (Any (GetSpectrum (selectedFile env)
                                                 (Scan.rt scan)))
                               (with_loading true
                                  (with_currentScanIdx idx (state c)))])
                   ++ [Scrolled idx])
                  k Hk E R')
        as (after & Hd & Hrest).
      exists (Scan.rt scan), after. split; [requests_eq|].
      split; [exact Hd|exact Hrest].
Qed.


(** What the answer to a spectrum request does, whatever state it finds. *)
Lemma spectrum_answer_resumed (env : State)
      (res : FetchResult SpectrumResponse.t) (s : State)
      (waiting : list Pending) (l : list Obs) :
  let after := spectrum_answer env res (mkConfig s waiting l) in
  inflight after = waiting /\
  spectrum_resumed env res s (state after).
Proof.
  cbv zeta. unfold spectrum_resumed.
  destruct res as [m|b|data|m]; cbn [spectrum_answer];
    try (repeat split; reflexivity).
  destruct (scanList env) as [|s0 rest] eqn:E.
  - cbn. repeat split.
  - assert (L : s0 :: rest <> []) by discriminate.
    destruct (closestIdx_first_closest (SpectrumResponse.rt data) L)
      as (i & Hi & best & Hb & _).
    rewrite Hi. apply index_Some_range in Hb.
    replace (length_Z (s0 :: rest) >? 0)%Z with true
      by (symmetry; now apply length_Z_pos_nonempty).
    split; [reflexivity|]. split; [reflexivity|]. split; [reflexivity|].
    split; [reflexivity|exact Hb].
Qed.

(** An answer that finds the scan list of its handler leaves the index in
    range and, on success, on the scan closest to the spectrum. *)
Lemma resumed_in_range (env : State) (res : FetchResult SpectrumResponse.t)
      (live after : State) :
  spectrum_resumed env res live after ->
  scanList live = scanList env ->
  index_in_range live ->
  index_in_range after /\
  match res with
  | Ok _ => index_tracks_spectrum after
  | _ => True
  end.
Proof.
  unfold spectrum_resumed, index_in_range, index_tracks_spectrum.
  intros [HS H] E R.
  destruct res as [m|b|data|m];
    try (destruct H as [_ HI]; rewrite HS, HI; split; [exact R|exact I]).
  destruct H as [HD H]. rewrite HS, E.
  destruct (scanList env) as [|s0 rest] eqn:EL.
  - rewrite H. rewrite E in R. split; [exact R|].
    intro H0. cbn in R. lia.
  - destruct H as [HC HR]. split; [lia|].
    intros _. exists data. split; [exact HD|exact HC].
Qed.

(** A spectrum-requesting handler issues nothing, or one spectrum request
    whose answer resumes as [spectrum_answer] says. *)
Lemma shape_resumes (env : State) (t : Task) :
  requests_spectrum env t ->
  forall c,
    inflight (start t c) = inflight c \/
    exists rt_sec k,
      inflight (start t c)
      = inflight c ++ [Pend (GetSpectrum (selectedFile env) rt_sec) k] /\
      forall res c', start (k res) c' = spectrum_answer env res c'.
Proof.
  induction 1 as [|t _ IH|rt_sec|idx scan Hscan]; intro c.
  - left. reflexivity.
  - exact (IH (mkConfig (with_ctrlPressed true (state c)) (inflight c)
                        (log c))).
  - cbn [start]. destruct (falsy (selectedFile env)) eqn:F.
    + rewrite fetchSpectrum_no_file by exact F. left. reflexivity.
    + destruct (fetchSpectrum_start env rt_sec c F) as (k & Hs & Hk).
      rewrite Hs. right. exists rt_sec, k. split; [reflexivity|exact Hk].
  - cbn [start perform setCurrentScanIdx].
    destruct (falsy (selectedFile env)) eqn:F.
    + rewrite fetchSpectrum_no_file by exact F. left. reflexivity.
    + destruct (fetchSpectrum_start env (Scan.rt scan)
                  (mkConfig (with_currentScanIdx idx (state c)) (inflight c)
                            (log c)) F)
        as (k & Hs & Hk).
      rewrite Hs. right. exists (Scan.rt scan), k.
      split; [reflexivity|exact Hk].
Qed.
Lemma selection_overtakes_spectrum_run :
  exists c,
    run selection_overtakes_spectrum (idle initialState) = Some c /\
    scanList (state c) = [] /\
    currentScanIdx (state c) = 1%Z.
Proof.
  vm_compute. eexists. split; [reflexivity|]. split; reflexivity.
Qed.

(** C3, as amended. Take a spectrum-requesting path (chromatogram click,
    keyboard step, table-row click) whose handler belongs to a render with
    the live scan list, started with the index in [-1, len(scanList) - 1].
    Up to its request the handler leaves the scan list and the spectrum as
    they are and the index in range; a table-row click on a row of the list
    sets the index to that row.  Whenever the answer arrives, whatever has
    happened in between, it leaves the scan list it finds.  A failed answer
    leaves the spectrum and the index it finds: nothing is re-resolved.  A
    successful answer stores the spectrum and, when the scan list of the
    handler is not empty, sets the index to the first scan of the handler's
    list closest to the retention time of that spectrum, an index of the
    handler's list.  So when the answer finds the scan list of its handler
    and the index in range, as it does when it arrives before anything
    else, the index stays in range and after a success is the one the
    closest-scan resolution gives for the spectrum on display.  It does
    not in general: when a file is selected while the request is in
    flight, the successful answer writes an index of the old list into a
    state whose scan list is empty. *)
Theorem scan_index_along_spectrum_paths :
  (forall env p c,
      scanList env = scanList (state c) ->
      index_in_range (state c) ->
      let c1 := start (spectrum_path env p) c in
      scanList (state c1) = scanList (state c) /\
      spectrumData (state c1) = spectrumData (state c) /\
      index_in_range (state c1) /\
      (inflight c1 = inflight c \/
       exists rt_sec k,
         inflight c1
         = inflight c ++ [Pend (GetSpectrum (selectedFile env) rt_sec) k] /\
         forall c' n srv,
           awaited c' n (GetSpectrum (selectedFile env) rt_sec) k ->
           exists after,
             deliver n srv c' = Some after /\
             inflight after = remove_nth n (inflight c') /\
             spectrum_resumed env
               (srv _ (GetSpectrum (selectedFile env) rt_sec))
               (state c') (state after) /\
             (scanList (state c') = scanList env ->
              index_in_range (state c') ->
              index_in_range (state after) /\
              match srv _ (GetSpectrum (selectedFile env) rt_sec) with
              | Ok _ => index_tracks_spectrum (state after)
              | _ => True
              end)))
  /\
  (forall env idx c,
      (0 <= idx < length_Z (scanList env))%Z ->
      currentScanIdx (state (start (updateSpectrumByIndex env idx) c)) = idx)
  /\
  (forall env p srv c,
      scanList env = scanList (state c) ->
      index_in_range (state c) ->
      path_sound env (spectrum_path env p) srv c)
  /\
  (exists c,
      run selection_overtakes_spectrum (idle initialState) = Some c /\
      Reachable live_render c /\
      scanList (state c) = [] /\
      currentScanIdx (state c) = 1%Z /\
      ~ index_in_range (state c)).
Proof.
  split; [|split; [|split]].
  - intros env p c E R. cbv zeta.
    destruct (shape_sound (spectrum_path_shape env p) always_not_ok c E R)
      as (H1 & H2 & H3 & _).
    repeat (split; [assumption|]).
    destruct (shape_resumes (spectrum_path_shape env p) c)
      as [Hn|(rt_sec & k & Hi & Hk)]; [now left|right].
    exists rt_sec, k. split; [exact Hi|].
    intros c' n srv Haw. rewrite (deliver_awaited srv Haw), Hk.
    eexists. split; [reflexivity|].
    destruct (spectrum_answer_resumed env
                (srv _ (GetSpectrum (selectedFile env) rt_sec)) (state c')
                (remove_nth n (inflight c'))
                (log c' ++ [Completed (Any (GetSpectrum (selectedFile env)
                                                        rt_sec))]))
      as [Hw Hr].
    split; [exact Hw|]. split; [exact Hr|].
    intros E' R'. exact (resumed_in_range Hr E' R').
  - intros env idx c H.
    destruct (updateSpectrumByIndex_in_range env H) as (scan & _ & ->).
    cbn [start perform setCurrentScanIdx].
    destruct (falsy (selectedFile env)) eqn:F.
    + rewrite fetchSpectrum_no_file by exact F. reflexivity.
    + destruct (fetchSpectrum_start env (Scan.rt scan)
                  (mkConfig (with_currentScanIdx idx (state c)) (inflight c)
                            (log c)) F)
        as (k & Hs & _).
      rewrite Hs. reflexivity.
  - intros env p srv c E R.
    exact (shape_sound (spectrum_path_shape env p) srv c E R).
  - destruct selection_overtakes_spectrum_run as (c & Hrun & HS & HI).
    exists c. split; [exact Hrun|].
    split; [exact (run_reachable _ (reach_initial live_render) Hrun)|].
    split; [exact HS|]. split; [exact HI|].
    unfold index_in_range. rewrite HS, HI. cbn. lia.
Qed.

Lemma scan_index_along_spectrum_paths_witness :
  index_in_range
    (state (start (spectrum_path exploring (TableRowClick 1))
                  (idle exploring))).
Proof.
  destruct (proj1 scan_index_along_spectrum_paths exploring (TableRowClick 1)
                  (idle exploring)) as (_ & _ & H & _).
  - reflexivity.
  - unfold index_in_range. cbn. lia.
  - exact H.
Defined.

(** C3 as stated fails: from a state in which the index is in range and
    tracks the spectrum on display, a click on the second row of the scan
    table whose fetch fails leaves the index on the second row while the
    spectrum of the first scan stays on display. *)
Lemma row_click_failure_leaves_index_stale :
  index_in_range exploring /\
  index_tracks_spectrum exploring /\
  exists after,
    answered (spectrum_path exploring (TableRowClick 1)) always_not_ok
             (idle exploring) = Some after /\
    spectrumData (state after) = Some (spectrum_at 10) /\
    currentScanIdx (state after) = 1%Z /\
    ~ index_tracks_spectrum (state after).
Proof.
  split; [unfold index_in_range; cbn; lia|].
  split; [intros _; exists (spectrum_at 10); split; reflexivity|].
  eexists. split; [reflexivity|].
  split; [reflexivity|]. split; [reflexivity|].
  intro H. destruct H as (spectrum & Hsp & Hc); [vm_compute; discriminate|].
  injection Hsp as <-. vm_compute in Hc. discriminate Hc.
Qed.

(** ** Arrow keys with no scan selected *)

Lemma arrow_key_resolves_to_first_scan (env : State) (key : string) :
  key = "ArrowLeft" \/ key = "ArrowRight" ->
  scanList env <> [] ->
  currentScanIdx env = (-1)%Z ->
  handleKeyDown env key = updateSpectrumByIndex env 0.
Proof.
  intros K NE I. unfold handleKeyDown. rewrite I.
  assert (L : (length_Z (scanList env) =? 0)%Z = false).
  { destruct (scanList env); [congruence|reflexivity]. }
  assert (M : Z.min (length_Z (scanList env) - 1) (-1 + 1) = 0%Z).
  { destruct (scanList env); [congruence|].
    unfold length_Z. cbn [List.length]. lia. }
  rewrite L.
  destruct K as [-> | ->]; cbn [String.eqb Ascii.eqb Bool.eqb orb await];
    cbv zeta; [reflexivity|].
  rewrite M. reflexivity.
Qed.

(** C10, as amended. For a non-empty scan list with no scan selected,
    ArrowLeft and ArrowRight both resolve to index 0 and are not no-ops: the
    current scan index becomes 0 and, when a file is selected in the render
    the handler belongs to, a spectrum request for the retention time of
    scan 0 is issued; when no file is selected no request is issued. *)
Theorem arrow_keys_from_no_selection
  (env : State) (key : string) (c : Config) :
  key = "ArrowLeft" \/ key = "ArrowRight" ->
  scanList env <> [] ->
  currentScanIdx env = (-1)%Z ->
  handleKeyDown env key = updateSpectrumByIndex env 0 /\
  exists scan0,
    index (scanList env) 0 = Some scan0 /\
    let c1 := start (handleKeyDown env key) c in
    currentScanIdx (state c1) = 0%Z /\
    (falsy (selectedFile env) = false ->
     requests c1
     = requests c ++ [Any (GetSpectrum (selectedFile env) (Scan.rt scan0))]) /\
    (falsy (selectedFile env) = true -> requests c1 = requests c).
Proof.
  intros K NE I.
  pose proof (@arrow_key_resolves_to_first_scan env key K NE I) as HK.
  split; [exact HK|]. rewrite HK.
  assert (H0 : (0 <= 0 < length_Z (scanList env))%Z).
  { destruct (scanList env); [congruence|].
    unfold length_Z. cbn [List.length]. lia. }
  destruct (updateSpectrumByIndex_in_range env H0) as (scan0 & Hs & ->).
  exists scan0. split; [exact Hs|].
  cbn [start perform setCurrentScanIdx].
  destruct (falsy (selectedFile env)) eqn:F.
  - rewrite fetchSpectrum_no_file by exact F.
    split; [reflexivity|]. split; [discriminate|intros _; reflexivity].
  - destruct (fetchSpectrum_start env (Scan.rt scan0)
                (mkConfig (with_currentScanIdx 0 (state c)) (inflight c)
                          (log c)) F)
      as (k & Hst & _).
    rewrite Hst. unfold requests. cbn [state inflight log emit].
    split; [reflexivity|]. split; [|discriminate].
    intros _. now rewrite map_app.
Qed.

Lemma arrow_keys_from_no_selection_witness :
  handleKeyDown (with_currentScanIdx (-1) exploring) "ArrowLeft"
  = updateSpectrumByIndex (with_currentScanIdx (-1) exploring) 0 /\
  exists scan0,
    index (scanList (with_currentScanIdx (-1) exploring)) 0 = Some scan0 /\
    let c1 := start (handleKeyDown (with_currentScanIdx (-1) exploring)
                                   "ArrowLeft")
                    (idle (with_currentScanIdx (-1) exploring)) in
    currentScanIdx (state c1) = 0%Z /\
    (falsy (selectedFile (with_currentScanIdx (-1) exploring)) = false ->
     requests c1
     = requests (idle (with_currentScanIdx (-1) exploring))
       ++ [Any (GetSpectrum (selectedFile (with_currentScanIdx (-1) exploring))
                            (Scan.rt scan0))]) /\
    (falsy (selectedFile (with_currentScanIdx (-1) exploring)) = true ->
     requests c1 = requests (idle (with_currentScanIdx (-1) exploring))).
Proof.
  apply (@arrow_keys_from_no_selection (with_currentScanIdx (-1) exploring)
           "ArrowLeft" (idle (with_currentScanIdx (-1) exploring))).
  - left. reflexivity.
  - discriminate.
  - reflexivity.
Defined.

(** C10 as stated fails: a non-empty scan list does not imply a request.
    When an upload is started while the scan list of an earlier file is on
    its way, that list arrives with no file selected and no scan selected;
    ArrowRight then sets the index to 0 and issues no spectrum request. *)
Lemma arrow_key_without_file_fetches_nothing :
  exists c,
    upload_overtaken = Some c /\
    scanList (state c) <> [] /\
    currentScanIdx (state c) = (-1)%Z /\
    requests c = [Any (GetTic "a.mzML"); Any (Upload "b.mzML")] /\
    let c1 := start (handleKeyDown (state c) "ArrowRight") c in
    currentScanIdx (state c1) = 0%Z /\
    requests c1 = [Any (GetTic "a.mzML"); Any (Upload "b.mzML")].
Proof.
  eexists. split; [reflexivity|].
  split; [discriminate|]. repeat split.
Qed.

(** ** Selecting a new file *)

(** Goes through the observations of an explicit list. *)
Ltac each_observation :=
  repeat match goal with
         | H : In _ _ |- _ => cbn [In app] in H
         | H : _ \/ _ |- _ => destruct H
         | H : False |- _ => destruct H
         | H : Issued _ _ = Issued _ _ |- _ => injection H as <- <-
         | H : _ = Issued _ _ |- _ => discriminate H
         end.

Ltac file_fetches :=
  let r := fresh "r" in
  let s := fresh "s" in
  let Hin := fresh "Hin" in
  let Hkind := fresh "Hkind" in
  intros r s Hin Hkind; each_observation;
  first [discriminate Hkind | repeat split].

Lemma handleFileUpload_answered (file : string) (srv : Server) (c : Config) :
  exists after new,
    answered (handleFileUpload (Some file)) srv c = Some after /\
    log after = log c ++ new /\
    file_fetches_from (reset_for_new_file (state c)) new /\
    forall data,
      srv _ (Upload file) = Ok data ->
      requests after
      = requests c ++ [Any (GetTic (UploadResponse.filepath data))] /\
      (exists s,
          In (Issued (Any (GetTic (UploadResponse.filepath data))) s) new) /\
      forall srv2,
      exists after2 new2,
        deliver (List.length (inflight c)) srv2 after = Some after2 /\
        log after2 = log after ++ new2 /\
        file_fetches_from (reset_for_new_file (state c)) new2 /\
        requests after2
        = requests c ++ [Any (GetScanList (UploadResponse.filepath data))] /\
        exists s,
          In (Issued (Any (GetScanList (UploadResponse.filepath data))) s)
             new2.
Proof.
  unfold answered. cbn [handleFileUpload start perform setSelectedFile
    setTicData setChromData setSpectrumData setScanList setCurrentScanIdx
    setLoading setError try_catch_finally try_catch finally state inflight
    log].
  rewrite deliver_last.
  destruct (srv UploadResponse.t (Upload file)) as [m|[m|d]|data|m].
  1, 2, 3, 5:
    eexists; eexists; (split; [reflexivity|]); cbn; rewrite <- app_assoc;
    (split; [reflexivity|]); (split; [file_fetches|discriminate]).
  eexists. eexists. split; [reflexivity|]. cbn.
  rewrite <- !app_assoc. split; [reflexivity|].
  split; [file_fetches|].
  intros data' E. injection E as <-.
  split; [requests_eq|].
  split; [eexists; cbn; eauto|].
  intro srv2. rewrite deliver_last.
  destruct (srv2 ChromatogramResponse.t
                 (GetTic (UploadResponse.filepath data)))
    as [m|[m|d]|tic|m];
    eexists; eexists; (split; [reflexivity|]); cbn;
    rewrite <- ?app_assoc; (split; [reflexivity|]);
    (split; [file_fetches|]);
    (split; [requests_eq|]);
    eexists; cbn; eauto.
Qed.









(** ** Ordering of the chromatogram and scan-list requests *)

(** C4 fails on the demo path: once the demo path is known, the request for
    the chromatogram and the request for the scan list are in flight
    together. *)
Lemma loadDemoData_fetches_overlap :
  exists after,
    answered loadDemoData healthy (idle initialState) = Some after /\
    requests after
    = [Any (GetTic "demo.mzML"); Any (GetScanList "demo.mzML")].
Proof. eexists. split; reflexivity. Qed.

(** The same on the manual path and in the file browser of the earlier
    revision. *)
Lemma manual_and_browser_fetches_overlap :
  requests (start (handleManualPathSubmit (path_typed "a.mzML"))
                  (idle (path_typed "a.mzML")))
  = [Any (GetTic "a.mzML"); Any (GetScanList "a.mzML")] /\
  requests (start (Browser.handleFileSelect "/data" "a.mzML")
                  (idle initialState))
  = [Any (GetTic "/data/a.mzML"); Any (GetScanList "/data/a.mzML")].
Proof. split; reflexivity. Qed.

(** The upload path keeps the order: the scan-list request leaves only when
    the chromatogram request has been answered, whatever the answer. *)
Lemma upload_fetches_in_sequence (file : string) (srv srv2 : Server)
      (c : Config) (data : UploadResponse.t) :
  srv _ (Upload file) = Ok data ->
  exists after after2,
    answered (handleFileUpload (Some file)) srv c = Some after /\
    requests after
    = requests c ++ [Any (GetTic (UploadResponse.filepath data))] /\
    deliver (List.length (inflight c)) srv2 after = Some after2 /\
    requests after2
    = requests c ++ [Any (GetScanList (UploadResponse.filepath data))].
Proof.
  intro E.
  destruct (handleFileUpload_answered file srv c)
    as (after & new & Ha & _ & _ & Hok).
  destruct (Hok data E) as (Hr & _ & Hnext).
  destruct (Hnext srv2) as (after2 & new2 & Hd & _ & _ & Hr2 & _).
  exists after, after2. repeat split; assumption.
Qed.

(** The manual path clears none of the variables its sibling paths clear:
    it writes the file name and, inside [fetchTic], the zoom window of the
    chromatogram pane. *)
Lemma manual_path_resets_nothing :
  let env := with_manualPath "b.mzML" exploring in
  let after := start (handleManualPathSubmit env) (idle env) in
  requests after = [Any (GetTic "b.mzML"); Any (GetScanList "b.mzML")] /\
  selectedFile (state after) = "b.mzML" /\
  scanList (state after) = scanList exploring /\
  currentScanIdx (state after) = 0%Z /\
  spectrumData (state after) = Some (spectrum_at 10) /\
  chromData (state after) = Some ramp /\
  chromXRange (state after) = None.
Proof. cbv zeta. repeat split. Qed.
(** * Further properties *)

(** ** Resolving a scan's own retention time *)

Lemma distance_self (scan : Scan.t) : distance (Scan.rt scan) scan = 0.
Proof.
  unfold distance. replace (Scan.rt scan - Scan.rt scan) with 0 by ring.
  apply Qcabs_pos. apply Qcle_refl.
Qed.

Lemma distance_zero (target : Qc) (scan : Scan.t) :
  distance target scan = 0 -> Scan.rt scan = target.
Proof.
  unfold distance. intro H. apply Qcabs_null in H.
  replace (Scan.rt scan) with (Scan.rt scan - target + target) by ring.
  rewrite H. ring.
Qed.

Lemma closestIdx_own_time (scanList : list Scan.t) (i : Z) (scan : Scan.t) :
  index scanList i = Some scan ->
  exists j first,
    closestIdx scanList (Scan.rt scan) = Some j /\
    index scanList j = Some first /\
    Scan.rt first = Scan.rt scan /\
    (j <= i)%Z /\
    (forall k s, (k < j)%Z -> index scanList k = Some s ->
                 Scan.rt s <> Scan.rt scan).
Proof.
  intro Hi.
  assert (NE : scanList <> []).
  { intros ->. apply index_Some_range in Hi. cbn in Hi. lia. }
  destruct (closestIdx_first_closest (Scan.rt scan) NE)
    as (j & Hj & first & Hf & Hle & Hlt).
  pose proof (index_Some_range _ _ Hi) as Ri.
  assert (Z0 : distance (Scan.rt scan) first = 0).
  { apply Qcle_antisym.
    - rewrite <- (distance_self scan). apply (Hle i); [lia|exact Hi].
    - apply Qcabs_nonneg. }
  exists j, first. repeat split; try assumption.
  - now apply distance_zero.
  - destruct (Z.le_gt_cases j i) as [L|G]; [exact L|].
    exfalso. specialize (Hlt i scan G Hi).
    rewrite Z0, distance_self in Hlt.
    exact (Qclt_not_eq _ _ Hlt eq_refl).
  - intros k s Hk Hs E. specialize (Hlt k s Hk Hs).
    rewrite Z0 in Hlt. unfold distance in Hlt. rewrite E in Hlt.
    fold (distance (Scan.rt scan) scan) in Hlt. rewrite distance_self in Hlt.
    exact (Qclt_not_eq _ _ Hlt eq_refl).
Qed.

(** X1. Resolving the retention time of the scan at index [i] returns the
    first scan of the list with that retention time: an index not after
    [i], and [i] itself when no earlier scan has the same time. *)
Theorem closest_scan_of_own_time
  (scanList : list Scan.t) (i : Z) (scan : Scan.t) :
  index scanList i = Some scan ->
  (exists j first,
      closestIdx scanList (Scan.rt scan) = Some j /\
      index scanList j = Some first /\
      Scan.rt first = Scan.rt scan /\
      (j <= i)%Z /\
      (forall k s, (k < j)%Z -> index scanList k = Some s ->
                   Scan.rt s <> Scan.rt scan)) /\
  ((forall k s, (k < i)%Z -> index scanList k = Some s ->
                Scan.rt s <> Scan.rt scan) ->
   closestIdx scanList (Scan.rt scan) = Some i).
Proof.
  intro Hi.
  destruct (closestIdx_own_time scanList i Hi)
    as (j & first & Hj & Hf & Hrt & Hle & Hbefore).
  split; [exists j, first; repeat split; assumption|].
  intro Hdistinct.
  destruct (Z.eq_dec j i) as [->|Hne]; [exact Hj|].
  exfalso. apply (Hdistinct j first); [lia|exact Hf|exact Hrt].
Qed.

Lemma closest_scan_of_own_time_witness :
  closestIdx [scan_at 0 10; scan_at 1 20; scan_at 2 20] (Scan.rt (scan_at 1 20))
  = Some 1%Z.
Proof.
  apply (proj2 (@closest_scan_of_own_time
                  [scan_at 0 10; scan_at 1 20; scan_at 2 20] 1 (scan_at 1 20)
                  eq_refl)).
  intros k s Hk Hs. pose proof (index_Some_range _ _ Hs) as R.
  assert (k = 0%Z) by lia. subst k. injection Hs as <-.
  intro E. discriminate E.
Defined.

(** What a click on row [idx] leaves once the spectrum request is answered
    with success. *)
Lemma row_click_answered (env : State) (idx : Z) (scan : Scan.t)
      (srv : Server) (c : Config) (data : SpectrumResponse.t) (j : Z) :
  index (scanList env) idx = Some scan ->
  falsy (selectedFile env) = false ->
  srv _ (GetSpectrum (selectedFile env) (Scan.rt scan)) = Ok data ->
  closestIdx (scanList env) (SpectrumResponse.rt data) = Some j ->
  exists after,
    answered (updateSpectrumByIndex env idx) srv c = Some after /\
    state after
    = spectrum_shown data (Some j)
        (with_loading true (with_currentScanIdx idx (state c))) /\
    requests after = requests c.
Proof.
  intros Hi F R Hj.
  pose proof (index_Some_range _ _ Hi) as Ri.
  destruct (updateSpectrumByIndex_in_range env Ri) as (scan' & Hs' & ->).
  rewrite Hi in Hs'. injection Hs' as <-.
  unfold answered. cbn [start perform setCurrentScanIdx].
  destruct (fetchSpectrum_start env (Scan.rt scan)
              (mkConfig (with_currentScanIdx idx (state c)) (inflight c)
                        (log c)) F)
    as (k & Hs & Hk).
  rewrite Hs. unfold emit. cbn [state inflight log].
  rewrite deliver_last, Hk, R. unfold spectrum_answer.
  assert (L : (length_Z (scanList env) >? 0)%Z = true)
    by (apply Z.gtb_lt; lia).
  rewrite L, Hj. eexists. split; [reflexivity|]. split; reflexivity.
Qed.

(** X2. A click on a row of the scan table whose request is answered with
    the spectrum at that scan's own retention time leaves the current scan
    index on the first scan with that retention time: on the clicked row
    when no earlier scan shares its time, on an earlier row otherwise. *)
Theorem row_click_round_trip
  (env : State) (idx : Z) (scan : Scan.t) (srv : Server) (c : Config)
  (data : SpectrumResponse.t) :
  index (scanList env) idx = Some scan ->
  falsy (selectedFile env) = false ->
  srv _ (GetSpectrum (selectedFile env) (Scan.rt scan)) = Ok data ->
  SpectrumResponse.rt data = Scan.rt scan ->
  exists after first,
    answered (updateSpectrumByIndex env idx) srv c = Some after /\
    spectrumData (state after) = Some data /\
    index (scanList env) (currentScanIdx (state after)) = Some first /\
    Scan.rt first = Scan.rt scan /\
    (currentScanIdx (state after) <= idx)%Z /\
    ((forall k s, (k < idx)%Z -> index (scanList env) k = Some s ->
                  Scan.rt s <> Scan.rt scan) ->
     currentScanIdx (state after) = idx).
Proof.
  intros Hi F R E.
  destruct (closestIdx_own_time (scanList env) idx Hi)
    as (j & first & Hj & Hf & Hrt & Hle & Hbefore).
  rewrite <- E in Hj.
  destruct (@row_click_answered env idx scan srv c data j Hi F R Hj)
    as (after & Ha & Hst & _).
  exists after, first. rewrite Hst. cbn.
  repeat split; try assumption.
  intro Hdistinct.
  destruct (Z.eq_dec j idx) as [->|Hne]; [reflexivity|].
  exfalso. apply (Hdistinct j first); [lia|exact Hf|exact Hrt].
Qed.

Lemma row_click_round_trip_witness :
  exists after first,
    answered (updateSpectrumByIndex exploring 1) healthy (idle exploring)
    = Some after /\
    spectrumData (state after) = Some (spectrum_at 20) /\
    index (scanList exploring) (currentScanIdx (state after)) = Some first /\
    Scan.rt first = Scan.rt (scan_at 1 20) /\
    (currentScanIdx (state after) <= 1)%Z /\
    ((forall k s, (k < 1)%Z -> index (scanList exploring) k = Some s ->
                  Scan.rt s <> Scan.rt (scan_at 1 20)) ->
     currentScanIdx (state after) = 1%Z).
Proof.
  apply (@row_click_round_trip exploring 1 (scan_at 1 20) healthy
           (idle exploring) (spectrum_at 20));
    reflexivity.
Defined.

(** ** Keyboard steps *)

Lemma arrow_right_target (env : State) :
  scanList env <> [] ->
  handleKeyDown env "ArrowRight"
  = let nextIdx :=
      Z.min (length_Z (scanList env) - 1) (currentScanIdx env + 1) in
    if negb (nextIdx =? currentScanIdx env)%Z
    then updateSpectrumByIndex env nextIdx else Done.
Proof.
  intro NE. unfold handleKeyDown.
  assert (L : (length_Z (scanList env) =? 0)%Z = false)
    by (destruct (scanList env); [congruence|reflexivity]).
  rewrite L. reflexivity.
Qed.

Lemma arrow_left_target (env : State) :
  scanList env <> [] ->
  handleKeyDown env "ArrowLeft"
  = let prevIdx := Z.max 0 (currentScanIdx env - 1) in
    if negb (prevIdx =? currentScanIdx env)%Z
    then updateSpectrumByIndex env prevIdx else Done.
Proof.
  intro NE. unfold handleKeyDown.
  assert (L : (length_Z (scanList env) =? 0)%Z = false)
    by (destruct (scanList env); [congruence|reflexivity]).
  rewrite L. reflexivity.
Qed.

(** What a step to row [idx] does at once. *)
Lemma step_to_row (env : State) (idx : Z) (c : Config) :
  (0 <= idx < length_Z (scanList env))%Z ->
  exists scan,
    index (scanList env) idx = Some scan /\
    let c1 := start (updateSpectrumByIndex env idx) c in
    currentScanIdx (state c1) = idx /\
    (falsy (selectedFile env) = false ->
     requests c1
     = requests c ++ [Any (GetSpectrum (selectedFile env) (Scan.rt scan))]) /\
    (falsy (selectedFile env) = true -> requests c1 = requests c).
Proof.
  intro R.
  destruct (updateSpectrumByIndex_in_range env R) as (scan & Hs & ->).
  exists scan. split; [exact Hs|].
  cbn [start perform setCurrentScanIdx].
  destruct (falsy (selectedFile env)) eqn:F.
  - rewrite fetchSpectrum_no_file by exact F.
    split; [reflexivity|]. split; [discriminate|intros _; reflexivity].
  - destruct (fetchSpectrum_start env (Scan.rt scan)
                (mkConfig (with_currentScanIdx idx (state c)) (inflight c)
                          (log c)) F)
      as (k & Hst & _).
    rewrite Hst. split; [reflexivity|]. split; [|discriminate].
    intros _. requests_eq.
Qed.

(** X3. With a scan of the list selected in the render of the handler,
    ArrowRight sets the index to the next scan and ArrowLeft to the
    previous one; when a file is selected in that render the spectrum of
    that scan is requested, and when no file is selected the index is set
    and nothing is requested.  ArrowRight on the last scan, ArrowLeft on
    the first one, and either key with an empty scan list change nothing
    at all. *)
Theorem keyboard_steps_are_clamped (env : State) (c : Config) :
  (scanList env = [] ->
   start (handleKeyDown env "ArrowRight") c = c /\
   start (handleKeyDown env "ArrowLeft") c = c) /\
  (currentScanIdx env = (length_Z (scanList env) - 1)%Z ->
   start (handleKeyDown env "ArrowRight") c = c) /\
  (currentScanIdx env = 0%Z ->
   start (handleKeyDown env "ArrowLeft") c = c) /\
  ((0 <= currentScanIdx env < length_Z (scanList env) - 1)%Z ->
   exists scan,
     index (scanList env) (currentScanIdx env + 1) = Some scan /\
     let c1 := start (handleKeyDown env "ArrowRight") c in
     currentScanIdx (state c1) = (currentScanIdx env + 1)%Z /\
     (falsy (selectedFile env) = false ->
      requests c1
      = requests c ++ [Any (GetSpectrum (selectedFile env) (Scan.rt scan))]) /\
     (falsy (selectedFile env) = true -> requests c1 = requests c)) /\
  ((0 < currentScanIdx env < length_Z (scanList env))%Z ->
   exists scan,
     index (scanList env) (currentScanIdx env - 1) = Some scan /\
     let c1 := start (handleKeyDown env "ArrowLeft") c in
     currentScanIdx (state c1) = (currentScanIdx env - 1)%Z /\
     (falsy (selectedFile env) = false ->
      requests c1
      = requests c ++ [Any (GetSpectrum (selectedFile env) (Scan.rt scan))]) /\
     (falsy (selectedFile env) = true -> requests c1 = requests c)).
Proof.
  split; [|split; [|split; [|split]]].
  - intro E. unfold handleKeyDown. rewrite E. split; reflexivity.
  - intro E. destruct (scanList env) as [|s0 l] eqn:EL.
    + unfold handleKeyDown. rewrite EL. reflexivity.
    + rewrite arrow_right_target by congruence. cbv zeta.
      rewrite EL, E, Z.min_l by lia. rewrite Z.eqb_refl. reflexivity.
  - intro E. destruct (scanList env) as [|s0 l] eqn:EL.
    + unfold handleKeyDown. rewrite EL. reflexivity.
    + rewrite arrow_left_target by congruence. cbv zeta.
      rewrite E. reflexivity.
  - intro R.
    assert (NE : scanList env <> [])
      by (intro E; rewrite E in R; cbn in R; lia).
    rewrite arrow_right_target by exact NE. cbv zeta.
    rewrite Z.min_r by lia.
    destruct (Z.eqb_spec (currentScanIdx env + 1) (currentScanIdx env));
      [lia|]. cbn [negb].
    destruct (@step_to_row env (currentScanIdx env + 1) c)
      as (scan & Hs & Hi & Hr & Hn); [lia|].
    exists scan. split; [exact Hs|]. repeat split; assumption.
  - intro R.
    assert (NE : scanList env <> [])
      by (intro E; rewrite E in R; cbn in R; lia).
    rewrite arrow_left_target by exact NE. cbv zeta.
    rewrite Z.max_r by lia.
    destruct (Z.eqb_spec (currentScanIdx env - 1) (currentScanIdx env));
      [lia|]. cbn [negb].
    destruct (@step_to_row env (currentScanIdx env - 1) c)
      as (scan & Hs & Hi & Hr & Hn); [lia|].
    exists scan. split; [exact Hs|]. repeat split; assumption.
Qed.

Lemma keyboard_steps_are_clamped_witness :
  exists scan,
    index (scanList exploring) (currentScanIdx exploring + 1) = Some scan /\
    let c1 := start (handleKeyDown exploring "ArrowRight") (idle exploring) in
    currentScanIdx (state c1) = (currentScanIdx exploring + 1)%Z /\
    (falsy (selectedFile exploring) = false ->
     requests c1
     = requests (idle exploring)
       ++ [Any (GetSpectrum (selectedFile exploring) (Scan.rt scan))]) /\
    (falsy (selectedFile exploring) = true ->
     requests c1 = requests (idle exploring)).
Proof.
  apply (proj1 (proj2 (proj2 (proj2 (@keyboard_steps_are_clamped exploring
                                       (idle exploring)))))).
  cbn. lia.
Defined.
(** ** The y-axis bound of a zoomed pane *)

Lemma leb_le (a b : Qc) : leb a b = true <-> a <= b.
Proof.
  unfold leb. rewrite Qcle_alt. destruct (a ?= b); split; congruence.
Qed.

Lemma Qc_0_lt_1 : 0 < 1.
Proof. reflexivity. Qed.

Lemma Qc_0_le_1 : 0 <= 1.
Proof. apply Qclt_le_weak, Qc_0_lt_1. Qed.

Lemma Math_max_l (a b : Qc) : a <= Math_max a b.
Proof.
  unfold Math_max. destruct (ltb a b) eqn:L.
  - apply Qclt_le_weak. now apply ltb_lt.
  - apply Qcle_refl.
Qed.

Lemma Math_max_r (a b : Qc) : b <= Math_max a b.
Proof.
  unfold Math_max. destruct (ltb a b) eqn:L.
  - apply Qcle_refl.
  - now apply ltb_ge.
Qed.

Lemma Math_max_either (a b : Qc) : Math_max a b = a \/ Math_max a b = b.
Proof. unfold Math_max. destruct (ltb a b); auto. Qed.

(** The running maximum from [a] over [l]. *)
Lemma running_max_bounds (l : list Qc) (a : Qc) :
  a <= fold_left Math_max l a /\
  (forall v, In v l -> v <= fold_left Math_max l a) /\
  (fold_left Math_max l a = a \/ In (fold_left Math_max l a) l).
Proof.
  revert a. induction l as [|x l IH]; intro a; cbn [fold_left].
  - split; [apply Qcle_refl|]. split; [intros v []|now left].
  - destruct (IH (Math_max a x)) as (Ha & Hall & Hin).
    split; [eapply Qcle_trans; [apply Math_max_l|exact Ha]|].
    split.
    + intros v [<-|Hv]; [|now apply Hall].
      eapply Qcle_trans; [apply Math_max_r|exact Ha].
    + destruct Hin as [E|Hin]; [rewrite E|right; now right].
      destruct (Math_max_either a x) as [E'|E']; rewrite E';
        [now left|right; now left].
Qed.

Lemma index_beyond {A : Type} (arr : list A) (i : Z) :
  (length_Z arr <= i)%Z -> index arr i = None.
Proof.
  unfold index, length_Z. intro H.
  destruct (i <? 0)%Z; [reflexivity|]. apply nth_error_None. lia.
Qed.

Section VisibleMax.

Variables lo hi : Qc.

Let visit (ints : list Qc) (i : Z) (mz : Qc) (max : Qc) : Qc :=
  if leb lo mz && leb mz hi
  then
    match index ints i with
    | Some intensity => if ltb max intensity then intensity else max
    | None => max
    end
  else max.

Lemma visit_past_ints (ints mzs : list Qc) (i : Z) (max : Qc) :
  (length_Z ints <= i)%Z -> foldi (visit ints) i mzs max = max.
Proof.
  revert i max. induction mzs as [|mz mzs IH]; intros i max H; [reflexivity|].
  cbn [foldi]. rewrite IH by lia. unfold visit.
  rewrite index_beyond by exact H. now destruct (leb lo mz && leb mz hi).
Qed.

Lemma visit_running_max (mzs ints_pre ints : list Qc) (max : Qc) :
  foldi (visit (ints_pre ++ ints)) (length_Z ints_pre) mzs max
  = fold_left Math_max (visible_intensities lo hi mzs ints) max.
Proof.
  revert ints_pre ints max.
  induction mzs as [|mz mzs IH]; intros ints_pre ints max; [reflexivity|].
  destruct ints as [|v ints].
  - rewrite visit_past_ints by (rewrite app_nil_r; lia). reflexivity.
  - cbn [foldi]. specialize (IH (ints_pre ++ [v]) ints).
    rewrite length_Z_app in IH. change (length_Z [v]) with 1%Z in IH.
    rewrite <- app_assoc in IH. cbn [app] in IH. rewrite IH.
    unfold visit at 1. rewrite index_middle.
    unfold visible_intensities. cbn [combine filter fst].
    destruct (leb lo mz && leb mz hi); reflexivity.
Qed.

Lemma zoomed_bound_is_running_max (mzs ints : list Qc) :
  ints <> [] ->
  calculateMaxVisibleY mzs ints (Some (lo, hi))
  = if ltb 0 (fold_left Math_max (visible_intensities lo hi mzs ints) 0)
    then fold_left Math_max (visible_intensities lo hi mzs ints) 0
    else 1.
Proof.
  intro NE. destruct ints as [|v vs]; [congruence|].
  rewrite <- (visit_running_max mzs [] (v :: vs) 0).
  change (length_Z []) with 0%Z. cbn [app].
  rewrite <- (for_loop_foldi mzs (visit (v :: vs)) 0).
  reflexivity.
Qed.

End VisibleMax.

(** X4. With a zoom window, the y-axis bound is positive, is at least the
    intensity of every peak inside the window, and is either 1 or the
    intensity of a peak inside the window; it is 1 when no peak inside the
    window has a positive intensity, in particular when the window holds no
    peak or the spectrum is empty. *)
Theorem zoomed_bound_covers_visible_peaks (mzs ints : list Qc) (lo hi : Qc) :
  let bound := calculateMaxVisibleY mzs ints (Some (lo, hi)) in
  let visible := visible_intensities lo hi mzs ints in
  0 < bound /\
  (forall v, In v visible -> v <= bound) /\
  (bound = 1 \/ In bound visible) /\
  ((forall v, In v visible -> v <= 0) -> bound = 1).
Proof.
  cbv zeta. destruct ints as [|v0 vs].
  - unfold visible_intensities. rewrite combine_nil. cbn.
    split; [apply Qc_0_lt_1|]. split; [intros v []|]. split; auto.
  - rewrite zoomed_bound_is_running_max by discriminate.
    destruct (running_max_bounds (visible_intensities lo hi mzs (v0 :: vs)) 0)
      as (H0 & Hall & Hin).
    destruct (ltb 0 (fold_left Math_max
                       (visible_intensities lo hi mzs (v0 :: vs)) 0)) eqn:L.
    + apply ltb_lt in L. split; [exact L|]. split; [exact Hall|].
      split.
      * destruct Hin as [E|Hin]; [|now right].
        rewrite E in L. exfalso. exact (Qclt_not_eq _ _ L eq_refl).
      * intro Hneg. exfalso. destruct Hin as [E|Hin].
        -- rewrite E in L. exact (Qclt_not_eq _ _ L eq_refl).
        -- exact (Qcle_not_lt _ _ (Hneg _ Hin) L).
    + apply ltb_ge in L. split; [apply Qc_0_lt_1|]. split.
      * intros v Hv. eapply Qcle_trans; [apply Hall, Hv|].
        eapply Qcle_trans; [exact L|apply Qc_0_le_1].
      * split; auto.
Qed.

(** ** The y-axis bound of an unzoomed pane *)

Lemma zoomed_bound_covers_visible_peaks_witness :
  calculateMaxVisibleY [num 100; num 200] [num 5; num 8]
                       (Some (num 300, num 400)) = 1.
Proof.
  apply (proj2 (proj2 (proj2 (zoomed_bound_covers_visible_peaks
                                [num 100; num 200] [num 5; num 8]
                                (num 300) (num 400))))).
  intros v H. destruct H.
Defined.

Lemma or_one_cases (x : Qc) :
  (x = 0 /\ or_one x = 1) \/ (x <> 0 /\ or_one x = x).
Proof.
  unfold or_one. destruct (x ?= 0) eqn:C.
  - left. split; [now apply Qceq_alt|reflexivity].
  - right. split; [|reflexivity]. intro E. apply Qceq_alt in E. congruence.
  - right. split; [|reflexivity]. intro E. apply Qceq_alt in E. congruence.
Qed.

Lemma max_of_bounds (v : Qc) (vs : list Qc) :
  (forall x, In x (v :: vs) -> x <= max_of v vs) /\ In (max_of v vs) (v :: vs).
Proof.
  unfold max_of. destruct (running_max_bounds vs v) as (Hv & Hall & Hin).
  split.
  - intros x [<-|Hx]; [exact Hv|now apply Hall].
  - destruct Hin as [E|Hin]; [left; now symmetry|now right].
Qed.



Lemma filter_all {A : Type} (f : A -> bool) (l : list A) :
  (forall x, In x l -> f x = true) -> filter f l = l.
Proof.
  induction l as [|x l IH]; intro H; [reflexivity|].
  cbn [filter]. rewrite (H x (or_introl eq_refl)), IH; [reflexivity|].
  intros y Hy. apply H. now right.
Qed.

Lemma map_snd_combine (l1 l2 : list Qc) :
  List.length l1 = List.length l2 -> map snd (combine l1 l2) = l2.
Proof.
  revert l2. induction l1 as [|a l1 IH]; intros [|b l2] H;
    try discriminate; [reflexivity|].
  cbn. f_equal. apply IH. now injection H.
Qed.

(** X6. A zoom window that holds every peak gives the same y-axis bound as
    no zoom window, for index-aligned arrays with at least one non-negative
    intensity. *)
Theorem full_window_bound_agrees (mzs ints : list Qc) (lo hi : Qc) :
  List.length mzs = List.length ints ->
  (forall mz, In mz mzs -> lo <= mz /\ mz <= hi) ->
  (exists v, In v ints /\ 0 <= v) ->
  calculateMaxVisibleY mzs ints (Some (lo, hi))
  = calculateMaxVisibleY mzs ints None.
Proof.
  intros L W (x & Hx & Hx0).
  destruct ints as [|v vs]; [destruct Hx|].
  rewrite zoomed_bound_is_running_max by discriminate.
  assert (V : visible_intensities lo hi mzs (v :: vs) = v :: vs).
  { unfold visible_intensities. rewrite filter_all.
    - now apply map_snd_combine.
    - intros [mz int] Hin. apply in_combine_l in Hin. cbn [fst].
      destruct (W mz Hin) as [H1 H2].
      apply leb_le in H1. apply leb_le in H2. now rewrite H1, H2. }
  rewrite V. unfold calculateMaxVisibleY.
  destruct (max_of_bounds v vs) as (Hall & Hin).
  destruct (running_max_bounds (v :: vs) 0) as (H0 & Hall0 & Hin0).
  assert (M0 : 0 <= max_of v vs)
    by (eapply Qcle_trans; [exact Hx0|apply Hall, Hx]).
  assert (E : fold_left Math_max (v :: vs) 0 = max_of v vs).
  { apply Qcle_antisym.
    - destruct Hin0 as [-> | Hin0]; [exact M0|apply Hall, Hin0].
    - apply Hall0, Hin. }
  rewrite E.
  destruct (or_one_cases (max_of v vs)) as [[Z ->]|[Z ->]].
  - rewrite Z. reflexivity.
  - destruct (ltb 0 (max_of v vs)) eqn:LT; [reflexivity|].
    apply ltb_ge in LT. exfalso. apply Z. now apply Qcle_antisym.
Qed.

Lemma full_window_bound_agrees_witness :
  calculateMaxVisibleY [num 100; num 200] [num 5; num 8]
                       (Some (num 50, num 250))
  = calculateMaxVisibleY [num 100; num 200] [num 5; num 8] None.
Proof.
  apply full_window_bound_agrees.
  - reflexivity.
  - intros mz [<-|[<-|[]]]; split; discriminate.
  - exists (num 5). split; [now left|discriminate].
Defined.

(** ** The mass window and the extracted chromatogram *)

Lemma Qc_1000000_pos : 0 < / num 1000000.
Proof. reflexivity. Qed.

(** X7. The mass window is centred on the target m/z, its half-width is
    target times ppm over a million, and for a non-negative target and a
    non-negative tolerance it contains the target; with the initial target
    150 and tolerance 200 it is [149.97, 150.03]. *)
Theorem mass_window_is_centred (s : State) :
  minMzVal s + maxMzVal s = targetMz s + targetMz s /\
  maxMzVal s - minMzVal s = dMz s + dMz s /\
  (0 <= targetMz s -> 0 <= ppmTol s ->
   minMzVal s <= targetMz s /\ targetMz s <= maxMzVal s) /\
  minMzVal initialState = Q2Qc (14997 # 100) /\
  maxMzVal initialState = Q2Qc (15003 # 100).
Proof.
  unfold minMzVal, maxMzVal.
  split; [ring|]. split; [ring|]. split.
  - intros Ht Hp.
    assert (D : 0 <= dMz s).
    { unfold dMz, Qcdiv.
      replace 0 with (0 * (ppmTol s * / num 1000000)) by ring.
      apply Qcmult_le_compat_r; [exact Ht|].
      replace 0 with (0 * / num 1000000) by ring.
      apply Qcmult_le_compat_r; [exact Hp|].
      apply Qclt_le_weak, Qc_1000000_pos. }
    split.
    + replace (targetMz s) with (targetMz s - dMz s + dMz s) at 2 by ring.
      replace (targetMz s - dMz s) with (targetMz s - dMz s + 0) at 1 by ring.
      apply Qcplus_le_compat; [apply Qcle_refl|exact D].
    + replace (targetMz s) with (targetMz s + 0) at 1 by ring.
      apply Qcplus_le_compat; [apply Qcle_refl|exact D].
  - split; apply Qc_is_canon; reflexivity.
Qed.

Lemma mass_window_is_centred_witness :
  minMzVal exploring <= targetMz exploring /\
  targetMz exploring <= maxMzVal exploring.
Proof.
  apply (proj1 (proj2 (proj2 (mass_window_is_centred exploring))));
    discriminate.
Defined.

Lemma fetchChromatogram_start (env : State) (c : Config) :
  falsy (selectedFile env) = false ->
  exists k,
    start (fetchChromatogram env) c
    = mkConfig
        (with_spectrumData None
           (with_error None (with_loading true (state c))))
        (inflight c
           ++ [Pend (ExtractChromatogram (selectedFile env) (minMzVal env)
                                         (maxMzVal env)) k])
        (log c
           ++ [Issued (Any (ExtractChromatogram (selectedFile env)
                              (minMzVal env) (maxMzVal env)))
                      (with_spectrumData None
                         (with_error None (with_loading true (state c))))]) /\
    forall res c',
      start (k res) c'
      = match res with
        | Rejected m | OkUnparsable m =>
            mkConfig (with_loading false (with_error (Some m) (state c')))
                     (inflight c') (log c')
        | NotOk _ =>
            mkConfig
              (with_loading false
                 (with_error (Some "Failed to extract chromatogram")
                             (state c')))
              (inflight c') (log c')
        | Ok data =>
            mkConfig
              (with_loading false
                 (with_plotRevision (plotRevision (state c') + 1)
                    (with_chromData
                       (Some (XY.mk (ChromatogramResponse.rts data)
                                    (ChromatogramResponse.ints data)))
                       (state c'))))
              (inflight c') (log c')
        end.
Proof.
  intro F. unfold fetchChromatogram. rewrite F.
  eexists. split; [reflexivity|].
  intros [m|b|data|m] c'; reflexivity.
Qed.

(** X8. An extraction with a file selected asks for the chromatogram of the
    mass window on display and clears the MS1 spectrum at once.  Answered
    with success, the extracted chromatogram becomes the active one and the
    plot revision grows by one; answered with a failure, the chromatogram
    stays as it was and the error banner is set.  Either way the total
    chromatogram, the scan list and the current scan index are untouched,
    so that a selected scan is left without a spectrum. *)
Theorem extraction_outcomes (env : State) (srv : Server) (c : Config) :
  falsy (selectedFile env) = false ->
  let request :=
    ExtractChromatogram (selectedFile env) (minMzVal env) (maxMzVal env) in
  requests (start (fetchChromatogram env) c) = requests c ++ [Any request] /\
  spectrumData (state (start (fetchChromatogram env) c)) = None /\
  exists after,
    answered (fetchChromatogram env) srv c = Some after /\
    requests after = requests c /\
    spectrumData (state after) = None /\
    ticData (state after) = ticData (state c) /\
    scanList (state after) = scanList (state c) /\
    currentScanIdx (state after) = currentScanIdx (state c) /\
    loading (state after) = false /\
    ((0 <= currentScanIdx (state c))%Z ->
     ~ index_tracks_spectrum (state after)) /\
    match srv _ request with
    | Ok data =>
        activeChromData (state after)
        = Some (XY.mk (ChromatogramResponse.rts data)
                      (ChromatogramResponse.ints data)) /\
        plotRevision (state after) = (plotRevision (state c) + 1)%Z /\
        error (state after) = None
    | Rejected m | OkUnparsable m =>
        chromData (state after) = chromData (state c) /\
        plotRevision (state after) = plotRevision (state c) /\
        error (state after) = Some m
    | NotOk _ =>
        chromData (state after) = chromData (state c) /\
        plotRevision (state after) = plotRevision (state c) /\
        error (state after) = Some "Failed to extract chromatogram"
    end.
Proof.
  intros F request.
  destruct (fetchChromatogram_start env c F) as (k & Hs & Hk).
  unfold answered. rewrite Hs.
  split; [requests_eq|]. split; [reflexivity|].
  rewrite deliver_last, Hk. subst request.
  destruct (srv ChromatogramResponse.t
                (ExtractChromatogram (selectedFile env) (minMzVal env)
                                     (maxMzVal env)));
    (eexists; split; [reflexivity|]); cbn;
    repeat (split; [reflexivity|]);
    (split; [|repeat split]);
    intros H0 T; destruct (T H0) as (sp & Hsp & _); discriminate Hsp.
Qed.

Lemma extraction_outcomes_witness :
  exists after,
    answered (fetchChromatogram exploring) always_not_ok (idle exploring)
    = Some after /\
    spectrumData (state after) = None /\
    currentScanIdx (state after) = 0%Z /\
    chromData (state after) = Some ramp /\
    error (state after) = Some "Failed to extract chromatogram".
Proof.
  destruct (@extraction_outcomes exploring always_not_ok (idle exploring)
              eq_refl)
    as (_ & _ & after & Ha & _ & Hsp & _ & _ & Hi & _ & _ & Hc & _ & He).
  exists after. repeat split; assumption.
Defined.

(** Without a file nothing is asked and nothing changes. *)
Lemma extraction_without_file (env : State) (c : Config) :
  falsy (selectedFile env) = true -> start (fetchChromatogram env) c = c.
Proof. intro F. unfold fetchChromatogram. now rewrite F. Qed.

(** ** Clicks on the MS1 spectrum *)

Lemma find_precursor_highlighted (has_ms2 : list Qc) (mz : Qc) :
  isHighlighted has_ms2 mz = true ->
  exists m,
    find_precursor has_ms2 mz = Some m /\
    In m has_ms2 /\ Qcabs (m - mz) < Q2Qc (1 # 10).
Proof.
  unfold isHighlighted, find_precursor. intro H.
  destruct (find (fun m => ltb (Qcabs (m - mz)) (Q2Qc (1 # 10))) has_ms2)
    as [m|] eqn:F.
  - exists m. split; [reflexivity|].
    apply find_some in F. destruct F as [Hin Hlt].
    split; [exact Hin|now apply ltb_lt].
  - apply existsb_exists in H. destruct H as (m & Hin & Hlt).
    pose proof (find_none _ _ F m Hin) as N. cbv beta in N. congruence.
Qed.

Lemma find_precursor_normal (has_ms2 : list Qc) (mz : Qc) :
  isHighlighted has_ms2 mz = false -> find_precursor has_ms2 mz = None.
Proof.
  unfold isHighlighted, find_precursor. intro H.
  destruct (find (fun m => ltb (Qcabs (m - mz)) (Q2Qc (1 # 10))) has_ms2)
    as [m|] eqn:F; [|reflexivity].
  apply find_some in F. destruct F as [Hin Hlt].
  assert (E : existsb (fun m => ltb (Qcabs (m - mz)) (Q2Qc (1 # 10))) has_ms2
              = true)
    by (apply existsb_exists; eauto).
  congruence.
Qed.

(** Points that match no precursor only write to the console. *)
Lemma check_points_no_match (env : State) (spectrum : SpectrumResponse.t)
      (has_ms2 points : list Qc) (c : Config) :
  (forall mz, In mz points -> isHighlighted has_ms2 mz = false) ->
  state (start (check_points env spectrum has_ms2 points) c) = state c /\
  inflight (start (check_points env spectrum has_ms2 points) c) = inflight c.
Proof.
  revert c. induction points as [|mz rest IH]; intros c H; [split; reflexivity|].
  cbn [check_points start perform].
  rewrite find_precursor_normal by (apply H; now left).
  apply (IH (emit (Console_log "Checking point MZ:") c)).
  intros x Hx. apply H. now right.
Qed.

Lemma check_points_first_match (env : State) (spectrum : SpectrumResponse.t)
      (has_ms2 pre : list Qc) (mz m : Qc) (post : list Qc) (c : Config) :
  falsy (selectedFile env) = false ->
  (forall x, In x pre -> isHighlighted has_ms2 x = false) ->
  find_precursor has_ms2 mz = Some m ->
  let c1 := start (check_points env spectrum has_ms2 (pre ++ mz :: post)) c in
  state c1 = with_ms2Loading true (state c) /\
  requests c1
  = requests c ++ [Any (GetMs2Spectrum (selectedFile env) m
                                       (SpectrumResponse.rt spectrum))].
Proof.
  intros F. revert c. induction pre as [|x pre IH]; intros c H Hm.
  - cbn [app check_points start perform]. rewrite Hm.
    cbn [start perform].
    destruct (fetchMs2Spectrum_start env m (SpectrumResponse.rt spectrum)
                (emit (Console_log "Found MS2 match!")
                      (emit (Console_log "Checking point MZ:") c)) F)
      as (k & Hs & _).
    rewrite Hs. split; [reflexivity|requests_eq].
  - cbn [app check_points start perform].
    rewrite find_precursor_normal by (apply H; now left).
    apply (IH (emit (Console_log "Checking point MZ:") c));
      [|exact Hm].
    intros y Hy. apply H. now right.
Qed.

(** With no file selected no point asks for anything. *)
Lemma check_points_no_file (env : State) (spectrum : SpectrumResponse.t)
      (has_ms2 points : list Qc) (c : Config) :
  falsy (selectedFile env) = true ->
  state (start (check_points env spectrum has_ms2 points) c) = state c /\
  inflight (start (check_points env spectrum has_ms2 points) c) = inflight c.
Proof.
  intro F. revert c.
  induction points as [|mz rest IH]; intro c; [split; reflexivity|].
  cbn [check_points start perform].
  destruct (find_precursor has_ms2 mz) as [m|].
  - unfold fetchMs2Spectrum. rewrite F. split; reflexivity.
  - apply (IH (emit (Console_log "Checking point MZ:") c)).
Qed.

(** The outcomes of a click on the MS1 plot. *)
Lemma ms1_click_requests_fragments_aux :
  (forall env points c,
      points = None \/ points = Some [] \/ spectrumData env = None \/
      (exists spectrum, spectrumData env = Some spectrum /\
                        SpectrumResponse.has_ms2 spectrum = None) ->
      state (start (handleMs1Click env points) c) = state c /\
      requests (start (handleMs1Click env points) c) = requests c)
  /\
  (forall env spectrum has_ms2 points c,
      spectrumData env = Some spectrum ->
      SpectrumResponse.has_ms2 spectrum = Some has_ms2 ->
      (forall mz, In mz points -> isHighlighted has_ms2 mz = false) ->
      state (start (handleMs1Click env (Some points)) c) = state c /\
      requests (start (handleMs1Click env (Some points)) c) = requests c)
  /\
  (forall env spectrum has_ms2 pre mz post c,
      spectrumData env = Some spectrum ->
      SpectrumResponse.has_ms2 spectrum = Some has_ms2 ->
      falsy (selectedFile env) = false ->
      (forall x, In x pre -> isHighlighted has_ms2 x = false) ->
      isHighlighted has_ms2 mz = true ->
      exists m,
        In m has_ms2 /\ Qcabs (m - mz) < Q2Qc (1 # 10) /\
        let c1 := start (handleMs1Click env (Some (pre ++ mz :: post))) c in
        state c1 = with_ms2Loading true (state c) /\
        requests c1
        = requests c ++ [Any (GetMs2Spectrum (selectedFile env) m
                                             (SpectrumResponse.rt spectrum))])
  /\
  (forall env points c,
      falsy (selectedFile env) = true ->
      state (start (handleMs1Click env points) c) = state c /\
      requests (start (handleMs1Click env points) c) = requests c).
Proof.
  split; [|split; [|split]].
  - intros env points c H. unfold handleMs1Click.
    destruct H as [->|[->|[E|(spectrum & E & E2)]]].
    + split; reflexivity.
    + split; reflexivity.
    + rewrite E. destruct points as [[|p ps]|]; split; reflexivity.
    + rewrite E, E2. destruct points as [[|p ps]|]; split; reflexivity.
  - intros env spectrum has_ms2 points c E E2 H. unfold handleMs1Click.
    rewrite E, E2. destruct points as [|p ps]; [split; reflexivity|].
    cbn [start perform].
    destruct (@check_points_no_match env spectrum has_ms2 (p :: ps)
                (emit (Console_log "MS1 Plot Clicked:") c) H)
      as [Hs Hi].
    unfold requests. rewrite Hs, Hi. split; reflexivity.
  - intros env spectrum has_ms2 pre mz post c E E2 F Hpre Hmz.
    destruct (find_precursor_highlighted has_ms2 mz Hmz) as (m & Hm & Hin & Hlt).
    exists m. split; [exact Hin|]. split; [exact Hlt|].
    unfold handleMs1Click. rewrite E, E2.
    destruct (pre ++ mz :: post) as [|p ps] eqn:EP;
      [destruct pre; discriminate EP|].
    rewrite <- EP. cbn [start perform].
    exact (@check_points_first_match env spectrum has_ms2 pre mz m post
             (emit (Console_log "MS1 Plot Clicked:") c) F Hpre Hm).
  - intros env points c F. unfold handleMs1Click.
    destruct points as [[|p ps]|]; try (split; reflexivity).
    destruct (spectrumData env) as [spectrum|]; [|split; reflexivity].
    destruct (SpectrumResponse.has_ms2 spectrum) as [has_ms2|];
      [|split; reflexivity].
    cbn [start perform].
    destruct (@check_points_no_file env spectrum has_ms2 (p :: ps)
                (emit (Console_log "MS1 Plot Clicked:") c) F)
      as [Hs Hi].
    unfold requests. rewrite Hs, Hi. split; reflexivity.
Qed.

(** X9. A click on the MS1 plot issues a fragment-spectrum request only
    when a file is selected in the render of the handler, and then only for
    the first clicked point that lies less than 0.1 from a flagged
    precursor: the request carries that precursor (the flagged value, not
    the clicked m/z) and the retention time of the spectrum on display, and
    only the MS2 loading flag is set.  A click with no file selected, with
    no such point, with no point at all, with no spectrum on display or
    with a spectrum that has no precursor list asks for nothing and changes
    no state variable. *)
Theorem ms1_click_requests_fragments :
  (forall env points c,
      points = None \/ points = Some [] \/ spectrumData env = None \/
      (exists spectrum, spectrumData env = Some spectrum /\
                        SpectrumResponse.has_ms2 spectrum = None) ->
      state (start (handleMs1Click env points) c) = state c /\
      requests (start (handleMs1Click env points) c) = requests c)
  /\
  (forall env spectrum has_ms2 points c,
      spectrumData env = Some spectrum ->
      SpectrumResponse.has_ms2 spectrum = Some has_ms2 ->
      (forall mz, In mz points -> isHighlighted has_ms2 mz = false) ->
      state (start (handleMs1Click env (Some points)) c) = state c /\
      requests (start (handleMs1Click env (Some points)) c) = requests c)
  /\
  (forall env spectrum has_ms2 pre mz post c,
      spectrumData env = Some spectrum ->
      SpectrumResponse.has_ms2 spectrum = Some has_ms2 ->
      falsy (selectedFile env) = false ->
      (forall x, In x pre -> isHighlighted has_ms2 x = false) ->
      isHighlighted has_ms2 mz = true ->
      exists m,
        In m has_ms2 /\ Qcabs (m - mz) < Q2Qc (1 # 10) /\
        let c1 := start (handleMs1Click env (Some (pre ++ mz :: post))) c in
        state c1 = with_ms2Loading true (state c) /\
        requests c1
        = requests c ++ [Any (GetMs2Spectrum (selectedFile env) m
                                             (SpectrumResponse.rt spectrum))])
  /\
  (forall env points c,
      falsy (selectedFile env) = true ->
      state (start (handleMs1Click env points) c) = state c /\
      requests (start (handleMs1Click env points) c) = requests c).
Proof. exact ms1_click_requests_fragments_aux. Qed.

Lemma ms1_click_requests_fragments_witness :
  exists m,
    In m [num 200]%list /\ Qcabs (m - num 200) < Q2Qc (1 # 10) /\
    let c1 := start (handleMs1Click exploring
                       (Some ([num 100]%list ++ num 200 :: [])))
                    (idle exploring) in
    state c1 = with_ms2Loading true (state (idle exploring)) /\
    requests c1
    = requests (idle exploring)
      ++ [Any (GetMs2Spectrum (selectedFile exploring) m
                              (SpectrumResponse.rt (spectrum_at 10)))].
Proof.
  apply (proj1 (proj2 (proj2 ms1_click_requests_fragments))
           exploring (spectrum_at 10)
           [num 200]%list [num 100]%list (num 200) [] (idle exploring)).
  - reflexivity.
  - reflexivity.
  - reflexivity.
  - intros x [<-|[]]. reflexivity.
  - reflexivity.
Defined.

(** ** The highlighted sticks are the clickable peaks *)

Lemma getStickData_channels (mzs ints highlightMzs : list Qc) :
  List.length mzs = List.length ints ->
  getStickData mzs ints highlightMzs
  = Sticks.mk
      (flat_map stick_x (normal_peaks highlightMzs (peaks mzs ints)))
      (flat_map stick_y (normal_peaks highlightMzs (peaks mzs ints)))
      (flat_map stick_x (highlighted_peaks highlightMzs (peaks mzs ints)))
      (flat_map stick_y (highlighted_peaks highlightMzs (peaks mzs ints))).
Proof.
  intro L. unfold getStickData.
  rewrite (for_loop_foldi mzs
    (fun i mz acc =>
       let intensity := cell ints i in
       if isHighlighted highlightMzs mz
       then Sticks.mk (Sticks.x acc) (Sticks.y acc)
              (Sticks.hx acc ++ [Num mz; Num mz; Null])
              (Sticks.hy acc ++ [Num 0; intensity; Null])
       else Sticks.mk
              (Sticks.x acc ++ [Num mz; Num mz; Null])
              (Sticks.y acc ++ [Num 0; intensity; Null])
              (Sticks.hx acc) (Sticks.hy acc))).
  exact (@stick_loop_channels highlightMzs mzs [] ints
           (Sticks.mk [] [] [] []) L).
Qed.

Lemma in_stick_x (mz : Qc) (ps : list (Qc * Qc)) :
  In (Num mz) (flat_map stick_x ps) -> exists p, In p ps /\ fst p = mz.
Proof.
  intro H. apply in_flat_map in H. destruct H as (p & Hp & Hin).
  exists p. split; [exact Hp|].
  destruct Hin as [E|[E|[E|[]]]]; congruence.
Qed.

(** X10. For an index-aligned spectrum on display, with the sticks and
    the click handler of one render: a peak drawn in the normal channel of
    the stick plot is a peak whose click requests nothing, and a peak
    drawn in the highlighted channel is a peak whose click requests the
    fragment spectrum of a flagged precursor less than 0.1 away when a
    file is selected in that render, and requests nothing when no file is
    selected. *)
Theorem highlighted_sticks_are_clickable
  (env : State) (spectrum : SpectrumResponse.t) (mz : Qc) (c : Config) :
  spectrumData env = Some spectrum ->
  List.length (SpectrumResponse.mzs spectrum)
  = List.length (SpectrumResponse.ints spectrum) ->
  let sticks := ms1Sticks spectrum in
  let clicked := start (handleMs1Click env (Some [mz]%list)) c in
  (In (Num mz) (Sticks.hx sticks) ->
   (falsy (selectedFile env) = false ->
    exists has_ms2 m,
      SpectrumResponse.has_ms2 spectrum = Some has_ms2 /\
      In m has_ms2 /\
      Qcabs (m - mz) < Q2Qc (1 # 10) /\
      requests clicked
      = requests c ++ [Any (GetMs2Spectrum (selectedFile env) m
                                           (SpectrumResponse.rt spectrum))]) /\
   (falsy (selectedFile env) = true -> requests clicked = requests c)) /\
  (In (Num mz) (Sticks.x sticks) -> requests clicked = requests c).
Proof.
  intros E L. cbv zeta. unfold ms1Sticks.
  rewrite (getStickData_channels _ _ _ L).
  cbn [Sticks.x Sticks.hx]. split; intro H.
  - apply in_stick_x in H. destruct H as (p & Hp & <-).
    apply filter_In in Hp. destruct Hp as [_ Hh].
    split; intro F.
    + destruct (SpectrumResponse.has_ms2 spectrum) as [has_ms2|] eqn:E2;
        [|discriminate Hh].
      destruct (proj1 (proj2 (proj2 ms1_click_requests_fragments_aux)) env
                  spectrum has_ms2 [] (fst p) [] c E E2 F)
        as (m & Hin & Hlt & _ & Hr); [intros x []|exact Hh|].
      exists has_ms2, m. repeat split; assumption.
    + apply (proj2 (proj2 (proj2 ms1_click_requests_fragments_aux)) env
               (Some [fst p]%list) c F).
  - apply in_stick_x in H. destruct H as (p & Hp & <-).
    apply filter_In in Hp. destruct Hp as [_ Hh].
    apply Bool.negb_true_iff in Hh.
    destruct (SpectrumResponse.has_ms2 spectrum) as [has_ms2|] eqn:E2.
    + apply (proj1 (proj2 ms1_click_requests_fragments_aux) env spectrum
               has_ms2 [fst p]%list c E E2).
      intros x [<-|[]]. exact Hh.
    + apply (proj1 ms1_click_requests_fragments_aux env
               (Some [fst p]%list) c).
      right. right. right. exists spectrum. split; assumption.
Qed.

Lemma highlighted_sticks_are_clickable_witness :
  exists has_ms2 m,
    SpectrumResponse.has_ms2 (spectrum_at 10) = Some has_ms2 /\
    In m has_ms2 /\
    Qcabs (m - num 200) < Q2Qc (1 # 10) /\
    requests (start (handleMs1Click exploring (Some [num 200]%list))
                    (idle exploring))
    = requests (idle exploring)
      ++ [Any (GetMs2Spectrum (selectedFile exploring) m
                              (SpectrumResponse.rt (spectrum_at 10)))].
Proof.
  apply (proj1 (proj1 (@highlighted_sticks_are_clickable exploring
                         (spectrum_at 10) (num 200) (idle exploring)
                         eq_refl eq_refl)
                      (or_introl eq_refl))).
  reflexivity.
Defined.
(** ** Runs of the event loop *)

Lemma start_written (t : Task) (c : Config) :
  state (start t c) = written t (state c).
Proof.
  revert c. induction t as [|m|e k IH|A r k _|t' IH' k IH]; intro c;
    try reflexivity.
  - cbn [start written]. rewrite IH. destruct e; reflexivity.
  - cbn [start written]. now rewrite IH, IH'.
Qed.

Lemma start_requests (t : Task) (c : Config) :
  requests (start t c) = requests c ++ issued t.
Proof.
  revert c. induction t as [|m|e k IH|A r k _|t' IH' k IH]; intro c;
    cbn [start issued].
  - now rewrite app_nil_r.
  - unfold requests. cbn. now rewrite app_nil_r.
  - rewrite IH. destruct e; reflexivity.
  - unfold requests. cbn [inflight]. now rewrite map_app.
  - now rewrite IH, IH', app_assoc.
Qed.

Section Resumptions.

Variable P : AnyRequest -> Task -> Prop.

Lemma start_pendings (t : Task) (c : Config) :
  Forall (pending_ok P) (inflight c) ->
  resumptions P t ->
  Forall (pending_ok P) (inflight (start t c)).
Proof.
  revert c. induction t as [|m|e k IH|A r k _|t' IH' k IH]; intros c F R;
    cbn [start resumptions] in *.
  - exact F.
  - exact F.
  - apply IH; [|exact R]. destruct e; exact F.
  - cbn [inflight]. apply Forall_app. split; [exact F|].
    constructor; [exact R|constructor].
  - destruct R as [R' R]. apply IH; [|exact R]. now apply IH'.
Qed.

Lemma Forall_remove_nth {A : Type} (Q : A -> Prop) (n : nat) (l : list A) :
  Forall Q l -> Forall Q (remove_nth n l).
Proof.
  revert n. induction l as [|x l IH]; intros n F; [destruct n; exact F|].
  inversion F as [|? ? Hx Hl]; subst.
  destruct n; cbn [remove_nth]; [exact Hl|]. constructor; [exact Hx|].
  now apply IH.
Qed.

(** An answer resumes a task that was in flight. *)
Lemma deliver_resumes (n : nat) (srv : Server) (c c' : Config) :
  deliver n srv c = Some c' ->
  exists (A : Type) (r : Request A) (k : FetchResult A -> Task),
    nth_error (inflight c) n = Some (Pend r k) /\
    c' = start (k (srv A r))
               (mkConfig (state c) (remove_nth n (inflight c))
                         (log c ++ [Completed (Any r)])).
Proof.
  unfold deliver. destruct (nth_error (inflight c) n) as [[A r k]|] eqn:E;
    [|discriminate].
  intro H. injection H as <-. exists A, r, k. split; reflexivity.
Qed.

Lemma deliver_pendings (n : nat) (srv : Server) (c c' : Config) :
  Forall (pending_ok P) (inflight c) ->
  deliver n srv c = Some c' ->
  Forall (pending_ok P) (inflight c').
Proof.
  intros F D. destruct (deliver_resumes _ _ _ D) as (A & r & k & E & ->).
  assert (Hp : pending_ok P (Pend r k)).
  { rewrite Forall_forall in F. apply F. eapply nth_error_In, E. }
  apply start_pendings; [|apply Hp].
  cbn [inflight]. now apply Forall_remove_nth.
Qed.

End Resumptions.

Lemma remove_nth_requests (n : nat) (l : list Pending) (p : Pending) :
  nth_error l n = Some p ->
  forall r, In r (map request_of l) <->
            r = request_of p \/ In r (map request_of (remove_nth n l)).
Proof.
  revert n. induction l as [|x l IH]; intros n E r; [destruct n; discriminate|].
  destruct n; cbn [nth_error remove_nth map In] in *.
  - injection E as ->. split; intros [H|H]; auto.
  - rewrite (IH n E r). split; intro H; intuition auto.
Qed.

(** ** Every resumption of every handler *)

Ltac resumption_goal :=
  solve [ unfold resumption_ok, settles, keeps, integration; cbn;
          repeat match goal with
                 | |- _ /\ _ => split
                 | |- _ -> _ => intro
                 | |- forall _, _ => intro
                 end;
          solve [ reflexivity | discriminate | lia
                | left; reflexivity
                | right; intro; reflexivity ] ].

Ltac each_answer :=
  let res := fresh "res" in
  intro res; destruct res as [?|[?|?]|?|?].

Lemma fetchScanList_resumptions (filepath : string) :
  resumptions resumption_ok (fetchScanList filepath).
Proof. cbn. each_answer; resumption_goal. Qed.

Lemma fetchTic_resumptions (filepath : string) :
  resumptions resumption_ok (fetchTic filepath).
Proof. cbn. each_answer; resumption_goal. Qed.

Lemma fetchSpectrum_resumptions (env : State) (rt_sec : Qc) :
  resumptions resumption_ok (fetchSpectrum env rt_sec).
Proof.
  unfold fetchSpectrum. destruct (falsy (selectedFile env)); [exact I|].
  cbn [resumptions try_catch_finally try_catch finally].
  each_answer; try resumption_goal.
  cbn [try_catch finally].
  destruct (length_Z (scanList env) >? 0)%Z; [|resumption_goal].
  destruct (closestIdx (scanList env) (SpectrumResponse.rt _));
    resumption_goal.
Qed.

Lemma fetchMs2Spectrum_resumptions (env : State) (precursor rt_sec : Qc) :
  resumptions resumption_ok (fetchMs2Spectrum env precursor rt_sec).
Proof.
  unfold fetchMs2Spectrum. destruct (falsy (selectedFile env)); [exact I|].
  cbn. each_answer; resumption_goal.
Qed.

Lemma fetchChromatogram_resumptions (env : State) :
  resumptions resumption_ok (fetchChromatogram env).
Proof.
  unfold fetchChromatogram. destruct (falsy (selectedFile env)); [exact I|].
  cbn [resumptions try_catch_finally try_catch finally].
  each_answer; resumption_goal.
Qed.

Lemma handleFileUpload_resumptions (file : option string) :
  resumptions resumption_ok (handleFileUpload file).
Proof.
  destruct file as [file|]; [|exact I].
  cbn. each_answer; try resumption_goal.
  split; [resumption_goal|].
  each_answer; (split; [resumption_goal|]);
    each_answer; resumption_goal.
Qed.

Lemma loadDemoData_resumptions : resumptions resumption_ok loadDemoData.
Proof.
  cbn. each_answer; try resumption_goal.
  split; [resumption_goal|].
  split; [|split; [|exact I]]; each_answer; resumption_goal.
Qed.

Lemma shape_resumptions (env : State) (t : Task) :
  requests_spectrum env t -> resumptions resumption_ok t.
Proof.
  induction 1 as [|t _ IH|rt_sec|idx scan _]; cbn [resumptions].
  - exact I.
  - exact IH.
  - split; [apply fetchSpectrum_resumptions|exact I].
  - split; [apply fetchSpectrum_resumptions|exact I].
Qed.

Lemma check_points_resumptions (env : State) (spectrum : SpectrumResponse.t)
      (has_ms2 points : list Qc) :
  resumptions resumption_ok (check_points env spectrum has_ms2 points).
Proof.
  induction points as [|mz rest IH]; [exact I|].
  cbn [check_points resumptions].
  destruct (find_precursor has_ms2 mz); [|exact IH].
  cbn [resumptions]. split; [apply fetchMs2Spectrum_resumptions|exact I].
Qed.

Lemma calculateIntegration_resumptions (env : State)
      (event : option SelectEvent.t) :
  resumptions resumption_ok (calculateIntegration env event).
Proof.
  destruct event as [event|]; [|exact I].
  destruct (SelectEvent.points event) eqn:EP;
    [|destruct (SelectEvent.range event) eqn:ER];
    [| |unfold calculateIntegration; rewrite EP, ER; exact I];
    (rewrite calculateIntegration_selected
       by (rewrite ?EP, ?ER; first [left; discriminate|right; discriminate]));
    destruct (match rangeX event, activeChromData env with
              | Some (minX, maxX), Some chrom => select minX maxX chrom
              | _, _ => ([], [])
              end) as [selectedX selectedY];
    destruct (length_Z selectedX <? 2)%Z; exact I.
Qed.

Lemma onRelayout_resumptions (setRange : option (Qc * Qc) -> Effect)
      (e : Relayout.t) :
  resumptions resumption_ok (onRelayout setRange e).
Proof.
  unfold onRelayout. destruct (Relayout.range e); [exact I|].
  destruct (Relayout.autorange e || Relayout.autosize e); exact I.
Qed.

Lemma handler_resumptions (env : State) (e : Event) :
  resumptions resumption_ok (handler env e).
Proof.
  destruct e; cbn [handler]; try exact I.
  - apply handleFileUpload_resumptions.
  - apply loadDemoData_resumptions.
  - unfold handleManualPathSubmit. cbn [resumptions].
    destruct (falsy (manualPath env)); [exact I|]. cbn [resumptions].
    split; [apply fetchTic_resumptions|].
    split; [apply fetchScanList_resumptions|exact I].
  - unfold toggleIntegration. destruct (integrationMode env); exact I.
  - apply fetchChromatogram_resumptions.
  - apply (shape_resumptions (updateSpectrumByIndex_shape env idx)).
  - apply (shape_resumptions (handleKeyDown_shape env key)).
  - unfold handleKeyUp.
    destruct ((key =? "Control")%string || (key =? "Meta")%string); exact I.
  - apply (shape_resumptions (handlePlotClick_shape env event)).
  - unfold onSelected. destruct (integrationMode env); [|exact I].
    apply calculateIntegration_resumptions.
  - apply onRelayout_resumptions.
  - unfold handleMs1Click. cbn [resumptions].
    destruct points as [[|p ps]|]; try exact I.
    destruct (spectrumData env) as [spectrum|]; [|exact I].
    destruct (SpectrumResponse.has_ms2 spectrum); [|exact I].
    apply check_points_resumptions.
  - apply onRelayout_resumptions.
  - apply onRelayout_resumptions.
Qed.

(** In every reachable configuration, the tasks in flight resume as
    [resumption_ok] says. *)
Lemma reachable_pendings (rendered : State -> State -> Prop) (c : Config) :
  Reachable rendered c ->
  Forall (pending_ok resumption_ok) (inflight c).
Proof.
  induction 1 as [|c c' _ IH S]; [constructor|].
  destruct S as [env e c _|n srv c c' D].
  - apply start_pendings; [exact IH|apply handler_resumptions].
  - eapply deliver_pendings; eassumption.
Qed.

(** ** Every handler up to its first suspension *)

Ltac flag_goal :=
  solve [ left; left; reflexivity
        | left; right; intro; reflexivity
        | right; intro; reflexivity ].

Ltac handler_goal :=
  solve [ unfold handler_ok, quiet, settles, keeps, integration; cbn;
          repeat match goal with
                 | |- _ /\ _ => split
                 end;
          first [ flag_goal | intro; reflexivity | intro; cbn; lia ] ].

Lemma shape_handler_ok (env : State) (t : Task) :
  requests_spectrum env t -> handler_ok t /\ quiet t.
Proof.
  induction 1 as [|t _ IH|rt_sec|idx scan _].
  - split; handler_goal.
  - destruct IH as [(L & M & R) (I & F & S)].
    unfold handler_ok, quiet, settles, keeps in *.
    cbn [written issued setCtrlPressed].
    repeat split.
    + destruct L as [[L|L]|L]; [left; now left|left; right|right];
        intro s; now rewrite L.
    + destruct M as [[M|M]|M]; [left; now left|left; right|right];
        intro s; now rewrite M.
    + intro s. exact (R (with_ctrlPressed true s)).
    + intro s. now rewrite I.
    + intro s. now rewrite F.
    + intro s. now rewrite S.
  - unfold fetchSpectrum. destruct (falsy (selectedFile env));
      split; handler_goal.
  - unfold fetchSpectrum. destruct (falsy (selectedFile env));
      split; handler_goal.
Qed.

Lemma check_points_ok (env : State) (spectrum : SpectrumResponse.t)
      (has_ms2 points : list Qc) :
  handler_ok (check_points env spectrum has_ms2 points) /\
  quiet (check_points env spectrum has_ms2 points).
Proof.
  induction points as [|mz rest IH]; [split; handler_goal|].
  cbn [check_points]. destruct (find_precursor has_ms2 mz).
  - unfold fetchMs2Spectrum. destruct (falsy (selectedFile env));
      split; handler_goal.
  - exact IH.
Qed.

Lemma calculateIntegration_ok (env : State) (event : option SelectEvent.t) :
  handler_ok (calculateIntegration env event) /\
  keeps selectedFile (calculateIntegration env event) /\
  keeps scanList (calculateIntegration env event).
Proof.
  destruct event as [event|]; [|split; [handler_goal|split; intro; reflexivity]].
  destruct (SelectEvent.points event) eqn:EP;
    [|destruct (SelectEvent.range event) eqn:ER];
    [| |unfold calculateIntegration; rewrite EP, ER;
        split; [handler_goal|split; intro; reflexivity]];
    (rewrite calculateIntegration_selected
       by (rewrite ?EP, ?ER; first [left; discriminate|right; discriminate]));
    destruct (match rangeX event, activeChromData env with
              | Some (minX, maxX), Some chrom => select minX maxX chrom
              | _, _ => ([], [])
              end) as [selectedX selectedY];
    destruct (length_Z selectedX <? 2)%Z;
    (split; [handler_goal|split; intro; reflexivity]).
Qed.

Lemma onRelayout_ok (setRange : option (Qc * Qc) -> Effect) (e : Relayout.t) :
  (setRange = setChromXRange \/ setRange = setMsXRange \/
   setRange = setMs2XRange) ->
  handler_ok (onRelayout setRange e) /\ quiet (onRelayout setRange e).
Proof.
  unfold onRelayout.
  intros [-> | [-> | ->]]; destruct (Relayout.range e);
    try destruct (Relayout.autorange e || Relayout.autosize e);
    split; handler_goal.
Qed.

(** Every handler keeps the discipline of the loading flags and of the
    plot revision. *)
Lemma handler_handler_ok (env : State) (e : Event) :
  handler_ok (handler env e).
Proof.
  destruct e; cbn [handler].
  - destruct file; handler_goal.
  - handler_goal.
  - handler_goal.
  - unfold handleManualPathSubmit. destruct (falsy (manualPath env));
      handler_goal.
  - handler_goal.
  - handler_goal.
  - handler_goal.
  - handler_goal.
  - unfold toggleIntegration. destruct (integrationMode env); handler_goal.
  - handler_goal.
  - unfold fetchChromatogram. destruct (falsy (selectedFile env));
      handler_goal.
  - handler_goal.
  - apply (shape_handler_ok (updateSpectrumByIndex_shape env idx)).
  - apply (shape_handler_ok (handleKeyDown_shape env key)).
  - unfold handleKeyUp.
    destruct ((key =? "Control")%string || (key =? "Meta")%string);
      handler_goal.
  - apply (shape_handler_ok (handlePlotClick_shape env event)).
  - unfold onSelected. destruct (integrationMode env); [|handler_goal].
    apply calculateIntegration_ok.
  - apply onRelayout_ok. auto.
  - unfold handleMs1Click.
    destruct points as [[|p ps]|]; try handler_goal.
    destruct (spectrumData env) as [spectrum|]; [|handler_goal].
    destruct (SpectrumResponse.has_ms2 spectrum); [|handler_goal].
    destruct (check_points_ok env spectrum l (p :: ps)) as [(L & M & R) _].
    unfold handler_ok, settles, keeps in *. cbn [written issued].
    repeat split; assumption.
  - apply onRelayout_ok. auto.
  - apply onRelayout_ok. auto.
Qed.

(** The handlers that do not integrate leave the integration mode and its
    result alone; those that do not select a file leave the file name and
    the scan list alone. *)
Lemma handler_quiet (env : State) (e : Event) :
  (integrates e = false -> keeps integration (handler env e)) /\
  (chooses_file e = false ->
   keeps selectedFile (handler env e) /\ keeps scanList (handler env e)).
Proof.
  assert (Q : forall t, quiet t ->
    (integrates e = false -> keeps integration t) /\
    (chooses_file e = false -> keeps selectedFile t /\ keeps scanList t)).
  { intros t (I & F & S). split; intros _; [exact I|split; assumption]. }
  destruct e; cbn [handler].
  - split; [intros _|discriminate]. destruct file; intro; reflexivity.
  - split; [intros _; intro; reflexivity|discriminate].
  - apply Q; split; [|split]; intro; reflexivity.
  - split; [intros _|discriminate].
    unfold handleManualPathSubmit. destruct (falsy (manualPath env));
      intro; reflexivity.
  - apply Q; split; [|split]; intro; reflexivity.
  - apply Q; split; [|split]; intro; reflexivity.
  - apply Q; split; [|split]; intro; reflexivity.
  - apply Q; split; [|split]; intro; reflexivity.
  - split; [discriminate|intros _].
    unfold toggleIntegration. destruct (integrationMode env);
      split; intro; reflexivity.
  - apply Q; split; [|split]; intro; reflexivity.
  - apply Q. unfold fetchChromatogram.
    destruct (falsy (selectedFile env)); split; [| split | | split];
      intro; reflexivity.
  - apply Q; split; [|split]; intro; reflexivity.
  - apply Q, (shape_handler_ok (updateSpectrumByIndex_shape env idx)).
  - apply Q, (shape_handler_ok (handleKeyDown_shape env key)).
  - apply Q. unfold handleKeyUp.
    destruct ((key =? "Control")%string || (key =? "Meta")%string);
      split; [| split | | split]; intro; reflexivity.
  - apply Q, (shape_handler_ok (handlePlotClick_shape env event)).
  - split; [discriminate|intros _].
    unfold onSelected. destruct (integrationMode env);
      [apply calculateIntegration_ok|split; intro; reflexivity].
  - apply Q, onRelayout_ok. auto.
  - apply Q. unfold handleMs1Click.
    destruct points as [[|p ps]|];
      try solve [split; [|split]; intro; reflexivity].
    destruct (spectrumData env) as [spectrum|];
      [|split; [|split]; intro; reflexivity].
    destruct (SpectrumResponse.has_ms2 spectrum);
      [|split; [|split]; intro; reflexivity].
    destruct (check_points_ok env spectrum l (p :: ps)) as [_ (I & F & S)].
    unfold quiet, keeps in *. cbn [written].
    repeat split; assumption.
  - apply Q, onRelayout_ok. auto.
  - apply Q, onRelayout_ok. auto.
Qed.

(** ** Invariants of the runs *)

Lemma existsb_none {A : Type} (f : A -> bool) (l : list A) :
  (forall x, In x l -> f x = false) -> existsb f l = false.
Proof.
  intro H. destruct (existsb f l) eqn:E; [|reflexivity].
  apply existsb_exists in E. destruct E as (x & Hx & Hf).
  rewrite (H x Hx) in Hf. discriminate.
Qed.

Section Flag.

Variable flag : State -> bool.
Variable kind : AnyRequest -> bool.

Lemma flag_after_handler (t : Task) (s : State) (waiting : list AnyRequest) :
  settles flag kind t \/ keeps flag t ->
  ((forall r, In r waiting -> kind r = false) -> flag s = false) ->
  (forall r, In r (waiting ++ issued t) -> kind r = false) ->
  flag (written t s) = false.
Proof.
  intros [[S|S]|K] Before All.
  - rewrite existsb_none in S; [discriminate|].
    intros r Hr. apply All, in_or_app. now right.
  - apply S.
  - rewrite K. apply Before. intros r Hr. apply All, in_or_app. now left.
Qed.

Lemma flag_after_answer (t : Task) (s : State) :
  settles flag kind t ->
  (forall r, In r (issued t) -> kind r = false) ->
  flag (written t s) = false.
Proof.
  intros [S|S] All; [|apply S].
  rewrite existsb_none in S; [discriminate|exact All].
Qed.

End Flag.

Lemma flags_settled_holds (rendered : State -> State -> Prop) (c : Config) :
  Reachable rendered c -> flags_settled c.
Proof.
  intro R. pose proof R as R0.
  induction R as [|c c' R IH S]; [split; intros _; reflexivity|].
  specialize (IH R).
  pose proof (reachable_pendings R) as Hpend.
  destruct IH as [IHl IHm].
  destruct S as [env e c _|n srv c c' D].
  - destruct (handler_handler_ok env e) as (L & M & _).
    unfold flags_settled. rewrite start_written, start_requests.
    split; intro All.
    + apply (@flag_after_handler loading (fun r => negb (is_ms2 r)) _
               (state c) (requests c) L).
      * intro H. apply IHl. intros r Hr.
        apply Bool.negb_false_iff. now apply H.
      * intros r Hr. apply Bool.negb_false_iff. now apply All.
    + apply (@flag_after_handler ms2Loading is_ms2 _ (state c) (requests c)
               M).
      * intro H. apply IHm. exact H.
      * exact All.
  - destruct (deliver_resumes _ _ _ D) as (A & r & k & E & ->).
    assert (Hp : pending_ok resumption_ok (Pend r k)).
    { rewrite Forall_forall in Hpend. apply Hpend.
      eapply nth_error_In, E. }
    destruct (Hp (srv A r)) as [(Hflags & _) _].
    pose proof (remove_nth_requests n (inflight c) E) as Hreq.
    unfold flags_settled. rewrite start_written, start_requests.
    unfold requests in *. cbn [state inflight].
    split; intro All.
    + destruct (is_ms2 (Any r)) eqn:K.
      * destruct Hflags as [Keep _]. rewrite Keep. apply IHl.
        intros r' Hr'. apply Hreq in Hr'. destruct Hr' as [->|Hr'];
          [exact K|]. apply All, in_or_app. now left.
      * destruct Hflags as [Settle _].
        apply (@flag_after_answer loading (fun r => negb (is_ms2 r)) _ _
                 Settle).
        intros r' Hr'. apply Bool.negb_false_iff.
        apply All, in_or_app. now right.
    + destruct (is_ms2 (Any r)) eqn:K.
      * destruct Hflags as [_ Settle].
        apply (@flag_after_answer ms2Loading is_ms2 _ _ Settle).
        intros r' Hr'. apply All, in_or_app. now right.
      * destruct Hflags as [_ Keep]. rewrite Keep. apply IHm.
        intros r' Hr'. apply Hreq in Hr'. destruct Hr' as [->|Hr'];
          [exact K|]. apply All, in_or_app. now left.
Qed.

(** X11. In every configuration the component can reach, whatever the
    user does and however the requests are answered, the loading flag is
    off when no request other than fragment-spectrum requests is in flight,
    and the MS2 loading flag is off when no fragment-spectrum request is in
    flight: once every request has been answered both flags are off. *)
Theorem loading_flags_settle (c : Config) :
  Reachable any_render c ->
  flags_settled c /\
  (requests c = [] ->
   loading (state c) = false /\ ms2Loading (state c) = false).
Proof.
  intro R. pose proof (flags_settled_holds R) as [L M].
  split; [split; assumption|].
  intro E. rewrite E in L, M. split; [apply L|apply M]; intros r [].
Qed.

Lemma loading_flags_settle_witness :
  flags_settled (start (handler initialState DemoClicked) (idle initialState)).
Proof.
  apply loading_flags_settle.
  eapply reach_step; [apply reach_initial|].
  apply step_event. exact I.
Defined.

(** ** The integration result along the runs *)

Lemma foldi_select_lengths (minX maxX : Qc) (ys xs : list Qc) (i : Z)
      (sel : list Qc * list jsval) :
  List.length (fst sel) = List.length (snd sel) ->
  let out :=
    foldi (fun i rtSec (sel : list Qc * list jsval) =>
             if in_window minX maxX rtSec
             then (fst sel ++ [rtSec / num 60], snd sel ++ [cell ys i])
             else sel)
          i xs sel in
  List.length (fst out) = List.length (snd out).
Proof.
  revert i sel. induction xs as [|rtSec xs IH]; intros i sel L; [exact L|].
  cbn [foldi]. apply IH.
  destruct (in_window minX maxX rtSec); [|exact L].
  cbn [fst snd]. rewrite !length_app, L. reflexivity.
Qed.

Lemma select_lengths (minX maxX : Qc) (chrom : XY.t) :
  List.length (fst (select minX maxX chrom))
  = List.length (snd (select minX maxX chrom)).
Proof.
  rewrite select_foldi.
  exact (@foldi_select_lengths minX maxX (XY.y chrom) (XY.x chrom) 0 ([], [])
           eq_refl).
Qed.

(** What [calculateIntegration] leaves: the state as it was or a whole
    result, the mode untouched. *)
Lemma calculateIntegration_written (env : State)
      (event : option SelectEvent.t) (s : State) :
  integrationMode (written (calculateIntegration env event) s)
  = integrationMode s /\
  (written (calculateIntegration env event) s = s \/
   exists selectedX selectedY,
     (2 <= List.length selectedX)%nat /\
     List.length selectedY = List.length selectedX /\
     integratedArea (written (calculateIntegration env event) s)
     = Some (area_loop selectedX selectedY) /\
     integratedPoints (written (calculateIntegration env event) s)
     = Some (Points.mk selectedX selectedY)).
Proof.
  destruct event as [event|]; [|split; [reflexivity|now left]].
  destruct (SelectEvent.points event) eqn:EP;
    [|destruct (SelectEvent.range event) eqn:ER];
    [| |unfold calculateIntegration; rewrite EP, ER;
        split; [reflexivity|now left]];
    (rewrite calculateIntegration_selected
       by (rewrite ?EP, ?ER; first [left; discriminate|right; discriminate]));
    (assert (L : List.length
                   (fst (match rangeX event, activeChromData env with
                         | Some (minX, maxX), Some chrom =>
                             select minX maxX chrom
                         | _, _ => ([], [])
                         end))
                 = List.length
                     (snd (match rangeX event, activeChromData env with
                           | Some (minX, maxX), Some chrom =>
                               select minX maxX chrom
                           | _, _ => ([], [])
                           end)))
       by (destruct (rangeX event) as [[minX maxX]|];
           [destruct (activeChromData env); [apply select_lengths|]|];
           reflexivity));
    destruct (match rangeX event, activeChromData env with
              | Some (minX, maxX), Some chrom => select minX maxX chrom
              | _, _ => ([], [])
              end) as [selectedX selectedY];
    cbn [fst snd] in L;
    destruct (Z.ltb_spec (length_Z selectedX) 2);
    (split; [reflexivity|]);
    try (now left);
    right; exists selectedX, selectedY; unfold length_Z in *;
    repeat split; try reflexivity; lia.
Qed.

Lemma integrating_event_whole (env : State) (e : Event) (s : State) :
  integrates e = true ->
  integration_whole s ->
  integration_whole (written (handler env e) s).
Proof.
  destruct e; try discriminate; intros _ W; cbn [handler].
  - unfold toggleIntegration. destruct (integrationMode env); [exact I|].
    exact W.
  - unfold onSelected. destruct (integrationMode env); [|exact W].
    destruct (calculateIntegration_written env event s)
      as [_ [->|(sx & sy & L2 & L & Ha & Hp)]]; [exact W|].
    unfold integration_whole. rewrite Ha, Hp. cbn. repeat split; assumption.
Qed.

Lemma integrating_event_in_mode (env : State) (e : Event) (s : State) :
  integrates e = true ->
  mode_rendered env s ->
  result_only_in_mode s ->
  result_only_in_mode (written (handler env e) s).
Proof.
  destruct e; try discriminate; intros _ M W; cbn [handler].
  - unfold toggleIntegration. destruct (integrationMode env) eqn:E.
    + intros _. split; reflexivity.
    + intro H. discriminate H.
  - unfold onSelected. destruct (integrationMode env) eqn:E; [|exact W].
    destruct (calculateIntegration_written env event s) as [Hm _].
    intro H. rewrite Hm in H. unfold mode_rendered in M. congruence.
Qed.

(** What the resumed task of an answer is known to do. *)
Lemma answer_resumption_ok (rendered : State -> State -> Prop)
      (c c' : Config) (n : nat) (srv : Server) :
  Reachable rendered c ->
  deliver n srv c = Some c' ->
  exists (A : Type) (r : Request A) (k : FetchResult A -> Task),
    nth_error (inflight c) n = Some (Pend r k) /\
    state c' = written (k (srv A r)) (state c) /\
    resumption_ok (Any r) (k (srv A r)).
Proof.
  intros R D. pose proof (reachable_pendings R) as Hpend.
  destruct (deliver_resumes _ _ _ D) as (A & r & k & E & ->).
  exists A, r, k. split; [exact E|]. split; [now rewrite start_written|].
  rewrite Forall_forall in Hpend.
  exact (proj1 (Hpend _ (nth_error_In _ _ E) (srv A r))).
Qed.

Lemma answer_keeps_integration (rendered : State -> State -> Prop)
      (c c' : Config) (n : nat) (srv : Server) :
  Reachable rendered c ->
  deliver n srv c = Some c' ->
  integration (state c') = integration (state c).
Proof.
  intros R D.
  destruct (@answer_resumption_ok rendered c c' n srv R D) as (A & r & k & _ & -> & (_ & K & _)).
  apply K.
Qed.

(** A step that is not an integrating event leaves the integration mode and
    its result as they were. *)
Lemma step_integration (rendered : State -> State -> Prop) (c c' : Config) :
  Reachable rendered c ->
  Step rendered c c' ->
  integration (state c') = integration (state c) \/
  exists env e,
    integrates e = true /\ rendered env (state c) /\
    state c' = written (handler env e) (state c).
Proof.
  intros R S. destruct S as [env e c Hr|n srv c c' D].
  - destruct (integrates e) eqn:E.
    + right. exists env, e.
      split; [exact E|]. split; [exact Hr|apply start_written].
    + left. rewrite start_written. now apply handler_quiet.
  - left. exact (@answer_keeps_integration rendered c c' n srv R D).
Qed.

Lemma integration_fields (s s' : State) :
  integration s' = integration s ->
  integrationMode s' = integrationMode s /\
  integratedArea s' = integratedArea s /\
  integratedPoints s' = integratedPoints s.
Proof. unfold integration. intro H. injection H as -> -> ->. auto. Qed.

(** X12. In every configuration the component can reach, the stored
    integration result is whole: the area and the points are stored
    together, the points are at least two with as many x as y, and the area
    is the one the area loop gives for the stored points. *)
Theorem integration_result_is_whole (c : Config) :
  Reachable any_render c -> integration_whole (state c).
Proof.
  induction 1 as [|c c' R IH S]; [exact I|].
  destruct (step_integration R S) as [E|(env & e & Hi & _ & ->)].
  - apply integration_fields in E. destruct E as (_ & Ea & Ep).
    unfold integration_whole in *. now rewrite Ea, Ep.
  - now apply integrating_event_whole.
Qed.

Lemma integration_result_is_whole_witness :
  integration_whole
    (state (start (handler (with_integrationMode true
                              (with_ticData (Some ramp) initialState))
                           (ChromSelected (Some (box 0 2))))
                  (idle initialState))).
Proof.
  apply integration_result_is_whole.
  eapply reach_step; [apply reach_initial|].
  apply step_event. exact I.
Defined.

(** X13. When every selection is handled by a handler of a render that
    shows the live integration mode, no integration result is ever stored
    outside the integration mode: leaving the mode clears the area and the
    points, and nothing stores them again until the mode is entered. *)
Theorem integration_result_only_in_mode (c : Config) :
  Reachable mode_rendered c -> result_only_in_mode (state c).
Proof.
  induction 1 as [|c c' R IH S]; [intros _; split; reflexivity|].
  destruct (step_integration R S) as [E|(env & e & Hi & Hr & ->)].
  - apply integration_fields in E. destruct E as (Em & Ea & Ep).
    unfold result_only_in_mode in *. now rewrite Em, Ea, Ep.
  - now apply integrating_event_in_mode.
Qed.

Lemma integration_result_only_in_mode_witness :
  result_only_in_mode
    (state (start (handler initialState IntegrationToggled)
                  (idle initialState))).
Proof.
  apply integration_result_only_in_mode.
  eapply reach_step; [apply reach_initial|].
  apply step_event. reflexivity.
Defined.

(** X14. The integration mode and its stored result are written only by
    the mode button and by a selection on the chromatogram: every other
    user event, among them the selection of a new file, an extraction and
    the return to the total chromatogram, and every answer of the backend
    leave them as they were. *)
Theorem integration_survives_other_events :
  (forall env e c,
      integrates e = false ->
      integration (state (start (handler env e) c)) = integration (state c))
  /\
  (forall c n srv c',
      Reachable any_render c ->
      deliver n srv c = Some c' ->
      integration (state c') = integration (state c)).
Proof.
  split.
  - intros env e c H. rewrite start_written. now apply handler_quiet.
  - intros c n srv c' R D.
    exact (@answer_keeps_integration any_render c c' n srv R D).
Qed.

Lemma integration_survives_other_events_witness :
  integration
    (state (start (handler exploring (FileChosen (Some "b.mzML")))
                  (idle exploring)))
  = integration (state (idle exploring)).
Proof.
  apply (proj1 integration_survives_other_events exploring
           (FileChosen (Some "b.mzML")) (idle exploring)).
  reflexivity.
Defined.

(** ** What writes the file name, the scan list and the plot revision *)

(** X15. The selected file and the scan list change only through the
    selection of a file: every user event other than an upload, a demo
    load or a submitted path leaves them as they were, and so does every
    answer to a request for a chromatogram, a spectrum or a fragment
    spectrum. *)
Theorem file_and_scans_follow_selection :
  (forall env e c,
      chooses_file e = false ->
      selectedFile (state (start (handler env e) c)) = selectedFile (state c) /\
      scanList (state (start (handler env e) c)) = scanList (state c))
  /\
  (forall c n srv c' p,
      Reachable any_render c ->
      nth_error (inflight c) n = Some p ->
      selects_file (request_of p) = false ->
      deliver n srv c = Some c' ->
      selectedFile (state c') = selectedFile (state c) /\
      scanList (state c') = scanList (state c)).
Proof.
  split.
  - intros env e c H. rewrite start_written.
    destruct (proj2 (handler_quiet env e) H) as [F S]. split; [apply F|apply S].
  - intros c n srv c' p R E H D.
    destruct (@answer_resumption_ok any_render c c' n srv R D)
      as (A & r & k & E' & -> & (_ & _ & _ & Q)).
    rewrite E in E'. injection E' as ->. cbn [request_of] in H.
    destruct (Q H) as [F S]. split; [apply F|apply S].
Qed.

Lemma file_and_scans_follow_selection_witness :
  selectedFile (state (start (handler exploring ExtractClicked)
                             (idle exploring)))
  = selectedFile (state (idle exploring)) /\
  scanList (state (start (handler exploring ExtractClicked) (idle exploring)))
  = scanList (state (idle exploring)).
Proof.
  apply (proj1 file_and_scans_follow_selection exploring ExtractClicked
           (idle exploring)).
  reflexivity.
Defined.

(** X16. The plot revision never goes down: no step of any run lowers it,
    so it is never negative. *)
Theorem plot_revision_only_grows :
  (forall c c',
      Reachable any_render c ->
      Step any_render c c' ->
      (plotRevision (state c) <= plotRevision (state c'))%Z)
  /\
  (forall c, Reachable any_render c -> (0 <= plotRevision (state c))%Z).
Proof.
  assert (G : forall c c',
      Reachable any_render c ->
      Step any_render c c' ->
      (plotRevision (state c) <= plotRevision (state c'))%Z).
  { intros c c' R S. destruct S as [env e c _|n srv c c' D].
    - rewrite start_written. apply handler_handler_ok.
    - destruct (@answer_resumption_ok any_render c c' n srv R D)
        as (A & r & k & _ & -> & (_ & _ & M & _)).
      apply M. }
  split; [exact G|].
  induction 1 as [|c c' R IH S]; [cbn; lia|].
  specialize (G c c' R S). lia.
Qed.

Lemma plot_revision_only_grows_witness :
  (0 <= plotRevision
          (state (start (handler initialState DemoClicked)
                        (idle initialState))))%Z.
Proof.
  apply (proj2 plot_revision_only_grows).
  eapply reach_step; [apply reach_initial|].
  apply step_event. exact I.
Defined.

(** ** Failures of the chromatogram and scan-list requests *)

(** The message a failed answer throws in [fetchTic]. *)
Lemma or_default_cases (d : option string) (dflt : string) :
  (exists v, d = Some v /\ falsy v = false /\ or_default d dflt = v) \/
  ((d = None \/ d = Some EmptyString) /\ or_default d dflt = dflt).
Proof.
  destruct d as [[|a v]|]; cbn.
  - right. auto.
  - left. exists (String a v). auto.
  - right. auto.
Qed.

(** X17. A failed scan-list request is only written to the console: the
    scan list and the error banner stay as they were.  A failed
    chromatogram request leaves the total chromatogram as it was and sets
    the error banner: to the detail of a non-2xx answer when that is a
    non-empty string, to "Failed to get TIC" when the detail is missing,
    empty or unreadable, to the error's own message otherwise.  A
    successful one stores the chromatogram, raises the plot revision by one
    and does not clear an error banner already shown. *)
Theorem chromatogram_and_scan_list_outcomes :
  (forall filepath srv c,
      exists after,
        answered (fetchScanList filepath) srv c = Some after /\
        requests after = requests c /\
        loading (state after) = false /\
        error (state after) = error (state c) /\
        match srv _ (GetScanList filepath) with
        | Ok data =>
            scanList (state after) = data /\
            log after
            = log c ++ [Issued (Any (GetScanList filepath))
                               (with_loading true (state c));
                        Completed (Any (GetScanList filepath))]
        | Rejected m | OkUnparsable m =>
            scanList (state after) = scanList (state c) /\
            log after
            = log c ++ [Issued (Any (GetScanList filepath))
                               (with_loading true (state c));
                        Completed (Any (GetScanList filepath));
                        Console_error m]
        | NotOk _ =>
            scanList (state after) = scanList (state c) /\
            log after
            = log c ++ [Issued (Any (GetScanList filepath))
                               (with_loading true (state c));
                        Completed (Any (GetScanList filepath));
                        Console_error "Failed to get scan list"]
        end)
  /\
  (forall filepath srv c,
      exists after,
        answered (fetchTic filepath) srv c = Some after /\
        requests after = requests c /\
        loading (state after) = false /\
        chromXRange (state after) = None /\
        match srv _ (GetTic filepath) with
        | Ok data =>
            ticData (state after)
            = Some (XY.mk (ChromatogramResponse.rts data)
                          (ChromatogramResponse.ints data)) /\
            plotRevision (state after) = (plotRevision (state c) + 1)%Z /\
            error (state after) = error (state c)
        | Rejected m | OkUnparsable m =>
            ticData (state after) = ticData (state c) /\
            plotRevision (state after) = plotRevision (state c) /\
            error (state after) = Some m
        | NotOk (Unparsable _) =>
            ticData (state after) = ticData (state c) /\
            plotRevision (state after) = plotRevision (state c) /\
            error (state after) = Some "Failed to get TIC"
        | NotOk (Detail d) =>
            ticData (state after) = ticData (state c) /\
            plotRevision (state after) = plotRevision (state c) /\
            ((exists v, d = Some v /\ falsy v = false /\
                        error (state after) = Some v) \/
             ((d = None \/ d = Some EmptyString) /\
              error (state after) = Some "Failed to get TIC"))
        end).
Proof.
  split; intros filepath srv c; unfold answered.
  - cbn [fetchScanList start perform setLoading try_catch_finally try_catch
         finally state inflight log].
    rewrite deliver_last.
    destruct (srv (list Scan.t) (GetScanList filepath)) as [m|b|data|m];
      (eexists; split; [reflexivity|]); cbn;
      rewrite <- ?app_assoc; repeat split.
  - cbn [fetchTic start perform setLoading setChromXRange try_catch_finally
         try_catch finally state inflight log].
    rewrite deliver_last.
    destruct (srv ChromatogramResponse.t (GetTic filepath))
      as [m|[m|d]|data|m];
      (eexists; split; [reflexivity|]); cbn;
      try (repeat split; fail).
    repeat (split; [reflexivity|]).
    destruct (or_default_cases d "Failed to get TIC")
      as [(v & -> & F & E)|(Hd & E)].
    + left. exists v. repeat split; [exact F|now rewrite E].
    + right. split; [exact Hd|now rewrite E].
Qed.

(** ** A failed upload *)

Lemma calculateIntegration_issues_nothing (env : State)
      (event : option SelectEvent.t) :
  issued (calculateIntegration env event) = [].
Proof.
  destruct event as [event|]; [|reflexivity].
  destruct (SelectEvent.points event) eqn:EP;
    [|destruct (SelectEvent.range event) eqn:ER];
    [| |unfold calculateIntegration; rewrite EP, ER; reflexivity];
    (rewrite calculateIntegration_selected
       by (rewrite ?EP, ?ER; first [left; discriminate|right; discriminate]));
    destruct (match rangeX event, activeChromData env with
              | Some (minX, maxX), Some chrom => select minX maxX chrom
              | _, _ => ([], [])
              end) as [selectedX selectedY];
    destruct (length_Z selectedX <? 2)%Z; reflexivity.
Qed.

(** With no file on display, only the controls that choose a file reach
    the server. *)
Lemma no_file_no_requests (env : State) (e : Event) :
  no_file env -> chooses_file e = false -> issued (handler env e) = [].
Proof.
  intros (F & L & D) H.
  destruct e; try discriminate H; cbn [handler]; try reflexivity.
  - unfold toggleIntegration. destruct (integrationMode env); reflexivity.
  - unfold fetchChromatogram. rewrite F. reflexivity.
  - unfold updateSpectrumByIndex. rewrite L. cbn [length_Z List.length].
    destruct (idx <? 0)%Z eqn:E; [reflexivity|].
    apply Z.ltb_ge in E.
    assert (G : (idx >=? length_Z (@nil Scan.t))%Z = true)
      by (apply Z.geb_le; cbn; lia).
    rewrite G. reflexivity.
  - unfold handleKeyDown. rewrite L. cbn [length_Z List.length Z.of_nat Z.eqb].
    destruct ((key =? "Control")%string || (key =? "Meta")%string);
      reflexivity.
  - unfold handleKeyUp.
    destruct ((key =? "Control")%string || (key =? "Meta")%string);
      reflexivity.
  - unfold handlePlotClick. rewrite F. reflexivity.
  - unfold onSelected. destruct (integrationMode env); [|reflexivity].
    apply calculateIntegration_issues_nothing.
  - unfold chromRelayout, onRelayout.
    destruct (Relayout.range e); [reflexivity|].
    destruct (Relayout.autorange e || Relayout.autosize e); reflexivity.
  - unfold handleMs1Click. rewrite D. destruct points as [[|p ps]|];
      reflexivity.
  - unfold msRelayout, onRelayout.
    destruct (Relayout.range e); [reflexivity|].
    destruct (Relayout.autorange e || Relayout.autosize e); reflexivity.
  - unfold ms2Relayout, onRelayout.
    destruct (Relayout.range e); [reflexivity|].
    destruct (Relayout.autorange e || Relayout.autosize e); reflexivity.
Qed.

(** X18. With no file on display (none selected, no scan listed, no
    spectrum shown) only the controls that choose a file send a request:
    every other user event leaves the requests in flight as they were.
    Choosing a file for upload leads to such a state at once, before the
    upload request: the file name, both chromatograms, the spectrum and the
    scan list are cleared and the index is -1.  A failed answer to the
    upload, whenever it arrives and for whatever reason, issues no request
    and writes only the error banner, which shows "Upload Error: " followed
    by the message (for a non-2xx answer its detail or, without one,
    "Upload failed."), and the loading flag, which it turns off: every
    other state variable is as the answer finds it.  So when the upload
    fails before anything else happens, no file is on display after it. *)
Theorem failed_upload_leaves_no_file :
  (forall env e c,
      no_file env -> chooses_file e = false ->
      requests (start (handler env e) c) = requests c)
  /\
  (forall file c,
      exists k,
        let c1 := start (handleFileUpload (Some file)) c in
        inflight c1 = inflight c ++ [Pend (Upload file) k] /\
        no_file (state c1) /\
        ticData (state c1) = None /\
        chromData (state c1) = None /\
        currentScanIdx (state c1) = (-1)%Z /\
        forall c' n (srv : Server),
          awaited c' n (Upload file) k ->
          (forall data, srv _ (Upload file) <> Ok data) ->
          exists after,
            deliver n srv c' = Some after /\
            inflight after = remove_nth n (inflight c') /\
            state after
            = with_loading false
                (with_error (upload_error (srv _ (Upload file))) (state c')))
  /\
  (forall file (srv : Server) c,
      (forall data, srv _ (Upload file) <> Ok data) ->
      exists after,
        answered (handleFileUpload (Some file)) srv c = Some after /\
        requests after = requests c /\
        no_file (state after) /\
        ticData (state after) = None /\
        chromData (state after) = None /\
        currentScanIdx (state after) = (-1)%Z /\
        loading (state after) = false /\
        error (state after) = upload_error (srv _ (Upload file))).
Proof.
  split; [|split].
  - intros env e c N H. rewrite start_requests.
    rewrite (@no_file_no_requests env e N H). apply app_nil_r.
  - intros file c. eexists. cbv zeta.
    cbn [handleFileUpload start perform setSelectedFile setTicData
         setChromData setSpectrumData setScanList setCurrentScanIdx
         setLoading setError try_catch_finally try_catch finally state
         inflight log].
    split; [reflexivity|]. split; [repeat split|].
    do 3 (split; [reflexivity|]).
    intros c' n srv Haw H.
    rewrite (deliver_awaited srv Haw). cbv beta.
    destruct (srv UploadResponse.t (Upload file)) as [m|[m|d]|data|m];
      [| | |now destruct (H data)|];
      (eexists; split; [reflexivity|]); split; reflexivity.
  - intros file srv c H. unfold answered.
    cbn [handleFileUpload start perform setSelectedFile setTicData
         setChromData setSpectrumData setScanList setCurrentScanIdx
         setLoading setError try_catch_finally try_catch finally state
         inflight log].
    rewrite deliver_last.
    destruct (srv UploadResponse.t (Upload file)) as [m|[m|d]|data|m];
      [| | |now destruct (H data)|];
      (eexists; split; [reflexivity|]); cbn; repeat split.
Qed.

Lemma failed_upload_leaves_no_file_witness :
  exists after,
    answered (handleFileUpload (Some "b.mzML")) always_not_ok (idle exploring)
    = Some after /\
    no_file (state after) /\
    error (state after) = Some "Upload Error: Upload failed." /\
    requests (start (handler (state after) ExtractClicked) after) = [].
Proof.
  destruct (proj2 (proj2 failed_upload_leaves_no_file) "b.mzML" always_not_ok
                  (idle exploring))
    as (after & Ha & Hr & N & _ & _ & _ & _ & E).
  - intros data H. discriminate H.
  - exists after. repeat (split; [assumption|]).
    rewrite (proj1 failed_upload_leaves_no_file (state after) ExtractClicked
                   after N eq_refl).
    exact Hr.
Defined.

(** ** The loading flag while requests overlap *)

Lemma nth_error_middle {A : Type} (l : list A) (x : A) (rest : list A) :
  nth_error (l ++ x :: rest) (List.length l) = Some x.
Proof. induction l as [|y l IH]; [reflexivity|exact IH]. Qed.

Lemma remove_nth_middle {A : Type} (l : list A) (x : A) (rest : list A) :
  remove_nth (List.length l) (l ++ x :: rest) = l ++ rest.
Proof.
  induction l as [|y l IH]; [reflexivity|].
  cbn [List.length app remove_nth]. now rewrite IH.
Qed.

(** Answering a request that is not the last one issued. *)
Lemma deliver_middle {A : Type} (srv : Server) (s : State)
      (waiting rest : list Pending) (r : Request A)
      (k : FetchResult A -> Task) (l : list Obs) :
  deliver (List.length waiting) srv
          (mkConfig s (waiting ++ Pend r k :: rest) l)
  = Some (start (k (srv A r))
                (mkConfig s (waiting ++ rest) (l ++ [Completed (Any r)]))).
Proof.
  unfold deliver. cbn [inflight state log].
  now rewrite nth_error_middle, remove_nth_middle.
Qed.

(** X19. The loading flag goes off before the data of a new file are
    there.  When the demo path is known, [loadDemoData] leaves the flag off
    with the requests for the chromatogram and for the scan list both still
    in flight.  After a submitted path the flag is on with the two requests
    in flight, and the first of them to be answered, whichever it is and
    whatever the answer, turns it off while the other is still in
    flight. *)
Theorem loading_flag_goes_off_early :
  (forall (srv : Server) c data,
      srv _ GetDemoPath = Ok data ->
      exists after,
        answered loadDemoData srv c = Some after /\
        requests after
        = requests c ++ [Any (GetTic (DemoResponse.path data));
                         Any (GetScanList (DemoResponse.path data))] /\
        loading (state after) = false)
  /\
  (forall env c,
      falsy (manualPath env) = false ->
      let started := start (handleManualPathSubmit env) c in
      requests started
      = requests c ++ [Any (GetTic (manualPath env));
                       Any (GetScanList (manualPath env))] /\
      loading (state started) = true /\
      (forall srv,
          exists after,
            deliver (List.length (inflight c)) srv started = Some after /\
            requests after
            = requests c ++ [Any (GetScanList (manualPath env))] /\
            loading (state after) = false) /\
      (forall srv,
          exists after,
            deliver (S (List.length (inflight c))) srv started = Some after /\
            requests after = requests c ++ [Any (GetTic (manualPath env))] /\
            loading (state after) = false)).
Proof.
  split.
  - intros srv c data E. unfold answered.
    cbn [loadDemoData start perform setLoading setError try_catch_finally
         try_catch finally state inflight log].
    rewrite deliver_last. rewrite E.
    eexists. split; [reflexivity|]. cbn. split; [requests_eq|reflexivity].
  - intros env c F. cbv zeta. unfold handleManualPathSubmit. rewrite F.
    split; [cbn; requests_eq|]. split; [reflexivity|].
    cbn [start perform fetchTic fetchScanList setSelectedFile setLoading
         setChromXRange try_catch_finally try_catch finally state inflight
         log].
    unfold emit. cbn [state inflight log].
    split; intro srv.
    + rewrite <- app_assoc. cbn [app]. rewrite deliver_middle.
      destruct (srv ChromatogramResponse.t (GetTic (manualPath env)))
        as [m|[m|d]|data|m];
        (eexists; split; [reflexivity|]); cbn;
        (split; [requests_eq|reflexivity]).
    + match goal with
      | |- context [(inflight c ++ [?p]) ++ _] =>
          replace (S (List.length (inflight c)))
            with (List.length (inflight c ++ [p]))
            by (rewrite length_app; cbn; lia)
      end.
      rewrite deliver_last.
      destruct (srv (list Scan.t) (GetScanList (manualPath env)))
        as [m|b|data|m];
        (eexists; split; [reflexivity|]); cbn;
        (split; [requests_eq|reflexivity]).
Qed.

Lemma loading_flag_goes_off_early_witness :
  exists after,
    answered loadDemoData healthy (idle initialState) = Some after /\
    requests after
    = [Any (GetTic "demo.mzML"); Any (GetScanList "demo.mzML")] /\
    loading (state after) = false.
Proof.
  exact (proj1 loading_flag_goes_off_early healthy (idle initialState)
               (DemoResponse.mk "demo.mzML") eq_refl).
Defined.
(** ** What writes the user's inputs and the zoom windows *)

Ltac frame_goal :=
  solve [ unfold frame_ok, event_frame, keeps, inputs; cbn;
          repeat match goal with
                 | |- _ /\ _ => split
                 | |- _ -> _ => intro
                 | |- forall _, _ => intro
                 end;
          solve [ reflexivity | congruence ] ].

Lemma fetchScanList_frames (filepath : string) :
  resumptions frame_ok (fetchScanList filepath).
Proof. cbn. each_answer; frame_goal. Qed.

Lemma fetchTic_frames (filepath : string) :
  resumptions frame_ok (fetchTic filepath).
Proof. cbn. each_answer; frame_goal. Qed.

Lemma fetchSpectrum_frames (env : State) (rt_sec : Qc) :
  resumptions frame_ok (fetchSpectrum env rt_sec).
Proof.
  unfold fetchSpectrum. destruct (falsy (selectedFile env)); [exact I|].
  cbn [resumptions try_catch_finally try_catch finally].
  each_answer; try frame_goal.
  cbn [try_catch finally].
  destruct (length_Z (scanList env) >? 0)%Z; [|frame_goal].
  destruct (closestIdx (scanList env) (SpectrumResponse.rt _));
    frame_goal.
Qed.

Lemma fetchMs2Spectrum_frames (env : State) (precursor rt_sec : Qc) :
  resumptions frame_ok (fetchMs2Spectrum env precursor rt_sec).
Proof.
  unfold fetchMs2Spectrum. destruct (falsy (selectedFile env)); [exact I|].
  cbn. each_answer; frame_goal.
Qed.

Lemma fetchChromatogram_frames (env : State) :
  resumptions frame_ok (fetchChromatogram env).
Proof.
  unfold fetchChromatogram. destruct (falsy (selectedFile env)); [exact I|].
  cbn [resumptions try_catch_finally try_catch finally].
  each_answer; frame_goal.
Qed.

Lemma handleFileUpload_frames (file : option string) :
  resumptions frame_ok (handleFileUpload file).
Proof.
  destruct file as [file|]; [|exact I].
  cbn. each_answer; try frame_goal.
  split; [frame_goal|].
  each_answer; (split; [frame_goal|]);
    each_answer; frame_goal.
Qed.

Lemma loadDemoData_frames : resumptions frame_ok loadDemoData.
Proof.
  cbn. each_answer; try frame_goal.
  split; [frame_goal|].
  split; [|split; [|exact I]]; each_answer; frame_goal.
Qed.

Lemma shape_frames (env : State) (t : Task) :
  requests_spectrum env t -> resumptions frame_ok t.
Proof.
  induction 1 as [|t _ IH|rt_sec|idx scan _]; cbn [resumptions].
  - exact I.
  - exact IH.
  - split; [apply fetchSpectrum_frames|exact I].
  - split; [apply fetchSpectrum_frames|exact I].
Qed.

Lemma check_points_frames (env : State) (spectrum : SpectrumResponse.t)
      (has_ms2 points : list Qc) :
  resumptions frame_ok (check_points env spectrum has_ms2 points).
Proof.
  induction points as [|mz rest IH]; [exact I|].
  cbn [check_points resumptions].
  destruct (find_precursor has_ms2 mz); [|exact IH].
  cbn [resumptions]. split; [apply fetchMs2Spectrum_frames|exact I].
Qed.

(** A task that issues nothing has no resumption. *)
Lemma silent_resumptions (P : AnyRequest -> Task -> Prop) (t : Task) :
  issued t = [] -> resumptions P t.
Proof.
  induction t as [|m|e k IH|A r k _|t' IH' k IH]; cbn [issued resumptions];
    intro E.
  - exact I.
  - exact I.
  - now apply IH.
  - discriminate E.
  - apply app_eq_nil in E. destruct E as [E' E]. split; auto.
Qed.

Lemma onRelayout_resumptions_any (P : AnyRequest -> Task -> Prop)
      (setRange : option (Qc * Qc) -> Effect) (e : Relayout.t) :
  resumptions P (onRelayout setRange e).
Proof.
  unfold onRelayout. destruct (Relayout.range e); [exact I|].
  destruct (Relayout.autorange e || Relayout.autosize e); exact I.
Qed.

Lemma handler_frames (env : State) (e : Event) :
  resumptions frame_ok (handler env e).
Proof.
  destruct e; cbn [handler]; try exact I.
  - apply handleFileUpload_frames.
  - apply loadDemoData_frames.
  - unfold handleManualPathSubmit. cbn [resumptions].
    destruct (falsy (manualPath env)); [exact I|]. cbn [resumptions].
    split; [apply fetchTic_frames|].
    split; [apply fetchScanList_frames|exact I].
  - unfold toggleIntegration. destruct (integrationMode env); exact I.
  - apply fetchChromatogram_frames.
  - apply (shape_frames (updateSpectrumByIndex_shape env idx)).
  - apply (shape_frames (handleKeyDown_shape env key)).
  - unfold handleKeyUp.
    destruct ((key =? "Control")%string || (key =? "Meta")%string); exact I.
  - apply (shape_frames (handlePlotClick_shape env event)).
  - unfold onSelected. destruct (integrationMode env); [|exact I].
    apply silent_resumptions, calculateIntegration_issues_nothing.
  - apply onRelayout_resumptions_any.
  - unfold handleMs1Click. cbn [resumptions].
    destruct points as [[|p ps]|]; try exact I.
    destruct (spectrumData env) as [spectrum|]; [|exact I].
    destruct (SpectrumResponse.has_ms2 spectrum); [|exact I].
    apply check_points_frames.
  - apply onRelayout_resumptions_any.
  - apply onRelayout_resumptions_any.
Qed.

Lemma fetchSpectrum_frame (env : State) (rt_sec : Qc) (s : State) :
  inputs (written (fetchSpectrum env rt_sec) s) = inputs s /\
  chromXRange (written (fetchSpectrum env rt_sec) s) = chromXRange s /\
  msXRange (written (fetchSpectrum env rt_sec) s) = msXRange s /\
  ms2XRange (written (fetchSpectrum env rt_sec) s) = ms2XRange s.
Proof.
  unfold fetchSpectrum. destruct (falsy (selectedFile env)); repeat split.
Qed.

Lemma shape_zoom (env : State) (t : Task) :
  requests_spectrum env t ->
  keeps chromXRange t /\ keeps msXRange t /\ keeps ms2XRange t.
Proof.
  unfold keeps.
  induction 1 as [|t _ (C & M & F)|rt_sec|idx scan _]; cbn [written].
  - repeat split.
  - cbn [setCtrlPressed written]. repeat split; intro s;
      [rewrite C|rewrite M|rewrite F]; reflexivity.
  - repeat split; intro s; apply fetchSpectrum_frame.
  - cbn [setCurrentScanIdx written]. repeat split; intro s;
      cbn [written];
      destruct (fetchSpectrum_frame env (Scan.rt scan)
                  (with_currentScanIdx idx s)) as (_ & C & M & F);
      [rewrite C|rewrite M|rewrite F]; reflexivity.
Qed.

Lemma updateSpectrumByIndex_inputs (env : State) (idx : Z) :
  keeps inputs (updateSpectrumByIndex env idx).
Proof.
  intro s. unfold updateSpectrumByIndex.
  destruct ((idx <? 0)%Z || (idx >=? length_Z (scanList env))%Z);
    [reflexivity|].
  destruct (index (scanList env) idx) as [scan|]; [|reflexivity].
  cbn [setCurrentScanIdx written].
  now rewrite (proj1 (fetchSpectrum_frame env (Scan.rt scan) _)).
Qed.

Lemma handlePlotClick_inputs (env : State) (event : PlotClick.t) :
  keeps inputs (handlePlotClick env event).
Proof.
  intro s. unfold handlePlotClick.
  destruct (falsy (selectedFile env)); [reflexivity|]. cbv zeta.
  match goal with
  | |- context [match ?x with Some _ => _ | None => Done end] => destruct x
  end; [|reflexivity].
  destruct (ltb _ 0); [reflexivity|].
  cbn [written]. apply fetchSpectrum_frame.
Qed.

Lemma check_points_frame (env : State) (spectrum : SpectrumResponse.t)
      (has_ms2 points : list Qc) (s : State) :
  inputs (written (check_points env spectrum has_ms2 points) s) = inputs s /\
  chromXRange (written (check_points env spectrum has_ms2 points) s)
  = chromXRange s /\
  msXRange (written (check_points env spectrum has_ms2 points) s)
  = msXRange s /\
  ms2XRange (written (check_points env spectrum has_ms2 points) s)
  = ms2XRange s.
Proof.
  induction points as [|mz rest IH]; [repeat split|].
  cbn [check_points written].
  destruct (find_precursor has_ms2 mz); [|exact IH].
  unfold fetchMs2Spectrum. destruct (falsy (selectedFile env)); repeat split.
Qed.

Lemma calculateIntegration_frame (env : State) (event : option SelectEvent.t)
      (s : State) :
  inputs (written (calculateIntegration env event) s) = inputs s /\
  chromXRange (written (calculateIntegration env event) s) = chromXRange s /\
  msXRange (written (calculateIntegration env event) s) = msXRange s /\
  ms2XRange (written (calculateIntegration env event) s) = ms2XRange s.
Proof.
  destruct event as [event|]; [|repeat split].
  destruct (SelectEvent.points event) eqn:EP;
    [|destruct (SelectEvent.range event) eqn:ER];
    [| |unfold calculateIntegration; rewrite EP, ER; repeat split];
    (rewrite calculateIntegration_selected
       by (rewrite ?EP, ?ER; first [left; discriminate|right; discriminate]));
    destruct (match rangeX event, activeChromData env with
              | Some (minX, maxX), Some chrom => select minX maxX chrom
              | _, _ => ([], [])
              end) as [selectedX selectedY];
    destruct (length_Z selectedX <? 2)%Z; repeat split.
Qed.

(** What each handler keeps up to its first suspension. *)
Lemma handler_event_frame (env : State) (e : Event) :
  event_frame e (handler env e).
Proof.
  destruct e; cbn [handler].
  - destruct file; frame_goal.
  - frame_goal.
  - frame_goal.
  - unfold handleManualPathSubmit. destruct (falsy (manualPath env));
      frame_goal.
  - frame_goal.
  - frame_goal.
  - frame_goal.
  - frame_goal.
  - unfold toggleIntegration. destruct (integrationMode env); frame_goal.
  - frame_goal.
  - unfold fetchChromatogram. destruct (falsy (selectedFile env));
      frame_goal.
  - frame_goal.
  - destruct (shape_zoom (updateSpectrumByIndex_shape env idx))
      as (C & M & F).
    pose proof (updateSpectrumByIndex_inputs env idx) as U.
    repeat split; intros _; assumption.
  - destruct (shape_zoom (handleKeyDown_shape env key)) as (C & M & F).
    repeat split; first [discriminate|intros _; assumption].
  - unfold handleKeyUp.
    destruct ((key =? "Control")%string || (key =? "Meta")%string);
      frame_goal.
  - destruct (shape_zoom (handlePlotClick_shape env event)) as (C & M & F).
    pose proof (handlePlotClick_inputs env event) as U.
    repeat split; intros _; assumption.
  - unfold onSelected. destruct (integrationMode env); [|frame_goal].
    repeat split; intros _ s; apply calculateIntegration_frame.
  - unfold chromRelayout, onRelayout. destruct (Relayout.range e);
      [frame_goal|].
    destruct (Relayout.autorange e || Relayout.autosize e); frame_goal.
  - unfold handleMs1Click.
    destruct points as [[|p ps]|]; try frame_goal.
    destruct (spectrumData env) as [spectrum|]; [|frame_goal].
    destruct (SpectrumResponse.has_ms2 spectrum) as [has_ms2|];
      [|frame_goal].
    repeat split; intros _ s; cbn [written];
      apply check_points_frame.
  - unfold msRelayout, onRelayout. destruct (Relayout.range e);
      [frame_goal|].
    destruct (Relayout.autorange e || Relayout.autosize e); frame_goal.
  - unfold ms2Relayout, onRelayout. destruct (Relayout.range e);
      [frame_goal|].
    destruct (Relayout.autorange e || Relayout.autosize e); frame_goal.
Qed.

Lemma reachable_frames (rendered : State -> State -> Prop) (c : Config) :
  Reachable rendered c ->
  Forall (pending_ok frame_ok) (inflight c).
Proof.
  induction 1 as [|c c' _ IH S]; [constructor|].
  destruct S as [env e c _|n srv c c' D].
  - apply start_pendings; [exact IH|apply handler_frames].
  - eapply deliver_pendings; eassumption.
Qed.

(** X20. The user's inputs (the typed path, the target m/z, the tolerance,
    the normalisation tick, the help panel and the modifier-key flag) are
    written by their own controls only: no other event and no answer to a
    request changes them.  The zoom window of the MS1 pane is written only
    by a relayout of that pane and by the answer to a spectrum request;
    that of the MS2 pane only by a relayout of that pane and by the answer
    to a fragment-spectrum request; that of the chromatogram pane only by
    a relayout of that pane, by a submitted path, and by the answers to an
    upload and to the demo-path request, which start the chromatogram
    request. *)
Theorem inputs_and_zoom_windows_frame :
  (forall env e c,
      let c' := start (handler env e) c in
      (sets_input e = false -> inputs (state c') = inputs (state c)) /\
      (zooms_chrom e = false -> chromXRange (state c') = chromXRange (state c)) /\
      (zooms_ms1 e = false -> msXRange (state c') = msXRange (state c)) /\
      (zooms_ms2 e = false -> ms2XRange (state c') = ms2XRange (state c)))
  /\
  (forall c n srv c' p,
      Reachable any_render c ->
      nth_error (inflight c) n = Some p ->
      deliver n srv c = Some c' ->
      inputs (state c') = inputs (state c) /\
      (starts_tic (request_of p) = false ->
       chromXRange (state c') = chromXRange (state c)) /\
      (is_spectrum (request_of p) = false ->
       msXRange (state c') = msXRange (state c)) /\
      (is_ms2 (request_of p) = false ->
       ms2XRange (state c') = ms2XRange (state c))).
Proof.
  split.
  - intros env e c. cbv zeta. rewrite start_written.
    destruct (handler_event_frame env e) as (I & C & M & F).
    repeat split; intro H; [apply I|apply C|apply M|apply F]; exact H.
  - intros c n srv c' p R E D.
    pose proof (reachable_frames R) as Hpend.
    destruct (deliver_resumes _ _ _ D) as (A & r & k & E' & ->).
    rewrite E in E'. injection E' as ->. cbn [request_of].
    rewrite start_written. cbn [state].
    rewrite Forall_forall in Hpend.
    destruct (proj1 (Hpend _ (nth_error_In _ _ E) (srv A r)))
      as (I & C & M & F).
    repeat split; [apply I|intro H; apply C|intro H; apply M|intro H; apply F];
      exact H.
Qed.

Lemma inputs_and_zoom_windows_frame_witness :
  chromXRange (state (start (handler exploring ExtractClicked)
                            (idle exploring)))
  = chromXRange (state (idle exploring)).
Proof.
  apply (proj1 (proj2 (proj1 inputs_and_zoom_windows_frame exploring
                         ExtractClicked (idle exploring)))).
  reflexivity.
Defined.
(** ** Paths of the file browser *)

Lemma split_path_nonempty (s : string) : split_path s <> [].
Proof.
  induction s as [|c rest IH]; cbn [split_path]; [discriminate|].
  destruct (is_separator c); [discriminate|].
  destruct (split_path rest); discriminate.
Qed.

Lemma split_path_plain (f : string) :
  all_chars (fun c => negb (is_separator c)) f = true ->
  split_path f = [f]%list.
Proof.
  induction f as [|c rest IH]; cbn [all_chars split_path]; [reflexivity|].
  intro H. apply andb_prop in H. destruct H as [Hc Hrest].
  apply negb_true_iff in Hc. rewrite Hc, (IH Hrest). reflexivity.
Qed.

Lemma split_path_slash (a b : string) :
  split_path (a ++ "/" ++ b)%string = split_path a ++ split_path b.
Proof.
  induction a as [|c rest IH]; [reflexivity|].
  cbn [String.append split_path] in *.
  destruct (is_separator c); [now rewrite IH|].
  rewrite IH.
  destruct (split_path rest) as [|h t] eqn:E; [|reflexivity].
  now destruct (split_path_nonempty rest).
Qed.

Lemma join_path_cons_char (c : Ascii.ascii) (h : string) (t : list string) :
  join_path (String c h :: t) = String c (join_path (h :: t)).
Proof. destruct t; reflexivity. Qed.

Lemma separator_cases (c : Ascii.ascii) :
  is_separator c = true ->
  is_backslash c = false ->
  String c EmptyString = "/"%string.
Proof.
  unfold is_separator, is_backslash. intros H B. rewrite B in H.
  rewrite orb_false_r in H. now apply String.eqb_eq.
Qed.

(** Splitting and joining gives the path back when it has no backslash. *)
Lemma join_split_path (p : string) :
  all_chars (fun c => negb (is_backslash c)) p = true ->
  join_path (split_path p) = p.
Proof.
  induction p as [|c rest IH]; cbn [all_chars split_path]; [reflexivity|].
  intro H. apply andb_prop in H. destruct H as [Hc Hrest].
  apply negb_true_iff in Hc. specialize (IH Hrest).
  destruct (split_path rest) as [|h t] eqn:E;
    [now destruct (split_path_nonempty rest)|].
  destruct (is_separator c) eqn:S.
  - pose proof (separator_cases c S Hc) as Hs. injection Hs as ->.
    change (join_path (EmptyString :: h :: t))
      with (EmptyString ++ "/" ++ join_path (h :: t))%string.
    rewrite IH. reflexivity.
  - rewrite join_path_cons_char, IH. reflexivity.
Qed.

(** X21. In the file browser, going up undoes going down: from a folder
    whose path is not empty and has no backslash, the path that
    [traverseUp] asks for after [handleFolderClick] on a name without
    separators is the path of that folder.  [traverseUp] does nothing on
    the empty path only, never asks for the empty path, and from a path
    without separators asks for the root. *)
Theorem traverseUp_undoes_folder_click :
  (forall currentPath folderName,
      falsy currentPath = false ->
      all_chars (fun c => negb (is_backslash c)) currentPath = true ->
      all_chars (fun c => negb (is_separator c)) folderName = true ->
      traverseUp_path (handleFolderClick_path currentPath folderName)
      = Some currentPath)
  /\
  (forall currentPath,
      (traverseUp_path currentPath = None <-> currentPath = EmptyString) /\
      traverseUp_path currentPath <> Some EmptyString)
  /\
  (forall currentPath,
      falsy currentPath = false ->
      all_chars (fun c => negb (is_separator c)) currentPath = true ->
      traverseUp_path currentPath = Some "/"%string).
Proof.
  split; [|split].
  - intros p f Hp Hb Hf. unfold handleFolderClick_path, traverseUp_path.
    destruct (String.eqb_spec p "/") as [->|Hne].
    + cbn [String.append falsy split_path is_separator String.eqb
           Ascii.eqb Bool.eqb orb].
      rewrite (split_path_plain f Hf). reflexivity.
    + replace (falsy (p ++ "/" ++ f)) with false
        by (destruct p; [discriminate Hp|reflexivity]).
      rewrite split_path_slash, (split_path_plain f Hf), removelast_last.
      rewrite (join_split_path p Hb), Hp. reflexivity.
  - intro p. unfold traverseUp_path.
    destruct p as [|c rest]; cbn [falsy].
    + split; [split; reflexivity|discriminate].
    + split; [split; discriminate|].
      destruct (join_path (removelast (split_path (String c rest))));
        discriminate.
  - intros p Hp Hs. unfold traverseUp_path. rewrite Hp.
    rewrite (split_path_plain p Hs). reflexivity.
Qed.

Lemma traverseUp_undoes_folder_click_witness :
  traverseUp_path (handleFolderClick_path "/data/runs" "day1")
  = Some "/data/runs"%string.
Proof.
  apply (proj1 traverseUp_undoes_folder_click "/data/runs" "day1");
    reflexivity.
Defined.
